(** * Monitoring service event handlers

    A shallow embedding of [src/monitoring_service/handlers.py]: the nine
    event handlers of the monitoring service, run in a small state and
    exception monad over the service context, its database, the structured
    log and the transactions handed to the chain. *)

From Stdlib Require Import ZArith Ascii String.
From Stdlib Require Import Floats.SpecFloat.
From stdpp Require Import gmap strings list fin_maps.

Local Open Scope Z_scope.

(** ** Data model *)

(** Addresses are checksummed hex strings, compared with Python's [==]. *)
Abbreviation Address := string.

(** Transaction hashes are byte strings; a character stands for a byte. *)
Abbreviation TxHash := string.

(** Modelled from the spec: [raiden_contracts.constants.ChannelState], of
    which the service stores [OPENED], [CLOSED] and [SETTLED]. *)
Inductive ChannelState := OPENED | CLOSED | SETTLED.

#[global] Instance ChannelState_eq_dec : EqDecision ChannelState.
Proof. solve_decision. Defined.

(** Modelled from the spec: [monitoring_service.states.OnChainUpdateStatus],
    the latest known on-chain balance-proof update of a channel. *)
Module OnChainUpdateStatus.
Record t := mk {
  update_sender_address : Address;
  nonce : Z
}.
End OnChainUpdateStatus.

(** Modelled from the spec: [monitoring_service.states.Channel]. A channel is
    created with state [OPENED] and every optional attribute [None]. *)
Module Channel.
Record t := mk {
  token_network_address : Address;
  identifier : Z;
  participant1 : Address;
  participant2 : Address;
  settle_timeout : Z;
  state : ChannelState;
  closing_block : option Z;
  closing_participant : option Address;
  closing_tx_hash : option TxHash;
  claim_tx_hash : option TxHash;
  update_status : option OnChainUpdateStatus.t
}.

Definition new (tn : Address) (cid : Z) (p1 p2 : Address) (st : Z) : t :=
  mk tn cid p1 p2 st OPENED None None None None None.

Definition participants (c : t) : list Address :=
  [participant1 c; participant2 c].

Definition set_state (v : ChannelState) (c : t) : t :=
  mk (token_network_address c) (identifier c) (participant1 c)
     (participant2 c) (settle_timeout c) v (closing_block c)
     (closing_participant c) (closing_tx_hash c) (claim_tx_hash c)
     (update_status c).

Definition set_closing_block (v : option Z) (c : t) : t :=
  mk (token_network_address c) (identifier c) (participant1 c)
     (participant2 c) (settle_timeout c) (state c) v
     (closing_participant c) (closing_tx_hash c) (claim_tx_hash c)
     (update_status c).

Definition set_closing_participant (v : option Address) (c : t) : t :=
  mk (token_network_address c) (identifier c) (participant1 c)
     (participant2 c) (settle_timeout c) (state c) (closing_block c)
     v (closing_tx_hash c) (claim_tx_hash c) (update_status c).

Definition set_closing_tx_hash (v : option TxHash) (c : t) : t :=
  mk (token_network_address c) (identifier c) (participant1 c)
     (participant2 c) (settle_timeout c) (state c) (closing_block c)
     (closing_participant c) v (claim_tx_hash c) (update_status c).

Definition set_claim_tx_hash (v : option TxHash) (c : t) : t :=
  mk (token_network_address c) (identifier c) (participant1 c)
     (participant2 c) (settle_timeout c) (state c) (closing_block c)
     (closing_participant c) (closing_tx_hash c) v (update_status c).

Definition set_update_status (v : option OnChainUpdateStatus.t) (c : t) : t :=
  mk (token_network_address c) (identifier c) (participant1 c)
     (participant2 c) (settle_timeout c) (state c) (closing_block c)
     (closing_participant c) (closing_tx_hash c) (claim_tx_hash c) v.
End Channel.

(** Modelled from the spec: [monitoring_service.states.MonitorRequest];
    [signer] and [non_closing_signer] are the addresses recovered from the
    closing signature and from the reward proof signature. *)
Module MonitorRequest.
Record t := mk {
  channel_identifier : Z;
  token_network_address : Address;
  balance_hash : string;
  nonce : Z;
  additional_hash : string;
  closing_signature : string;
  non_closing_signature : string;
  reward_amount : Z;
  reward_proof_signature : string;
  signer : Address;
  non_closing_signer : Address
}.
End MonitorRequest.

(** Modelled from the spec: the event classes of [raiden_libs.events] and
    [monitoring_service.events], one constructor per class, the arguments in
    the order of section 4.2 of the specification. *)
Inductive Event :=
| ReceiveChannelOpenedEvent
    (token_network_address : Address) (channel_identifier : Z)
    (participant1 participant2 : Address) (settle_timeout : Z)
    (block_number : Z)
| ReceiveChannelClosedEvent
    (token_network_address : Address) (channel_identifier : Z)
    (closing_participant : Address) (block_number : Z)
| ReceiveNonClosingBalanceProofUpdatedEvent
    (token_network_address : Address) (channel_identifier : Z)
    (closing_participant : Address) (nonce : Z) (block_number : Z)
| ReceiveChannelSettledEvent
    (token_network_address : Address) (channel_identifier : Z)
    (block_number : Z)
| ReceiveMonitoringNewBalanceProofEvent
    (token_network_address : Address) (channel_identifier : Z)
    (reward_amount : Z) (nonce : Z) (ms_address : Address)
    (raiden_node_address : Address) (block_number : Z)
| ReceiveMonitoringRewardClaimedEvent
    (ms_address : Address) (amount : Z) (reward_identifier : string)
    (block_number : Z)
| UpdatedHeadBlockEvent (head_block_number : Z)
| ActionMonitoringTriggeredEvent
    (token_network_address : Address) (channel_identifier : Z)
    (non_closing_participant : Address)
| ActionClaimRewardTriggeredEvent
    (token_network_address : Address) (channel_identifier : Z)
    (non_closing_participant : Address).

#[global] Instance Event_eq_dec : EqDecision Event.
Proof. solve_decision. Defined.

(** Modelled from the spec: [monitoring_service.events.ScheduledEvent]. *)
Module ScheduledEvent.
Record t := mk {
  trigger_block_number : Z;
  event : Event
}.
End ScheduledEvent.

#[global] Instance ScheduledEvent_eq_dec : EqDecision ScheduledEvent.t.
Proof. solve_decision. Defined.

(** Modelled from the spec: [monitoring_service.states.BlockchainState]. *)
Module BlockchainState.
Record t := mk {
  chain_id : Z;
  token_network_registry_address : Address;
  monitor_contract_address : Address;
  latest_known_block : Z;
  latest_committed_block : Z
}.

Definition set_latest_known_block (v : Z) (b : t) : t :=
  mk (chain_id b) (token_network_registry_address b)
     (monitor_contract_address b) v (latest_committed_block b).
End BlockchainState.

(** Modelled from the spec: [monitoring_service.states.MonitoringServiceState]. *)
Module MonitoringServiceState.
Record t := mk {
  blockchain_state : BlockchainState.t;
  address : Address
}.

Definition set_blockchain_state (v : BlockchainState.t) (s : t) : t :=
  mk v (address s).
End MonitoringServiceState.

(** ** The database *)

(** Modelled from the spec: [monitoring_service.database.Database], section
    4.1. Channels are keyed by [(token_network_address, identifier)];
    monitor requests are looked up by
    [(token_network_address, channel_identifier, non_closing_signer)];
    scheduled events are unique on the full tuple and kept in insertion
    order; [update_state] persists the blockchain state. *)
Module Database.
Record t := mk {
  channels : gmap (Address * Z) Channel.t;
  monitor_requests : list MonitorRequest.t;
  scheduled_events : list ScheduledEvent.t;
  waiting_transactions : list string;
  blockchain : BlockchainState.t
}.

Definition get_channel (tn : Address) (cid : Z) (d : t) : option Channel.t :=
  channels d !! (tn, cid).

Definition upsert_channel (c : Channel.t) (d : t) : t :=
  mk (<[(Channel.token_network_address c, Channel.identifier c) := c]>
        (channels d))
     (monitor_requests d) (scheduled_events d) (waiting_transactions d)
     (blockchain d).

Definition mr_matches (tn : Address) (cid : Z) (ncs : Address)
    (mr : MonitorRequest.t) : bool :=
  bool_decide (MonitorRequest.token_network_address mr = tn)
  && bool_decide (MonitorRequest.channel_identifier mr = cid)
  && bool_decide (MonitorRequest.non_closing_signer mr = ncs).

Definition get_monitor_request (tn : Address) (cid : Z) (ncs : Address)
    (d : t) : option MonitorRequest.t :=
  List.find (mr_matches tn cid ncs) (monitor_requests d).

Definition upsert_scheduled_event (se : ScheduledEvent.t) (d : t) : t :=
  mk (channels d) (monitor_requests d)
     (if bool_decide (se ∈ scheduled_events d) then scheduled_events d
      else scheduled_events d ++ [se])
     (waiting_transactions d) (blockchain d).

Definition add_waiting_transaction (h : string) (d : t) : t :=
  mk (channels d) (monitor_requests d) (scheduled_events d)
     (waiting_transactions d ++ [h]) (blockchain d).

Definition update_state (s : MonitoringServiceState.t) (d : t) : t :=
  mk (channels d) (monitor_requests d) (scheduled_events d)
     (waiting_transactions d) (MonitoringServiceState.blockchain_state s).
End Database.

(** ** The context and the world around a handler *)

(** [Context] of [handlers.py]. The Web3 handle, the contract manager and the
    two contract objects are external collaborators: what they answer is
    given to the handlers as a [Chain.t]. *)
Module Context.
Record t := mk {
  ms_state : MonitoringServiceState.t;
  db : Database.t;
  last_known_block : Z;
  min_reward : Z
}.

Definition set_ms_state (v : MonitoringServiceState.t) (c : t) : t :=
  mk v (db c) (last_known_block c) (min_reward c).

Definition set_db (v : Database.t) (c : t) : t :=
  mk (ms_state c) v (last_known_block c) (min_reward c).
End Context.

(** The answers of the chain to the three calls the handlers make:
    [user_deposit_contract.functions.effectiveBalance(a).call()] and the two
    [monitoring_service_contract.functions.<f>(...).transact({'from': a})].
    [None] stands for a call that raises. *)
Module Chain.
Record t := mk {
  effectiveBalance : Address -> option Z;
  monitor : MonitorRequest.t -> Address -> option TxHash;
  claimReward : Z -> Address -> Address -> Address -> Address -> option TxHash
}.
End Chain.

(** A transaction handed to the chain by [transact], whether or not the call
    went through. *)
Inductive Transaction :=
| MonitorTx (monitor_request : MonitorRequest.t) (sender : Address)
| ClaimRewardTx (channel_identifier : Z) (token_network_address : Address)
    (signer non_closing_signer : Address) (sender : Address).

Inductive LogLevel := INFO | WARNING | ERROR.

Module World.
Record t := mk {
  context : Context.t;
  log : list (LogLevel * string);
  submitted : list Transaction
}.

Definition db (w : t) : Database.t := Context.db (context w).

Definition set_context (v : Context.t) (w : t) : t :=
  mk v (log w) (submitted w).
End World.

(** ** The handler monad: state and exceptions *)

Inductive exn := AssertionError | OverflowError | ValueError | RpcError.

Inductive result (A : Type) :=
| Return (a : A)
| Raise (e : exn).
Arguments Return {A} a.
Arguments Raise {A} e.

Definition M (A : Type) : Type := World.t -> result A * World.t.

Definition ret {A} (a : A) : M A := fun w => (Return a, w).

Definition bind {A B} (m : M A) (k : A -> M B) : M B :=
  fun w =>
    match m w with
    | (Return a, w') => k a w'
    | (Raise e, w') => (Raise e, w')
    end.

Definition raise {A} (e : exn) : M A := fun w => (Raise e, w).

(** [try: body / except Exception: handler]. *)
Definition try_except {A} (body : M A) (handler : exn -> M A) : M A :=
  fun w =>
    match body w with
    | (Return a, w') => (Return a, w')
    | (Raise e, w') => handler e w'
    end.

Declare Scope handler_scope.
Delimit Scope handler_scope with handler.
Bind Scope handler_scope with M.

Notation "x <- m ;; k" := (bind m (fun x => k))
  (at level 100, m at next level, k at level 200, right associativity)
  : handler_scope.
Notation "m ;; k" := (bind m (fun _ => k))
  (at level 100, k at level 200, right associativity) : handler_scope.

Local Open Scope handler_scope.

Definition get_context : M Context.t :=
  fun w => (Return (World.context w), w).

Definition modify_db (f : Database.t -> Database.t) : M unit :=
  fun w =>
    (Return tt,
     World.set_context
       (Context.set_db (f (World.db w)) (World.context w)) w).

Definition emit (level : LogLevel) (msg : string) : M unit :=
  fun w =>
    (Return tt,
     World.mk (World.context w) (World.log w ++ [(level, msg)])
       (World.submitted w)).

Definition log_info := emit INFO.
Definition log_warning := emit WARNING.
Definition log_error := emit ERROR.

Definition db_get_channel (tn : Address) (cid : Z) : M (option Channel.t) :=
  fun w => (Return (Database.get_channel tn cid (World.db w)), w).

Definition db_get_monitor_request (tn : Address) (cid : Z) (ncs : Address)
    : M (option MonitorRequest.t) :=
  fun w => (Return (Database.get_monitor_request tn cid ncs (World.db w)), w).

Definition db_upsert_channel (c : Channel.t) : M unit :=
  modify_db (Database.upsert_channel c).

Definition db_upsert_scheduled_event (se : ScheduledEvent.t) : M unit :=
  modify_db (Database.upsert_scheduled_event se).

Definition db_add_waiting_transaction (h : string) : M unit :=
  modify_db (Database.add_waiting_transaction h).

(** A read-only contract call: the answer, or an exception. *)
Definition call {A} (answer : option A) : M A :=
  match answer with
  | Some a => ret a
  | None => raise RpcError
  end.

(** [transact]: the transaction is handed to the chain, then the hash comes
    back or the call raises. *)
Definition transact (tx : Transaction) (answer : option TxHash) : M TxHash :=
  fun w =>
    let w' := World.mk (World.context w) (World.log w)
                (World.submitted w ++ [tx]) in
    match answer with
    | Some h => (Return h, w')
    | None => (Raise RpcError, w')
    end.

(** ** Library functions the handlers use *)

Definition hex_digit (n : N) : Ascii.ascii :=
  match n with
  | 0 => "0" | 1 => "1" | 2 => "2" | 3 => "3" | 4 => "4" | 5 => "5"
  | 6 => "6" | 7 => "7" | 8 => "8" | 9 => "9" | 10 => "a" | 11 => "b"
  | 12 => "c" | 13 => "d" | 14 => "e" | _ => "f"
  end%N%char.

Fixpoint hex_of_bytes (s : string) : string :=
  match s with
  | EmptyString => EmptyString
  | String c rest =>
      String (hex_digit (N.div (Ascii.N_of_ascii c) 16))
        (String (hex_digit (N.modulo (Ascii.N_of_ascii c) 16))
           (hex_of_bytes rest))
  end.

(** [eth_utils.encode_hex] on bytes. *)
Definition encode_hex (b : TxHash) : string :=
  String.append "0x" (hex_of_bytes b).

(** Python floats are IEEE 754 binary64. *)
Definition prec : Z := 53.
Definition emax : Z := 1024.

(** [float(n)] for an [int]: correctly rounded, [OverflowError] when the
    result is not finite. *)
Definition float_of_int (n : Z) : exn + spec_float :=
  match binary_normalize prec emax n 0 false with
  | S754_infinity _ => inl OverflowError
  | f => inr f
  end.

Definition round_half_even (m : Z) (e : Z) : Z :=
  if 0 <=? e then m * 2 ^ e
  else
    let d := 2 ^ (- e) in
    let q := m / d in
    match (2 * (m mod d)) ?= d with
    | Lt => q
    | Gt => q + 1
    | Eq => if Z.even q then q else q + 1
    end.

(** [round(x)] for a [float], one argument: the nearest [int], ties to even. *)
Definition py_round (x : spec_float) : exn + Z :=
  match x with
  | S754_zero _ => inr 0
  | S754_infinity _ => inl OverflowError
  | S754_nan => inl ValueError
  | S754_finite s m e =>
      let v := round_half_even (Zpos m) e in
      inr (if s then - v else v)
  end.

(** Modelled from the spec: [monitoring_service.constants], with
    [RATIO_OF_SETTLE_TIMEOUT_BEFORE_MONITOR = 0.8] (the binary64 nearest to
    8/10) and [DEFAULT_PAYMENT_RISK_FAKTOR = 2]. *)
Definition RATIO_OF_SETTLE_TIMEOUT_BEFORE_MONITOR : spec_float :=
  S754_finite false 7205759403792794 (-53).

Definition DEFAULT_PAYMENT_RISK_FAKTOR : Z := 2.

(** [round(n * ratio)] for an [int] [n] and a [float] [ratio]. *)
Definition round_int_times_float (n : Z) (ratio : spec_float) : exn + Z :=
  match float_of_int n with
  | inl e => inl e
  | inr f => py_round (SFmul prec emax f ratio)
  end.

Definition lift {A} (r : exn + A) : M A :=
  match r with
  | inl e => raise e
  | inr a => ret a
  end.

(** ** The handlers *)

Definition channel_opened_event_handler (chain : Chain.t) (event : Event)
    : M unit :=
  match event with
  | ReceiveChannelOpenedEvent tn cid p1 p2 settle_timeout _ =>
      log_info "Received new channel" ;;
      db_upsert_channel (Channel.new tn cid p1 p2 settle_timeout)
  | _ => raise AssertionError
  end.

Definition channel_closed_event_handler (chain : Chain.t) (event : Event)
    : M unit :=
  match event with
  | ReceiveChannelClosedEvent tn cid closing_participant block_number =>
      channel <- db_get_channel tn cid ;;
      match channel with
      | None => log_error "Channel not in database"
      | Some channel =>
          context <- get_context ;;
          (* check if the settle timeout is already over *)
          let settle_period_end_block :=
            block_number + Channel.settle_timeout channel in
          let settle_period_over :=
            settle_period_end_block <? Context.last_known_block context in
          (if negb settle_period_over then
             let non_closing_participant :=
               if bool_decide (Channel.participant1 channel
                               = closing_participant)
               then Channel.participant2 channel
               else Channel.participant1 channel in
             client_update_period <-
               lift (round_int_times_float (Channel.settle_timeout channel)
                       RATIO_OF_SETTLE_TIMEOUT_BEFORE_MONITOR) ;;
             let trigger_block := block_number + client_update_period in
             let triggered_event :=
               ActionMonitoringTriggeredEvent
                 (Channel.token_network_address channel)
                 (Channel.identifier channel)
                 non_closing_participant in
             log_info "Channel closed, triggering monitoring check" ;;
             db_upsert_scheduled_event
               (ScheduledEvent.mk trigger_block triggered_event)
           else
             log_warning "Settle period timeout is in the past, skipping") ;;
          let channel := Channel.set_state CLOSED channel in
          let channel :=
            Channel.set_closing_block (Some block_number) channel in
          let channel :=
            Channel.set_closing_participant (Some closing_participant)
              channel in
          db_upsert_channel channel
      end
  | _ => raise AssertionError
  end.

Definition non_closing_balance_proof_updated_event_handler
    (chain : Chain.t) (event : Event) : M unit :=
  match event with
  | ReceiveNonClosingBalanceProofUpdatedEvent tn cid closing_participant
      nonce _ =>
      channel <- db_get_channel tn cid ;;
      match channel with
      | None => log_error "Channel not in database"
      | Some channel =>
          log_info "Received update event for channel" ;;
          let update (non_closing_participant : Address) : M unit :=
            (* check for known update calls and update accordingly *)
            match Channel.update_status channel with
            | None =>
                log_info "Creating channel update state" ;;
                let channel :=
                  Channel.set_update_status
                    (Some (OnChainUpdateStatus.mk non_closing_participant
                             nonce))
                    channel in
                db_upsert_channel channel
            | Some update_status =>
                (* nonce not bigger, should never happen as it is checked
                   in the contract *)
                if nonce <=? OnChainUpdateStatus.nonce update_status then
                  log_error
                    "updateNonClosingBalanceProof nonce smaller than the known one, ignoring."
                else
                  log_info "Updating channel update state" ;;
                  (* update channel status *)
                  let channel :=
                    Channel.set_update_status
                      (Some (OnChainUpdateStatus.mk non_closing_participant
                               nonce))
                      channel in
                  db_upsert_channel channel
            end in
          if bool_decide (closing_participant = Channel.participant1 channel)
          then update (Channel.participant2 channel)
          else if bool_decide (closing_participant
                               = Channel.participant2 channel)
          then update (Channel.participant1 channel)
          else log_error "Update event contains invalid closing participant"
      end
  | _ => raise AssertionError
  end.

Definition channel_settled_event_handler (chain : Chain.t) (event : Event)
    : M unit :=
  match event with
  | ReceiveChannelSettledEvent tn cid _ =>
      channel <- db_get_channel tn cid ;;
      match channel with
      | None => log_error "Channel not in database"
      | Some channel =>
          log_info "Received settle event for channel" ;;
          let channel := Channel.set_state SETTLED channel in
          db_upsert_channel channel
      end
  | _ => raise AssertionError
  end.

(** The tail of [monitor_new_balance_proof_event_handler]: schedule the call
    of [claimReward] when the update was ours. *)
Definition schedule_claim_reward (channel : Channel.t)
    (ms_address raiden_node_address : Address) : M unit :=
  context <- get_context ;;
  if bool_decide (ms_address
                  = MonitoringServiceState.address (Context.ms_state context))
  then
    match Channel.closing_block channel with
    | None => raise AssertionError (* closing_block not set *)
    | Some closing_block =>
        let trigger_block :=
          closing_block + Channel.settle_timeout channel + 5 in
        (* trigger the claim reward action by an event *)
        let e :=
          ActionClaimRewardTriggeredEvent
            (Channel.token_network_address channel)
            (Channel.identifier channel)
            raiden_node_address in
        db_upsert_scheduled_event (ScheduledEvent.mk trigger_block e)
    end
  else ret tt.

Definition monitor_new_balance_proof_event_handler (chain : Chain.t)
    (event : Event) : M unit :=
  match event with
  | ReceiveMonitoringNewBalanceProofEvent tn cid _ nonce ms_address
      raiden_node_address _ =>
      channel <- db_get_channel tn cid ;;
      match channel with
      | None => log_error "Channel not in database"
      | Some channel =>
          log_info "Received MSC NewBalanceProof event" ;;
          (* check for known monitor calls and update accordingly *)
          match Channel.update_status channel with
          | None =>
              log_info "Creating channel update state" ;;
              let channel :=
                Channel.set_update_status
                  (Some (OnChainUpdateStatus.mk ms_address nonce)) channel in
              db_upsert_channel channel ;;
              schedule_claim_reward channel ms_address raiden_node_address
          | Some update_status =>
              (* nonce not bigger, should never happen as it is checked in
                 the contract *)
              if nonce <? OnChainUpdateStatus.nonce update_status then
                log_error
                  "MSC NewBalanceProof nonce smaller than the known one, ignoring."
              else
                log_info "Updating channel update state" ;;
                (* update channel status *)
                let channel :=
                  Channel.set_update_status
                    (Some (OnChainUpdateStatus.mk ms_address nonce))
                    channel in
                db_upsert_channel channel ;;
                schedule_claim_reward channel ms_address raiden_node_address
          end
      end
  | _ => raise AssertionError
  end.

Definition monitor_reward_claim_event_handler (chain : Chain.t)
    (event : Event) : M unit :=
  match event with
  | ReceiveMonitoringRewardClaimedEvent _ _ _ _ =>
      log_info "Received MSC RewardClaimed event"
  | _ => raise AssertionError
  end.

(** Triggers commit of the new block number. *)
Definition updated_head_block_event_handler (chain : Chain.t)
    (event : Event) : M unit :=
  match event with
  | UpdatedHeadBlockEvent head_block_number =>
      fun w =>
        let context := World.context w in
        let ms_state := Context.ms_state context in
        let ms_state :=
          MonitoringServiceState.set_blockchain_state
            (BlockchainState.set_latest_known_block head_block_number
               (MonitoringServiceState.blockchain_state ms_state))
            ms_state in
        let context := Context.set_ms_state ms_state context in
        let context :=
          Context.set_db
            (Database.update_state ms_state (Context.db context)) context in
        (Return tt, World.set_context context w)
  | _ => raise AssertionError
  end.

Definition _is_mr_valid (monitor_request : MonitorRequest.t)
    (channel : Channel.t) : M bool :=
  if negb (bool_decide (MonitorRequest.signer monitor_request
                        ∈ Channel.participants channel))
     || negb (bool_decide (MonitorRequest.non_closing_signer monitor_request
                           ∈ Channel.participants channel))
  then
    log_info "MR signed by unknown party" ;;
    ret false
  else if bool_decide (MonitorRequest.signer monitor_request
                       = MonitorRequest.non_closing_signer monitor_request)
  then
    log_info "MR signed by closing party" ;;
    ret false
  else ret true.

Definition action_monitoring_triggered_event_handler (chain : Chain.t)
    (event : Event) : M unit :=
  match event with
  | ActionMonitoringTriggeredEvent tn cid non_closing_participant =>
      log_info "Triggering channel monitoring" ;;
      monitor_request <- db_get_monitor_request tn cid
                           non_closing_participant ;;
      match monitor_request with
      | None => ret tt
      | Some monitor_request =>
      channel <- db_get_channel
                   (MonitorRequest.token_network_address monitor_request)
                   (MonitorRequest.channel_identifier monitor_request) ;;
      match channel with
      | None => ret tt
      | Some channel =>
      valid <- _is_mr_valid monitor_request channel ;;
      if negb valid then ret tt else
      let last_onchain_nonce :=
        match Channel.update_status channel with
        | Some update_status => OnChainUpdateStatus.nonce update_status
        | None => 0
        end in
      let user_address := MonitorRequest.non_closing_signer monitor_request in
      user_deposit <- call (Chain.effectiveBalance chain user_address) ;;
      context <- get_context ;;
      (if MonitorRequest.reward_amount monitor_request
          <? Context.min_reward context
       then
         log_info
           "Monitor request not executed due to insufficient reward amount"
       else ret tt) ;;
      let call_monitor :=
        bool_decide (Channel.closing_tx_hash channel = None)
        && (last_onchain_nonce <? MonitorRequest.nonce monitor_request)
        && (MonitorRequest.reward_amount monitor_request
            * DEFAULT_PAYMENT_RISK_FAKTOR <=? user_deposit)
        && (Context.min_reward context
            <=? MonitorRequest.reward_amount monitor_request) in
      if call_monitor then
        let sender :=
          MonitoringServiceState.address (Context.ms_state context) in
        try_except
          (tx_hash <- transact (MonitorTx monitor_request sender)
                        (Chain.monitor chain monitor_request sender) ;;
           log_info "Sent transaction calling `monitor` for channel" ;;
           (* Add tx hash to list of waiting transactions *)
           db_add_waiting_transaction (encode_hex tx_hash) ;;
           let channel :=
             Channel.set_closing_tx_hash (Some tx_hash) channel in
           db_upsert_channel channel)
          (fun e => log_error "Sending tx failed")
      else ret tt
      end
      end
  | _ => raise AssertionError
  end.

Definition action_claim_reward_triggered_event_handler (chain : Chain.t)
    (event : Event) : M unit :=
  match event with
  | ActionClaimRewardTriggeredEvent tn cid non_closing_participant =>
      log_info "Triggering reward claim" ;;
      monitor_request <- db_get_monitor_request tn cid
                           non_closing_participant ;;
      match monitor_request with
      | None => ret tt
      | Some monitor_request =>
      channel <- db_get_channel
                   (MonitorRequest.token_network_address monitor_request)
                   (MonitorRequest.channel_identifier monitor_request) ;;
      match channel with
      | None => ret tt
      | Some channel =>
      context <- get_context ;;
      let our_address :=
        MonitoringServiceState.address (Context.ms_state context) in
      (* check that the latest update was ours and that we didn't send a
         transaction yet *)
      let can_claim :=
        bool_decide (Channel.claim_tx_hash channel = None)
        && match Channel.update_status channel with
           | None => false
           | Some update_status =>
               bool_decide
                 (OnChainUpdateStatus.update_sender_address update_status
                  = our_address)
           end in
      log_info "Checking if eligible for reward" ;;
      (* check if claiming will produce a reward *)
      let has_reward := 0 <? MonitorRequest.reward_amount monitor_request in
      (if negb has_reward then
         log_warning "MonitorRequest has no reward. Skipping reward claim."
       else ret tt) ;;
      if can_claim && has_reward then
        try_except
          (tx_hash <- transact
                        (ClaimRewardTx
                           (MonitorRequest.channel_identifier monitor_request)
                           (MonitorRequest.token_network_address
                              monitor_request)
                           (MonitorRequest.signer monitor_request)
                           (MonitorRequest.non_closing_signer monitor_request)
                           our_address)
                        (Chain.claimReward chain
                           (MonitorRequest.channel_identifier monitor_request)
                           (MonitorRequest.token_network_address
                              monitor_request)
                           (MonitorRequest.signer monitor_request)
                           (MonitorRequest.non_closing_signer monitor_request)
                           our_address) ;;
           log_info "Sent transaction calling `claimReward` for channel" ;;
           (* Add tx hash to list of waiting transactions *)
           db_add_waiting_transaction (encode_hex tx_hash) ;;
           let channel :=
             Channel.set_claim_tx_hash (Some tx_hash) channel in
           db_upsert_channel channel)
          (fun e => log_error "Sending tx failed")
      else ret tt
      end
      end
  | _ => raise AssertionError
  end.

(** The table [HANDLERS]: the handler of an event is picked by its class. *)
Definition HANDLERS (event : Event) : Chain.t -> Event -> M unit :=
  match event with
  | ReceiveChannelOpenedEvent _ _ _ _ _ _ => channel_opened_event_handler
  | ReceiveChannelClosedEvent _ _ _ _ => channel_closed_event_handler
  | ReceiveNonClosingBalanceProofUpdatedEvent _ _ _ _ _ =>
      non_closing_balance_proof_updated_event_handler
  | ReceiveChannelSettledEvent _ _ _ => channel_settled_event_handler
  | ReceiveMonitoringNewBalanceProofEvent _ _ _ _ _ _ _ =>
      monitor_new_balance_proof_event_handler
  | ReceiveMonitoringRewardClaimedEvent _ _ _ _ =>
      monitor_reward_claim_event_handler
  | UpdatedHeadBlockEvent _ => updated_head_block_event_handler
  | ActionMonitoringTriggeredEvent _ _ _ =>
      action_monitoring_triggered_event_handler
  | ActionClaimRewardTriggeredEvent _ _ _ =>
      action_claim_reward_triggered_event_handler
  end.

(** Handling one event: look the handler up and call it. *)
Definition handle_event (chain : Chain.t) (event : Event) : M unit :=
  HANDLERS event chain event.

(** Handling a sequence of events, each with the answers the chain gives
    while it is handled. The event loop is not part of [handlers.py]; here a
    handler that raises keeps what it had written so far and the next event
    is handled all the same, which covers every state the loop can see. *)
Fixpoint process_events (events : list (Chain.t * Event)) (w : World.t)
    : World.t :=
  match events with
  | [] => w
  | (chain, event) :: rest =>
      process_events rest (snd (handle_event chain event w))
  end.

(** ** Reasoning about handler runs *)

Arguments Database.get_channel : simpl never.
Arguments Database.get_monitor_request : simpl never.
Arguments Database.upsert_channel : simpl never.
Arguments Database.upsert_scheduled_event : simpl never.
Arguments round_int_times_float : simpl never.
Arguments encode_hex : simpl never.

(** The world a handler leaves behind, and how it ended. *)
Definition final {A} (m : M A) (w : World.t) : World.t := snd (m w).
Definition outcome {A} (m : M A) (w : World.t) : result A := fst (m w).

Ltac unfold_monad :=
  unfold final, outcome, bind, ret, raise, try_except, lift, call, transact,
    get_context, db_get_channel, db_get_monitor_request, db_upsert_channel,
    db_upsert_scheduled_event, db_add_waiting_transaction, modify_db,
    log_info, log_warning, log_error, emit, World.db, World.set_context,
    Context.set_db, Context.set_ms_state in *.

(** ** The MONITOR gate, in the words of the specification *)

Definition last_onchain_nonce (channel : Channel.t) : Z :=
  match Channel.update_status channel with
  | Some update_status => OnChainUpdateStatus.nonce update_status
  | None => 0
  end.

Definition mr_valid_for_pair (mr : MonitorRequest.t) (channel : Channel.t)
    : Prop :=
  MonitorRequest.signer mr ∈ Channel.participants channel
  ∧ MonitorRequest.non_closing_signer mr ∈ Channel.participants channel
  ∧ MonitorRequest.signer mr ≠ MonitorRequest.non_closing_signer mr.

Definition monitor_gate (mr : MonitorRequest.t) (channel : Channel.t)
    (user_deposit min_reward : Z) : Prop :=
  Channel.closing_tx_hash channel = None
  ∧ MonitorRequest.nonce mr > last_onchain_nonce channel
  ∧ user_deposit >= MonitorRequest.reward_amount mr * 2
  ∧ MonitorRequest.reward_amount mr >= min_reward.


(** ** The CLAIM_REWARD eligibility *)

(** The latest update of the channel was made by the service itself. *)
Definition latest_update_is_ours (channel : Channel.t) (our_address : Address)
    : Prop :=
  OnChainUpdateStatus.update_sender_address <$> Channel.update_status channel
  = Some our_address.

#[global] Instance latest_update_is_ours_dec channel our_address :
  Decision (latest_update_is_ours channel our_address).
Proof. unfold latest_update_is_ours. apply _. Defined.

(** The eligibility the handler checks. *)
Definition claim_gate (mr : MonitorRequest.t) (channel : Channel.t)
    (our_address : Address) : Prop :=
  Channel.claim_tx_hash channel = None
  ∧ latest_update_is_ours channel our_address
  ∧ MonitorRequest.reward_amount mr > 0.

#[global] Instance claim_gate_dec mr channel our_address :
  Decision (claim_gate mr channel our_address).
Proof. unfold claim_gate. apply _. Defined.

(** C6 as the specification states it (P6): a CLAIM_REWARD action that fires
    hands [claimReward] to the chain if and only if the latest update of its
    channel was made by the service itself. *)
Definition executes_iff_latest_update_is_ours (chain : Chain.t)
    (tn : Address) (cid : Z) (ncp : Address) (w : World.t) : Prop :=
  World.submitted
    (final (action_claim_reward_triggered_event_handler chain
              (ActionClaimRewardTriggeredEvent tn cid ncp)) w)
  ≠ World.submitted w
  ↔ ∃ channel,
      Database.get_channel tn cid (World.db w) = Some channel
      ∧ latest_update_is_ours channel
          (MonitoringServiceState.address
             (Context.ms_state (World.context w))).

(** ** Worked scenarios *)

(** The happy path of the specification: participants A and B, settle
    timeout 20, B's monitor request with nonce 5 and reward 10, a deposit of
    30, [min_reward] 1; A closes at block 150. *)
Module Scenario.
Definition blockchain : BlockchainState.t :=
  BlockchainState.mk 1 "registry" "monitor" 100 100.

Definition ms_state : MonitoringServiceState.t :=
  MonitoringServiceState.mk blockchain "MS".

Definition channel : Channel.t := Channel.new "TN" 1 "A" "B" 20.

Definition closed_channel : Channel.t :=
  Channel.mk "TN" 1 "A" "B" 20 CLOSED (Some 150) (Some "A") None None None.

Definition request (reward : Z) : MonitorRequest.t :=
  MonitorRequest.mk 1 "TN" "balance" 5 "additional" "sigA" "sigB" reward
    "sigR" "A" "B".

Definition chain (deposit : Z) : Chain.t :=
  Chain.mk (fun _ => Some deposit) (fun _ _ => Some "h1")
    (fun _ _ _ _ _ => Some "h2").

Definition failing_chain : Chain.t :=
  Chain.mk (fun _ => Some 30) (fun _ _ => None) (fun _ _ _ _ _ => None).

Definition world_with (c : Channel.t) (requests : list MonitorRequest.t)
    : World.t :=
  World.mk
    (Context.mk ms_state
       (Database.mk {[ ("TN", 1) := c ]} requests [] [] blockchain)
       100 1)
    [] [].

(** The service before any event, holding the given monitor requests. *)
Definition start (requests : list MonitorRequest.t) : World.t :=
  World.mk
    (Context.mk ms_state (Database.mk ∅ requests [] [] blockchain) 100 1)
    [] [].

Definition initial : World.t := start [].

(** The events of the happy path, scheduled actions included. *)
Definition happy_path : list (Chain.t * Event) :=
  [ (chain 30, ReceiveChannelOpenedEvent "TN" 1 "A" "B" 20 100);
    (chain 30, ReceiveChannelClosedEvent "TN" 1 "A" 150);
    (chain 30, UpdatedHeadBlockEvent 166);
    (chain 30, ActionMonitoringTriggeredEvent "TN" 1 "B");
    (chain 30, ReceiveMonitoringNewBalanceProofEvent "TN" 1 10 5 "MS" "B" 167);
    (chain 30, UpdatedHeadBlockEvent 167);
    (chain 30, ReceiveChannelSettledEvent "TN" 1 171);
    (chain 30, UpdatedHeadBlockEvent 175);
    (chain 30, ActionClaimRewardTriggeredEvent "TN" 1 "B") ].

(** The channel after our own update with nonce 5 was seen on chain. *)
Definition monitored_channel : Channel.t :=
  Channel.set_update_status (Some (OnChainUpdateStatus.mk "MS" 5))
    closed_channel.
End Scenario.

(** ** What a handler may do to a stored channel *)

Definition channel_key (c : Channel.t) : Address * Z :=
  (Channel.token_network_address c, Channel.identifier c).

(** Every channel is stored under its own identity. This is how
    [upsert_channel] files channels, so it holds of every database the
    handlers have built. *)
Definition db_wf (d : Database.t) : Prop :=
  ∀ k c, Database.channels d !! k = Some c → channel_key c = k.

(** The channel a handler stores on an event, given what was stored under
    the same identity before. *)
Inductive channel_step : Event -> option Channel.t -> Channel.t -> Prop :=
| step_opened old tn cid p1 p2 settle_timeout block_number :
    channel_step
      (ReceiveChannelOpenedEvent tn cid p1 p2 settle_timeout block_number)
      old (Channel.new tn cid p1 p2 settle_timeout)
| step_closed c tn cid closing_participant block_number :
    channel_key c = (tn, cid) →
    channel_step
      (ReceiveChannelClosedEvent tn cid closing_participant block_number)
      (Some c)
      (Channel.set_closing_participant (Some closing_participant)
         (Channel.set_closing_block (Some block_number)
            (Channel.set_state CLOSED c)))
| step_non_closing_update c tn cid closing_participant nonce block_number
    sender :
    channel_key c = (tn, cid) →
    (∀ status, Channel.update_status c = Some status →
               OnChainUpdateStatus.nonce status < nonce) →
    channel_step
      (ReceiveNonClosingBalanceProofUpdatedEvent tn cid closing_participant
         nonce block_number)
      (Some c)
      (Channel.set_update_status
         (Some (OnChainUpdateStatus.mk sender nonce)) c)
| step_settled c tn cid block_number :
    channel_key c = (tn, cid) →
    channel_step (ReceiveChannelSettledEvent tn cid block_number)
      (Some c) (Channel.set_state SETTLED c)
| step_monitor_update c tn cid reward_amount nonce ms_address
    raiden_node_address block_number :
    channel_key c = (tn, cid) →
    (∀ status, Channel.update_status c = Some status →
               OnChainUpdateStatus.nonce status <= nonce) →
    channel_step
      (ReceiveMonitoringNewBalanceProofEvent tn cid reward_amount nonce
         ms_address raiden_node_address block_number)
      (Some c)
      (Channel.set_update_status
         (Some (OnChainUpdateStatus.mk ms_address nonce)) c)
| step_monitor_sent c tn cid non_closing_participant tx_hash :
    channel_step
      (ActionMonitoringTriggeredEvent tn cid non_closing_participant)
      (Some c) (Channel.set_closing_tx_hash (Some tx_hash) c)
| step_claim_sent c tn cid non_closing_participant tx_hash :
    channel_step
      (ActionClaimRewardTriggeredEvent tn cid non_closing_participant)
      (Some c) (Channel.set_claim_tx_hash (Some tx_hash) c).

(** A property of the event and of the world in which it is handled, for
    each event of a sequence in turn. *)
Fixpoint each_event (P : Event -> World.t -> Prop)
    (events : list (Chain.t * Event)) (w : World.t) : Prop :=
  match events with
  | [] => True
  | (chain, event) :: rest =>
      P event w ∧ each_event P rest (final (handle_event chain event) w)
  end.

(** A property of every stored channel. *)
Definition all_channels (P : Channel.t -> Prop) (w : World.t) : Prop :=
  ∀ k c, Database.channels (World.db w) !! k = Some c → P c.

(** ** The invariants of the specification, as it states them *)

(** The nonce stored for the channel with identity [k], if any. *)
Definition stored_nonce (k : Address * Z) (w : World.t) : option Z :=
  match Database.channels (World.db w) !! k with
  | Some c => OnChainUpdateStatus.nonce <$> Channel.update_status c
  | None => None
  end.

(** A stored nonce stays, or is replaced by one at least as large. *)
Definition nonce_le (old new : option Z) : Prop :=
  match old, new with
  | Some n, Some n' => n <= n'
  | Some _, None => False
  | None, _ => True
  end.

(** C3 as the specification states it (I1, P1): along the processing of a
    sequence of events, the nonce stored for a channel never decreases. *)
Definition nonce_never_decreases (events : list (Chain.t * Event))
    (w : World.t) : Prop :=
  ∀ pre post k,
    events = pre ++ post →
    nonce_le (stored_nonce k (process_events pre w))
      (stored_nonce k (process_events events w)).

(** A ChannelOpened event that names a channel not stored yet. *)
Definition opens_new_channel (event : Event) (w : World.t) : Prop :=
  match event with
  | ReceiveChannelOpenedEvent tn cid _ _ _ _ =>
      Database.get_channel tn cid (World.db w) = None
  | _ => True
  end.

(** C8 as the specification states it (I2). *)
Definition closing_block_iff_closed (c : Channel.t) : Prop :=
  is_Some (Channel.closing_block c)
  ↔ Channel.state c = CLOSED ∨ Channel.state c = SETTLED.

(** The part of I2 that every handler keeps. *)
Definition closing_block_consistent (c : Channel.t) : Prop :=
  (is_Some (Channel.closing_block c) →
   Channel.state c = CLOSED ∨ Channel.state c = SETTLED)
  ∧ (Channel.state c = CLOSED → is_Some (Channel.closing_block c)).

(** A ChannelSettled event for a channel whose closing was recorded. *)
Definition settles_closed_channel (event : Event) (w : World.t) : Prop :=
  match event with
  | ReceiveChannelSettledEvent tn cid _ =>
      ∀ c, Database.get_channel tn cid (World.db w) = Some c →
           is_Some (Channel.closing_block c)
  | _ => True
  end.

(** The persisted [latest_known_block]. *)
Definition persisted_latest_known_block (w : World.t) : Z :=
  BlockchainState.latest_known_block (Database.blockchain (World.db w)).

(** C9 as the specification states it (I5): along the processing of a
    sequence of events the persisted [latest_known_block] never decreases. *)
Definition latest_known_block_never_regresses
    (events : list (Chain.t * Event)) (w : World.t) : Prop :=
  ∀ pre post,
    events = pre ++ post →
    persisted_latest_known_block (process_events pre w)
    <= persisted_latest_known_block (process_events events w).

(** An UpdatedHeadBlock event whose number is not below the persisted one. *)
Definition head_not_behind (event : Event) (w : World.t) : Prop :=
  match event with
  | UpdatedHeadBlockEvent head_block_number =>
      persisted_latest_known_block w <= head_block_number
  | _ => True
  end.

(** A channel is opened, updated with nonce 5, opened again by a second
    ChannelOpened event of the same identity, and updated with nonce 3. *)
Definition reopening_events : list (Chain.t * Event) :=
  [ (Scenario.chain 30, ReceiveChannelOpenedEvent "TN" 1 "A" "B" 20 100);
    (Scenario.chain 30,
     ReceiveNonClosingBalanceProofUpdatedEvent "TN" 1 "A" 5 151);
    (Scenario.chain 30, ReceiveChannelOpenedEvent "TN" 1 "A" "B" 20 100);
    (Scenario.chain 30,
     ReceiveNonClosingBalanceProofUpdatedEvent "TN" 1 "A" 3 151) ].

(** A channel is opened and then settled without having been closed. *)
Definition settling_unclosed_events : list (Chain.t * Event) :=
  [ (Scenario.chain 30, ReceiveChannelOpenedEvent "TN" 1 "A" "B" 20 100);
    (Scenario.chain 30, ReceiveChannelSettledEvent "TN" 1 171) ].

(** The head block is reported as 150 and then as 120. *)
Definition regressing_events : list (Chain.t * Event) :=
  [ (Scenario.chain 30, UpdatedHeadBlockEvent 150);
    (Scenario.chain 30, UpdatedHeadBlockEvent 120) ].

(** ** Events that do not fit the stored state *)

(** C10 as stated, first half: a MonitorNewBalanceProof event that names the
    service itself, for a stored channel without closing block, fails the
    assertion. *)
Definition asserts_without_closing_block (chain : Chain.t) (tn : Address)
    (cid : Z) (reward_amount nonce : Z) (raiden_node_address : Address)
    (block_number : Z) (w : World.t) : Prop :=
  ∀ channel,
    Database.get_channel tn cid (World.db w) = Some channel →
    Channel.closing_block channel = None →
    outcome
      (monitor_new_balance_proof_event_handler chain
         (ReceiveMonitoringNewBalanceProofEvent tn cid reward_amount nonce
            (MonitoringServiceState.address
               (Context.ms_state (World.context w)))
            raiden_node_address block_number)) w
    = Raise AssertionError.

(** A chain event that the handlers drop: its channel is not stored, or it
    is an update with a closing participant outside the pair or with a stale
    nonce. *)
Definition dropped (event : Event) (w : World.t) : Prop :=
  match event with
  | ReceiveChannelClosedEvent tn cid _ _
  | ReceiveChannelSettledEvent tn cid _ =>
      Database.get_channel tn cid (World.db w) = None
  | ReceiveNonClosingBalanceProofUpdatedEvent tn cid closing_participant
      nonce _ =>
      match Database.get_channel tn cid (World.db w) with
      | None => True
      | Some channel =>
          closing_participant ∉ Channel.participants channel
          ∨ ∃ status, Channel.update_status channel = Some status
                      ∧ nonce <= OnChainUpdateStatus.nonce status
      end
  | ReceiveMonitoringNewBalanceProofEvent tn cid _ nonce _ _ _ =>
      match Database.get_channel tn cid (World.db w) with
      | None => True
      | Some channel =>
          ∃ status, Channel.update_status channel = Some status
                    ∧ nonce < OnChainUpdateStatus.nonce status
      end
  | _ => False
  end.

(** A scheduled action whose monitor request or channel is not stored. *)
Definition action_without_target (event : Event) (w : World.t) : Prop :=
  match event with
  | ActionMonitoringTriggeredEvent tn cid ncp
  | ActionClaimRewardTriggeredEvent tn cid ncp =>
      match Database.get_monitor_request tn cid ncp (World.db w) with
      | None => True
      | Some mr =>
          Database.get_channel (MonitorRequest.token_network_address mr)
            (MonitorRequest.channel_identifier mr) (World.db w) = None
      end
  | _ => False
  end.

(** A channel opened and never closed, with an on-chain update of nonce 8 by
    participant B. *)
Definition updated_open_channel : Channel.t :=
  Channel.set_update_status (Some (OnChainUpdateStatus.mk "B" 8))
    Scenario.channel.

(** ** Finite floats *)

(** A float that is neither infinite nor NaN. *)
Definition sf_is_finite (x : spec_float) : Prop :=
  match x with
  | S754_zero _ | S754_finite _ _ _ => True
  | _ => False
  end.

(** The exponent of a finite float, and the exponent of its leading bit. *)
Definition sf_exp (x : spec_float) : Z :=
  match x with
  | S754_finite _ m e => e
  | _ => -1074
  end.

Definition sf_digits_exp (x : spec_float) : Z :=
  match x with
  | S754_finite _ m e => Zdigits2 (Zpos m) + e
  | _ => -1074
  end.

(** The nearest integer to [4 n / 5], for [n >= 0]. *)
Definition nearest_to_four_fifths (n : Z) : Z := (4 * n + 2) / 5.

(** [round(n * 0.8)] is that integer, for [count] settle timeouts from [n]
    on. *)
Fixpoint rounds_to_nearest (count : nat) (n : Z) : bool :=
  match count with
  | O => true
  | S count' =>
      match round_int_times_float n RATIO_OF_SETTLE_TIMEOUT_BEFORE_MONITOR with
      | inr period => period =? nearest_to_four_fifths n
      | inl _ => false
      end
      && rounds_to_nearest count' (n + 1)
  end.

(** ** Scheduled actions among the events *)

(** The two event classes the scheduler fires. *)
Definition is_action (event : Event) : Prop :=
  match event with
  | ActionMonitoringTriggeredEvent _ _ _
  | ActionClaimRewardTriggeredEvent _ _ _ => True
  | _ => False
  end.

(** ** When a handler raises *)

(** The three ways in which handling an event ends in an exception: the
    rounding of the settle timeout overflows in the ChannelClosed handler,
    the assertion on the closing block fails in the MonitorNewBalanceProof
    handler, and the balance query raises in the MONITOR action. *)
Definition raises (chain : Chain.t) (event : Event) (w : World.t) (e : exn)
    : Prop :=
  match event with
  | ReceiveChannelClosedEvent tn cid _ block_number =>
      ∃ channel,
        Database.get_channel tn cid (World.db w) = Some channel
        ∧ ¬ block_number + Channel.settle_timeout channel
            < Context.last_known_block (World.context w)
        ∧ round_int_times_float (Channel.settle_timeout channel)
            RATIO_OF_SETTLE_TIMEOUT_BEFORE_MONITOR = inl e
  | ReceiveMonitoringNewBalanceProofEvent tn cid _ nonce ms_address _ _ =>
      e = AssertionError
      ∧ ms_address
        = MonitoringServiceState.address (Context.ms_state (World.context w))
      ∧ ∃ channel,
          Database.get_channel tn cid (World.db w) = Some channel
          ∧ Channel.closing_block channel = None
          ∧ ∀ status, Channel.update_status channel = Some status →
                      OnChainUpdateStatus.nonce status <= nonce
  | ActionMonitoringTriggeredEvent tn cid ncp =>
      e = RpcError
      ∧ ∃ mr channel,
          Database.get_monitor_request tn cid ncp (World.db w) = Some mr
          ∧ Database.get_channel (MonitorRequest.token_network_address mr)
              (MonitorRequest.channel_identifier mr) (World.db w)
            = Some channel
          ∧ mr_valid_for_pair mr channel
          ∧ Chain.effectiveBalance chain (MonitorRequest.non_closing_signer mr)
            = None
  | _ => False
  end.

(** ** What stays of a stored channel *)

(** The channel [c'] has the identity, the participants and the settle
    timeout of [c], and the transaction hashes recorded in [c]. *)
Definition channel_kept (c c' : Channel.t) : Prop :=
  channel_key c' = channel_key c
  ∧ Channel.participant1 c' = Channel.participant1 c
  ∧ Channel.participant2 c' = Channel.participant2 c
  ∧ Channel.settle_timeout c' = Channel.settle_timeout c
  ∧ (∀ h, Channel.closing_tx_hash c = Some h →
          Channel.closing_tx_hash c' = Some h)
  ∧ (∀ h, Channel.claim_tx_hash c = Some h →
          Channel.claim_tx_hash c' = Some h).

(** ** The persisted and the in-memory blockchain state *)

(** The database holds the blockchain state the service has in memory. *)
Definition state_persisted (w : World.t) : Prop :=
  Database.blockchain (World.db w)
  = MonitoringServiceState.blockchain_state
      (Context.ms_state (World.context w)).

(** ** Shifting a mantissa right *)

(** The record [mrs] is [m] shifted right by [k] bits: its mantissa is the
    quotient, its round bit says that the bits shifted out are at least
    half of [2 ^ k], its sticky bit that they are neither zero nor exactly
    that half. *)
Definition shifted (m k : Z) (mrs : shr_record) : Prop :=
  shr_m mrs = m / 2 ^ k
  ∧ (shr_r mrs = true ↔ 2 ^ k <= 2 * (m mod 2 ^ k))
  ∧ (shr_s mrs = true ↔ m mod 2 ^ k ≠ 0 ∧ 2 * (m mod 2 ^ k) ≠ 2 ^ k).

(** * The mock Raiden node of the integration tests *)

(** Python compares values of any two types with [==]; an [int] and a [str]
    are never equal. *)
Inductive value := Int (n : Z) | Str (s : string).

Definition py_eq (a b : value) : bool :=
  match a, b with
  | Int m, Int n => bool_decide (m = n)
  | Str s, Str t => bool_decide (s = t)
  | _, _ => false
  end.

(** [a in l] for a list, a tuple or the keys of a dict. *)
Definition py_in (a : value) (l : list value) : bool := existsb (py_eq a) l.

(** The exceptions of the test helpers and of [setup.py]. *)
Module Exception.
Inductive t := AssertionError | KeyError | ValueError.
End Exception.

(** [MockRaidenNode] of [tests/libs/mocks/client.py]: its own address and
    the channel it has with each partner. The two predicates of [eth_utils]
    are parameters; [is_same_address] raises on values that are not
    addresses. What a method hands to [transact] is the result of its
    model. *)
Module MockRaidenNode.
Record t := mk {
  address : Address;
  partner_to_channel_id : gmap Address Z
}.

(** The arguments of a ChannelOpened and of a ChannelClosed log entry that
    the node reads. *)
Record ChannelOpened := mkOpened {
  participant1 : Address;
  participant2 : Address;
  channel_identifier : Z
}.

Record ChannelClosed := mkClosed {
  closed_channel_identifier : Z
}.

(** The arguments of [TokenNetwork.settleChannel] and the sender of the
    transaction. *)
Record SettleChannel := mkSettle {
  settle_channel_identifier : Z;
  settle_participant1 : Address;
  participant1_transferred : Z;
  participant1_locked : Z;
  participant1_locksroot : string;
  settle_participant2 : Address;
  participant2_transferred : Z;
  participant2_locked : Z;
  participant2_locksroot : string;
  sender : Address
}.

Section eth_utils.
Variable is_checksum_address : Address → bool.
Variable is_same_address : Address → Address → Exception.t + bool.

(** The decorator [assert_channel_existence] around a method [func] of the
    node that takes the partner address first. *)
Definition assert_channel_existence {A}
    (func : t → Address → Exception.t + A)
    (self : t) (partner_address : Address) : Exception.t + A :=
  if negb (is_checksum_address partner_address)
  then inl Exception.AssertionError
  else if negb (bool_decide
                  (partner_address ∈ dom (partner_to_channel_id self)))
  then inl Exception.AssertionError
  else func self partner_address.

(** [d[key]] for a dict. *)
Definition getitem (d : gmap Address Z) (key : Address) : Exception.t + Z :=
  match d !! key with
  | Some v => inr v
  | None => inl Exception.KeyError
  end.

Definition get_my_address (self : t) (address1 address2 : Address)
    : Exception.t + Address :=
  match is_same_address (address self) address1 with
  | inl e => inl e
  | inr true => inr address1
  | inr false =>
      match is_same_address (address self) address2 with
      | inl e => inl e
      | inr true => inr address2
      | inr false => inl Exception.AssertionError
      end
  end.

Definition get_other_address (self : t) (address1 address2 : Address)
    : Exception.t + Address :=
  match is_same_address (address self) address1 with
  | inl e => inl e
  | inr true => inr address2
  | inr false =>
      match is_same_address (address self) address2 with
      | inl e => inl e
      | inr true => inr address1
      | inr false => inl Exception.AssertionError
      end
  end.

(** The first dict comprehension of [sync_open_channels]: the entries are
    taken in order, a later entry for the same partner replaces an earlier
    one, and an exception of [get_other_address] ends the loop. *)
Fixpoint open_channels_from (self : t) (entries : list ChannelOpened)
    (open_channels : gmap Address Z) : Exception.t + gmap Address Z :=
  match entries with
  | [] => inr open_channels
  | x :: entries' =>
      if py_in (Str (address self)) [Str (participant1 x); Str (participant2 x)]
      then
        match get_other_address self (participant1 x) (participant2 x) with
        | inl e => inl e
        | inr partner =>
            open_channels_from self entries'
              (<[partner := channel_identifier x]> open_channels)
        end
      else open_channels_from self entries' open_channels
  end.

(** [sync_open_channels], given the ChannelOpened and the ChannelClosed
    entries that [get_event_logs] returns. The keys of [open_channels] are
    addresses, the channel identifiers are [int]s. *)
Definition sync_open_channels (self : t) (opened : list ChannelOpened)
    (closed : list ChannelClosed) : Exception.t + gmap Address Z :=
  match open_channels_from self opened ∅ with
  | inl e => inl e
  | inr open_channels =>
      let keys := Str <$> (map_to_list open_channels).*1 in
      let closed_channels :=
        closed_channel_identifier
        <$> List.filter
              (λ x, py_in (Int (closed_channel_identifier x)) keys) closed in
      inr (filter
             (λ kv, negb (py_in (Str kv.1) (Int <$> closed_channels)) = true)
             open_channels)
  end.

(** [settle_channel] under its decorator. The three tuples default to the
    empty tuple. *)
Definition settle_channel (self : t) (partner_address : Address)
    (transferred locked : list Z) (locksroot : list string)
    : Exception.t + SettleChannel :=
  assert_channel_existence
    (λ self partner_address,
       match transferred, locked, locksroot with
       | [transferred0; transferred1], [locked0; locked1],
         [locksroot0; locksroot1] =>
           (* locked + transferred amount of p2 have to be bigger than p1
              for the settle call: fix order if necessary *)
           if transferred0 + locked0 >? transferred1 + locked1
           then
             match getitem (partner_to_channel_id self) partner_address with
             | inl e => inl e
             | inr channel_id =>
                 inr (mkSettle channel_id
                        partner_address transferred1 locked1 locksroot1
                        (address self) transferred0 locked0 locksroot0
                        (address self))
             end
           else
             match getitem (partner_to_channel_id self) partner_address with
             | inl e => inl e
             | inr channel_id =>
                 inr (mkSettle channel_id
                        (address self) transferred0 locked0 locksroot0
                        partner_address transferred1 locked1 locksroot1
                        (address self))
             end
       | _, _, _ => inl Exception.AssertionError
       end)
    self partner_address.
End eth_utils.
End MockRaidenNode.

(** * Reading the requirements for [setup.py] *)

Module Setup.
Definition REQ_REPLACE : list (string * string) :=
  [ ("git+https://github.com/matrix-org/matrix-python-sdk.git",
     "matrix-client");
    ("git+https://github.com/raiden-network/raiden.git@7827c0385a0af808b40e3c3217c0c243ed24e097",
     "raiden") ].

(** [str.isspace] for a character, on the first 256 code points. *)
Definition is_space (c : Ascii.ascii) : bool :=
  let n := Ascii.N_of_ascii c in
  ((9 <=? n) && (n <=? 13) || (28 <=? n) && (n <=? 32)
   || (n =? 133) || (n =? 160))%N.

Fixpoint lstrip (s : string) : string :=
  match s with
  | EmptyString => EmptyString
  | String c s' => if is_space c then lstrip s' else s
  end.

Fixpoint rstrip (s : string) : string :=
  match s with
  | EmptyString => EmptyString
  | String c s' =>
      match rstrip s' with
      | EmptyString => if is_space c then EmptyString else String c EmptyString
      | r => String c r
      end
  end.

(** [str.strip()] *)
Definition strip (s : string) : string := rstrip (lstrip s).

(** [line and line[0] in ('#', '-')] *)
Definition is_comment_or_option (line : string) : bool :=
  match line with
  | EmptyString => false
  | String c _ => bool_decide (c = "#"%char) || bool_decide (c = "-"%char)
  end.

Definition dict_get (d : list (string * string)) (key : string)
    : option string :=
  snd <$> List.find (λ kv, bool_decide (kv.1 = key)) d.

(** The body of the loop over the lines of the file. *)
Definition read_line (ret : list string) (line : string) : list string :=
  let line := strip line in
  if is_comment_or_option line then ret
  else
    let line :=
      match dict_get REQ_REPLACE line with
      | Some replacement => replacement
      | None => line
      end in
    ret ++ [line].

(** [read_requirements(path)], given the lines of the file at [path], or
    [None] when there is no such file. *)
Definition read_requirements (file : option (list string))
    : Exception.t + list string :=
  match file with
  | None => inl Exception.AssertionError
  | Some lines => inr (foldl read_line [] lines)
  end.

End Setup.
(** What [_is_mr_valid] answers, whatever it logs. *)
Lemma is_mr_valid_spec mr channel w :
  ∃ w', _is_mr_valid mr channel w = (Return (bool_decide (mr_valid_for_pair mr channel)), w')
        ∧ World.context w' = World.context w
        ∧ World.submitted w' = World.submitted w.
Proof.
  unfold _is_mr_valid, mr_valid_for_pair.
  destruct (bool_decide (MonitorRequest.signer mr ∈ Channel.participants channel)) eqn:E1;
  destruct (bool_decide (MonitorRequest.non_closing_signer mr ∈ Channel.participants channel)) eqn:E2;
  destruct (bool_decide (MonitorRequest.signer mr = MonitorRequest.non_closing_signer mr)) eqn:E3;
  try apply bool_decide_eq_true in E1; try apply bool_decide_eq_false in E1;
  try apply bool_decide_eq_true in E2; try apply bool_decide_eq_false in E2;
  try apply bool_decide_eq_true in E3; try apply bool_decide_eq_false in E3;
  unfold_monad; cbn; eexists; (split; [f_equal; f_equal; symmetry|split; reflexivity]);
  try (apply bool_decide_eq_true; tauto);
  try (apply bool_decide_eq_false; tauto).
Qed.

(** The boolean the handler computes is the gate. *)
Lemma call_monitor_gate mr channel user_deposit min_reward :
  bool_decide (Channel.closing_tx_hash channel = None)
  && (match Channel.update_status channel with
      | Some update_status => OnChainUpdateStatus.nonce update_status
      | None => 0
      end <? MonitorRequest.nonce mr)
  && (MonitorRequest.reward_amount mr * DEFAULT_PAYMENT_RISK_FAKTOR
      <=? user_deposit)
  && (min_reward <=? MonitorRequest.reward_amount mr) = true
  ↔ monitor_gate mr channel user_deposit min_reward.
Proof.
  unfold monitor_gate, last_onchain_nonce, DEFAULT_PAYMENT_RISK_FAKTOR.
  rewrite !andb_true_iff, bool_decide_eq_true, Z.ltb_lt, !Z.leb_le.
  intuition lia.
Qed.

(** The transactions the MONITOR handler hands to the chain. *)
Lemma monitoring_submitted chain tn cid ncp w :
  World.submitted
    (final (action_monitoring_triggered_event_handler chain
              (ActionMonitoringTriggeredEvent tn cid ncp)) w)
  = World.submitted w ++
    match Database.get_monitor_request tn cid ncp (World.db w) with
    | None => []
    | Some mr =>
        match Database.get_channel
                (MonitorRequest.token_network_address mr)
                (MonitorRequest.channel_identifier mr) (World.db w) with
        | None => []
        | Some channel =>
            if bool_decide (mr_valid_for_pair mr channel) then
              match Chain.effectiveBalance chain
                      (MonitorRequest.non_closing_signer mr) with
              | None => []
              | Some user_deposit =>
                  if bool_decide
                       (monitor_gate mr channel user_deposit
                          (Context.min_reward (World.context w)))
                  then [MonitorTx mr
                          (MonitoringServiceState.address
                             (Context.ms_state (World.context w)))]
                  else []
              end
            else []
        end
    end.
Proof.
  unfold action_monitoring_triggered_event_handler.
  unfold final, bind at 1. cbn [log_info emit fst snd].
  unfold bind at 1, db_get_monitor_request at 1. cbn [World.db World.context].
  destruct (Database.get_monitor_request tn cid ncp _) as [mr|];
    [|cbn; by rewrite app_nil_r].
  unfold bind at 1, db_get_channel at 1. cbn [World.db World.context].
  destruct (Database.get_channel _ _ _) as [channel|];
    [|cbn; by rewrite app_nil_r].
  unfold bind at 1.
  match goal with |- context [_is_mr_valid mr channel ?w0] =>
    destruct (is_mr_valid_spec mr channel w0) as (w1 & -> & Hc & Hs) end.
  destruct (bool_decide (mr_valid_for_pair mr channel));
    [|cbn [negb snd]; unfold ret; cbn; by rewrite Hs, app_nil_r].
  cbn [negb]. unfold bind at 1, call.
  destruct (Chain.effectiveBalance chain _) as [user_deposit|];
    [|unfold raise; cbn; by rewrite Hs, app_nil_r].
  unfold ret at 1. unfold bind at 1, get_context at 1.
  cbn in Hc. rewrite Hc.
  pose proof (call_monitor_gate mr channel user_deposit
                (Context.min_reward (World.context w))) as Hg.
  destruct (_ && _ && _ && _) eqn:Eg in Hg.
  - rewrite Eg. rewrite bool_decide_eq_true_2 by (by apply Hg).
    unfold_monad.
    destruct (MonitorRequest.reward_amount mr <? _);
      destruct (Chain.monitor chain mr _); cbn; by rewrite Hs.
  - rewrite Eg. rewrite bool_decide_eq_false_2
      by (intros Hn; apply Hg in Hn; discriminate).
    unfold_monad.
    destruct (MonitorRequest.reward_amount mr <? _); cbn;
      by rewrite Hs, app_nil_r.
Qed.

(** C1. A MONITOR action that fires hands the [monitor] transaction to the
    chain if and only if the monitor request and the channel are in the
    database, the request is valid for the channel's participant pair, and
    the four gate conditions hold: no [closing_tx_hash] yet, the request's
    nonce above the last on-chain nonce (0 without an update status), a user
    deposit of at least twice the reward, and a reward of at least
    [min_reward]. When it does, it is that one transaction, sent from the
    service's address. In particular nothing is submitted when the user
    deposit is below [reward_amount * DEFAULT_PAYMENT_RISK_FAKTOR]. *)
Theorem monitor_submitted_iff_gate chain tn cid ncp w :
  let w' := final (action_monitoring_triggered_event_handler chain
                     (ActionMonitoringTriggeredEvent tn cid ncp)) w in
  let gate mr channel user_deposit :=
    Database.get_monitor_request tn cid ncp (World.db w) = Some mr
    ∧ Database.get_channel (MonitorRequest.token_network_address mr)
        (MonitorRequest.channel_identifier mr) (World.db w) = Some channel
    ∧ mr_valid_for_pair mr channel
    ∧ Chain.effectiveBalance chain (MonitorRequest.non_closing_signer mr)
      = Some user_deposit
    ∧ monitor_gate mr channel user_deposit
        (Context.min_reward (World.context w)) in
  (World.submitted w' ≠ World.submitted w
   ↔ ∃ mr channel user_deposit, gate mr channel user_deposit)
  ∧ (∀ mr channel user_deposit,
       gate mr channel user_deposit →
       World.submitted w'
       = World.submitted w ++
         [MonitorTx mr (MonitoringServiceState.address
                          (Context.ms_state (World.context w)))])
  ∧ (∀ mr user_deposit,
       Database.get_monitor_request tn cid ncp (World.db w) = Some mr →
       Chain.effectiveBalance chain (MonitorRequest.non_closing_signer mr)
       = Some user_deposit →
       user_deposit
       < MonitorRequest.reward_amount mr * DEFAULT_PAYMENT_RISK_FAKTOR →
       World.submitted w' = World.submitted w).
Proof.
  intros w' gate. subst w' gate. rewrite monitoring_submitted.
  split; [split|split].
  - intros Hneq.
    destruct (Database.get_monitor_request _ _ _ _) as [mr|] eqn:Emr;
      [|by rewrite app_nil_r in Hneq].
    destruct (Database.get_channel _ _ _) as [channel|] eqn:Ech;
      [|by rewrite app_nil_r in Hneq].
    destruct (bool_decide (mr_valid_for_pair mr channel)) eqn:Ev;
      [|by rewrite app_nil_r in Hneq].
    destruct (Chain.effectiveBalance _ _) as [d|] eqn:Ed;
      [|by rewrite app_nil_r in Hneq].
    destruct (bool_decide (monitor_gate _ _ _ _)) eqn:Eg;
      [|by rewrite app_nil_r in Hneq].
    apply bool_decide_eq_true in Ev, Eg. by exists mr, channel, d.
  - intros (mr & channel & d & -> & -> & Hv & -> & Hg).
    rewrite !bool_decide_eq_true_2 by done.
    intros Heq. apply (f_equal length) in Heq.
    rewrite length_app in Heq. cbn in Heq. lia.
  - intros mr channel d (-> & -> & Hv & -> & Hg).
    by rewrite !bool_decide_eq_true_2 by done.
  - intros mr d -> Hb Hlt.
    destruct (Database.get_channel _ _ _) as [channel'|];
      [|by rewrite app_nil_r].
    destruct (bool_decide (mr_valid_for_pair mr channel'));
      [|by rewrite app_nil_r].
    rewrite Hb. rewrite bool_decide_eq_false_2; [by rewrite app_nil_r|].
    unfold monitor_gate, DEFAULT_PAYMENT_RISK_FAKTOR in *. lia.
Qed.

(** ** Python's [float] arithmetic is defined on the integers at hand *)

Lemma digits2_pos_size p : digits2_pos p = Pos.size p.
Proof. induction p as [p IH|p IH|]; cbn; congruence. Qed.

Lemma Zdigits2_log2 m : 0 < m → Zdigits2 m = Z.log2 m + 1.
Proof.
  destruct m as [|p|p]; try lia. intros _. cbn [Zdigits2].
  rewrite digits2_pos_size.
  destruct p as [p|p|]; cbn [Pos.size Z.log2]; lia.
Qed.

Lemma Zdigits2_nonneg m : 0 <= Zdigits2 m.
Proof. destruct m; cbn; lia. Qed.

Lemma Zdigits2_le m n : 0 <= m <= n → Zdigits2 m <= Zdigits2 n.
Proof.
  intros [Hm Hmn]. destruct (Z.eq_dec m 0) as [->|Hne].
  - apply Zdigits2_nonneg.
  - rewrite !Zdigits2_log2 by lia.
    pose proof (Z.log2_le_mono m n Hmn). lia.
Qed.

Lemma Zdigits2_succ m : 0 <= m → Zdigits2 (m + 1) <= Zdigits2 m + 1.
Proof.
  intros Hm. destruct (Z.eq_dec m 0) as [->|Hne]; [by vm_compute|].
  rewrite !Zdigits2_log2 by lia.
  pose proof (Z.log2_le_mono (m + 1) (2 * m) ltac:(lia)).
  rewrite Z.log2_double in * by lia. lia.
Qed.

Lemma Zdigits2_div_pow2 m n :
  0 < m → 0 <= n → 0 < m / 2 ^ n → Zdigits2 (m / 2 ^ n) = Zdigits2 m - n.
Proof.
  intros Hm Hn Hq. rewrite !Zdigits2_log2 by lia.
  rewrite <- Z.shiftr_div_pow2 in * by lia.
  rewrite Z.log2_shiftr by lia.
  destruct (Z_lt_le_dec (Z.log2 m) n) as [Hlt|Hle]; [|lia].
  rewrite Z.shiftr_eq_0 in Hq by lia. lia.
Qed.

Lemma Zdigits2_mul a b :
  0 < a → 0 < b → Zdigits2 (a * b) <= Zdigits2 a + Zdigits2 b.
Proof.
  intros Ha Hb. rewrite !Zdigits2_log2 by nia.
  pose proof (Z.log2_mul_above a b). lia.
Qed.

Lemma shr_1_m mrs : 0 <= shr_m mrs → shr_m (shr_1 mrs) = shr_m mrs / 2.
Proof.
  destruct mrs as [m r s]. cbn [shr_m]. intros Hm.
  rewrite <- Z.div2_div.
  destruct m as [|[p|p|]|]; try lia; reflexivity.
Qed.

Lemma pow2_xO p : 2 ^ Z.pos p~0 = 2 ^ Z.pos p * 2 ^ Z.pos p.
Proof. rewrite <- Z.pow_add_r by lia. f_equal. lia. Qed.

Lemma pow2_xI p : 2 ^ Z.pos p~1 = 2 * (2 ^ Z.pos p * 2 ^ Z.pos p).
Proof.
  rewrite <- Z.pow_add_r, <- Z.pow_succ_r by lia. f_equal. lia.
Qed.

Lemma iter_shr_1_m p mrs :
  0 <= shr_m mrs →
  shr_m (SpecFloat.iter_pos shr_1 p mrs) = shr_m mrs / 2 ^ Zpos p.
Proof.
  revert mrs.
  induction p as [p IH|p IH|]; intros mrs Hm; cbn [SpecFloat.iter_pos].
  - assert (H1 : 0 <= shr_m (shr_1 mrs))
      by (rewrite shr_1_m by done; apply Z.div_pos; lia).
    assert (H2 : 0 <= shr_m (SpecFloat.iter_pos shr_1 p (shr_1 mrs)))
      by (rewrite IH by done; apply Z.div_pos; lia).
    rewrite IH, IH, shr_1_m by done.
    rewrite !Z.div_div by lia. by rewrite pow2_xI, Z.mul_assoc.
  - assert (H2 : 0 <= shr_m (SpecFloat.iter_pos shr_1 p mrs))
      by (rewrite IH by done; apply Z.div_pos; lia).
    rewrite IH, IH by done. rewrite Z.div_div by lia. by rewrite pow2_xO.
  - by rewrite shr_1_m.
Qed.

Lemma shr_fexp_spec m e l :
  0 <= m →
  let n := Z.max 0 (fexp prec emax (Zdigits2 m + e) - e) in
  shr_m (fst (shr_fexp prec emax m e l)) = m / 2 ^ n
  ∧ snd (shr_fexp prec emax m e l) = e + n.
Proof.
  intros Hm n. subst n. unfold shr_fexp, shr.
  assert (Hrec : shr_m (shr_record_of_loc m l) = m)
    by (destruct l as [|[]]; reflexivity).
  destruct (fexp prec emax (Zdigits2 m + e) - e) as [|p|p] eqn:Hn;
    cbn [fst snd].
  - rewrite Hrec. cbn. rewrite Z.div_1_r. lia.
  - rewrite iter_shr_1_m by lia. rewrite Hrec.
    rewrite Z.max_r by lia. done.
  - rewrite Hrec. rewrite Z.max_l by lia. cbn. rewrite Z.div_1_r. lia.
Qed.

Lemma round_nearest_even_range m l :
  m <= round_nearest_even m l <= m + 1.
Proof.
  unfold round_nearest_even. destruct l as [|[]]; try lia.
  destruct (Z.even m); lia.
Qed.

Lemma binary_round_aux_bounds sx m e l :
  0 < m → e <= 971 → Zdigits2 m + e <= 1023 →
  let r := binary_round_aux prec emax sx m e l in
  sf_is_finite r
  ∧ sf_exp r <= Z.max e (Z.max (Zdigits2 m + e - 52) (-1073))
  ∧ sf_digits_exp r <= Z.max (Zdigits2 m + e + 1) (-1073).
Proof.
  intros Hm He HK r. subst r. unfold binary_round_aux.
  assert (Hfexp : ∀ x, fexp prec emax x = Z.max (x - 53) (-1074))
    by (intros x; unfold fexp, emin, prec, emax; lia).
  destruct (shr_fexp_spec m e l ltac:(lia)) as [Hm1 He1].
  rewrite Hfexp in Hm1, He1.
  destruct (shr_fexp prec emax m e l) as [mrs1 e1]. cbn [fst snd] in *.
  cbv beta iota.
  pose proof (round_nearest_even_range (shr_m mrs1) (loc_of_shr_record mrs1))
    as Hround.
  set (m1 := round_nearest_even (shr_m mrs1) (loc_of_shr_record mrs1)) in *.
  clearbody m1.
  remember (Z.max 0 (Z.max (Zdigits2 m + e - 53) (-1074) - e)) as n1
    eqn:Hn1.
  assert (Hq1 : 0 <= shr_m mrs1) by (rewrite Hm1; apply Z.div_pos; lia).
  destruct (shr_fexp_spec m1 e1 loc_Exact ltac:(lia)) as [Hm2 He2].
  rewrite Hfexp in Hm2, He2.
  destruct (shr_fexp prec emax m1 e1 loc_Exact) as [mrs2 e2].
  cbn [fst snd] in *. cbv beta iota.
  remember (Z.max 0 (Z.max (Zdigits2 m1 + e1 - 53) (-1074) - e1)) as n2
    eqn:Hn2.
  assert (Hq2 : 0 <= shr_m mrs2) by (rewrite Hm2; apply Z.div_pos; lia).
  assert (Hd1 : Zdigits2 m1 <= Z.max 1 (Zdigits2 m - n1 + 1)).
  { destruct (Z.eq_dec (shr_m mrs1) 0) as [Hz|Hnz].
    - assert (Hle : Zdigits2 m1 <= Zdigits2 1)
        by (apply Zdigits2_le; lia).
      change (Zdigits2 1) with 1 in Hle. lia.
    - pose proof (Zdigits2_div_pow2 m n1 Hm ltac:(lia) ltac:(lia)) as Hdiv.
      rewrite <- Hm1 in Hdiv.
      pose proof (Zdigits2_le m1 (shr_m mrs1 + 1) ltac:(lia)).
      pose proof (Zdigits2_succ (shr_m mrs1) Hq1). lia. }
  pose proof (Zdigits2_nonneg m1) as Hd1nn.
  pose proof (Zdigits2_nonneg m) as Hdnn.
  assert (He2b : e2 <= Z.max e (Z.max (Zdigits2 m + e - 52) (-1073)))
    by lia.
  destruct (shr_m mrs2) as [|m2|m2] eqn:Hm2v; [cbn; lia| |lia].
  assert (Hle : (e2 <=? emax - prec) = true)
    by (apply Z.leb_le; unfold emax, prec; lia).
  rewrite Hle. cbn [sf_is_finite sf_exp sf_digits_exp].
  split; [done|]. split; [lia|].
  destruct (Z.eq_dec n2 0) as [Hn2z|Hn2z].
  - rewrite Hn2z, Z.pow_0_r, Z.div_1_r in Hm2. rewrite Hm2.
    clear - He HK Hn1 He1 Hn2 He2 Hd1 Hd1nn Hdnn Hn2z. lia.
  - assert (Hm1pos : 0 < m1).
    { destruct (Z.eq_dec m1 0) as [Hz|Hnz]; [|clear - Hround Hq1 Hnz; lia].
      rewrite Hz, Z.div_0_l in Hm2 by (apply Z.pow_nonzero; lia).
      discriminate Hm2. }
    assert (Hq2pos : 0 < m1 / 2 ^ n2) by (rewrite <- Hm2; reflexivity).
    pose proof (Zdigits2_div_pow2 m1 n2 Hm1pos ltac:(clear - Hn2; lia)
                  Hq2pos) as Hdiv.
    rewrite <- Hm2 in Hdiv.
    clear - He HK Hn1 He1 Hn2 He2 Hd1 Hd1nn Hdnn Hn2z Hdiv. lia.
Qed.

Lemma digits2_pos_iter_xO m k :
  Zpos (digits2_pos (Pos.iter xO m k)) = Zpos (digits2_pos m) + Zpos k.
Proof.
  induction k as [|k IH] using Pos.peano_ind.
  - cbn. lia.
  - rewrite Pos.iter_succ. cbn [digits2_pos]. lia.
Qed.

Lemma binary_round_bounds sx m e :
  e <= 971 → Zdigits2 (Zpos m) + e <= 1023 →
  let r := binary_round prec emax sx m e in
  sf_is_finite r
  ∧ sf_exp r <= Z.max e (Z.max (Zdigits2 (Zpos m) + e - 52) (-1073))
  ∧ sf_digits_exp r <= Z.max (Zdigits2 (Zpos m) + e + 1) (-1073).
Proof.
  intros He HK r. subst r. unfold binary_round, shl_align.
  cbn [Zdigits2] in *.
  destruct (fexp prec emax (Zpos (digits2_pos m) + e) - e) as [|d|d] eqn:Hd.
  - apply (binary_round_aux_bounds sx (Zpos m) e loc_Exact); [lia|done|done].
  - apply (binary_round_aux_bounds sx (Zpos m) e loc_Exact); [lia|done|done].
  - pose proof (binary_round_aux_bounds sx (Zpos (Pos.iter xO m d))
                  (fexp prec emax (Zpos (digits2_pos m) + e)) loc_Exact)
      as Haux.
    cbn [Zdigits2] in Haux. rewrite digits2_pos_iter_xO in Haux.
    destruct Haux as (Hfin & Hexp & Hdig); [lia|lia|lia|].
    split; [done|]. split; lia.
Qed.

Lemma float_of_int_bounds n :
  Z.abs n < 2 ^ 1000 →
  ∃ f, float_of_int n = inr f
       ∧ sf_is_finite f ∧ sf_exp f <= 948 ∧ sf_digits_exp f <= 1001.
Proof.
  intros Hn. unfold float_of_int, binary_normalize.
  assert (Hdigits : ∀ p, Zpos p < 2 ^ 1000 → Zdigits2 (Zpos p) <= 1000).
  { intros p Hp. rewrite Zdigits2_log2 by lia.
    apply Z.log2_lt_pow2 in Hp; lia. }
  destruct n as [|p|p].
  - eexists. split; [reflexivity|]. cbn. lia.
  - specialize (Hdigits p ltac:(lia)).
    destruct (binary_round_bounds false p 0 ltac:(lia) ltac:(lia))
      as (Hfin & Hexp & Hdig).
    destruct (binary_round prec emax false p 0) as [s|s| |s m e];
      try done; eexists; (split; [reflexivity|]); cbn in *; lia.
  - specialize (Hdigits p ltac:(lia)).
    destruct (binary_round_bounds true p 0 ltac:(lia) ltac:(lia))
      as (Hfin & Hexp & Hdig).
    destruct (binary_round prec emax true p 0) as [s|s| |s m e];
      try done; eexists; (split; [reflexivity|]); cbn in *; lia.
Qed.

(** [float(n) * ratio] and its rounding are defined for every [int] the
    contract can report. *)
Lemma round_int_times_float_defined n :
  Z.abs n < 2 ^ 1000 →
  ∃ period,
    round_int_times_float n RATIO_OF_SETTLE_TIMEOUT_BEFORE_MONITOR
    = inr period.
Proof.
  intros Hn. unfold round_int_times_float.
  destruct (float_of_int_bounds n Hn) as (f & -> & Hfin & Hexp & Hdig).
  unfold RATIO_OF_SETTLE_TIMEOUT_BEFORE_MONITOR.
  destruct f as [s|s| |s m e]; try done.
  - eexists. reflexivity.
  - cbn [SFmul sf_exp sf_digits_exp] in *.
    pose proof (Zdigits2_mul (Zpos m) 7205759403792794 ltac:(lia) ltac:(lia))
      as Hmul.
    change (Zdigits2 7205759403792794) with 53 in Hmul.
    destruct (binary_round_aux_bounds (xorb s false)
                (Zpos (m * 7205759403792794)) (e + -53) loc_Exact)
      as (Hfin' & _); [lia|lia|rewrite Pos2Z.inj_mul; lia|].
    destruct (binary_round_aux prec emax _ _ _ _) as [s'|s'| |s' m' e'];
      try done; eexists; reflexivity.
Qed.

(** C2. For a ChannelClosed event whose channel is in the database, with a
    settle timeout as the contract reports it (a uint256), the handler
    returns normally and stores the channel with state [CLOSED],
    [closing_block] the block number of the event and [closing_participant]
    its closing participant. When [block_number + settle_timeout] is
    strictly before [last_known_block] nothing is scheduled; otherwise the
    handler upserts exactly one scheduled MONITOR action, at trigger block
    [block_number + round(settle_timeout * 0.8)], for the participant of the
    channel that did not close it, and nothing else in the database
    changes. *)
Theorem channel_closed_closes_and_schedules
    chain tn cid closing_participant block_number channel w :
  Database.get_channel tn cid (World.db w) = Some channel →
  0 <= Channel.settle_timeout channel < 2 ^ 256 →
  let run := channel_closed_event_handler chain
               (ReceiveChannelClosedEvent tn cid closing_participant
                  block_number) in
  let closed :=
    Channel.set_closing_participant (Some closing_participant)
      (Channel.set_closing_block (Some block_number)
         (Channel.set_state CLOSED channel)) in
  let target :=
    if bool_decide (Channel.participant1 channel = closing_participant)
    then Channel.participant2 channel else Channel.participant1 channel in
  let late :=
    block_number + Channel.settle_timeout channel
    < Context.last_known_block (World.context w) in
  outcome run w = Return tt
  ∧ (late →
     World.db (final run w) = Database.upsert_channel closed (World.db w))
  ∧ (¬ late →
     ∃ period,
       round_int_times_float (Channel.settle_timeout channel)
         RATIO_OF_SETTLE_TIMEOUT_BEFORE_MONITOR = inr period
       ∧ World.db (final run w)
         = Database.upsert_channel closed
             (Database.upsert_scheduled_event
                (ScheduledEvent.mk (block_number + period)
                   (ActionMonitoringTriggeredEvent
                      (Channel.token_network_address channel)
                      (Channel.identifier channel) target))
                (World.db w)))
  ∧ target ∈ Channel.participants channel
  ∧ (Channel.participant1 channel ≠ Channel.participant2 channel →
     target ≠ closing_participant)
  ∧ Channel.state closed = CLOSED
  ∧ Channel.closing_block closed = Some block_number
  ∧ Channel.closing_participant closed = Some closing_participant
  ∧ Database.get_channel (Channel.token_network_address channel)
      (Channel.identifier channel)
      (Database.upsert_channel closed (World.db w)) = Some closed.
Proof.
  intros Hget Hrange run closed target late. subst run late.
  destruct (round_int_times_float_defined (Channel.settle_timeout channel))
    as [period Hperiod].
  { assert (2 ^ 256 < 2 ^ 1000) by (apply Z.pow_lt_mono_r; lia). lia. }
  unfold channel_closed_event_handler.
  split; [|split; [|split; [|split; [|split; [|repeat split]]]]].
  - unfold_monad. rewrite Hget. cbn.
    destruct (_ <? _); cbn; [done|]. by rewrite Hperiod.
  - intros Hlate. unfold_monad. rewrite Hget. cbn.
    apply Z.ltb_lt in Hlate. by rewrite Hlate.
  - intros Hnot. exists period. split; [done|].
    unfold_monad. rewrite Hget. cbn.
    apply Z.ltb_nlt in Hnot. rewrite Hnot. cbn. by rewrite Hperiod.
  - subst target. unfold Channel.participants.
    case_bool_decide; rewrite !elem_of_cons; auto.
  - intros Hne. subst target. case_bool_decide; congruence.
  - unfold Database.get_channel, Database.upsert_channel. cbn.
    by rewrite lookup_insert_eq.
Qed.

(** C4. With an update status already stored for the channel, a
    NonClosingBalanceProofUpdated event replaces nonce and sender only when
    its nonce is strictly greater than the stored one (an equal or smaller
    nonce leaves the whole context as it was), whereas a
    MonitorNewBalanceProof event replaces them whenever its nonce is greater
    than or equal to the stored one, and only a strictly smaller nonce is
    dropped without any change of state. *)
Theorem update_status_nonce_checks
    chain tn cid channel status w
    closing_participant nonce block_number
    reward_amount ms_nonce ms_address raiden_node_address ms_block_number :
  Database.get_channel tn cid (World.db w) = Some channel →
  Channel.update_status channel = Some status →
  let updated_by sender n :=
    Channel.set_update_status (Some (OnChainUpdateStatus.mk sender n))
      channel in
  let non_closing :=
    non_closing_balance_proof_updated_event_handler chain
      (ReceiveNonClosingBalanceProofUpdatedEvent tn cid closing_participant
         nonce block_number) in
  let monitoring :=
    monitor_new_balance_proof_event_handler chain
      (ReceiveMonitoringNewBalanceProofEvent tn cid reward_amount ms_nonce
         ms_address raiden_node_address ms_block_number) in
  (nonce <= OnChainUpdateStatus.nonce status →
   outcome non_closing w = Return tt
   ∧ World.context (final non_closing w) = World.context w)
  ∧ (World.db (final non_closing w) ≠ World.db w →
     nonce > OnChainUpdateStatus.nonce status)
  ∧ (nonce > OnChainUpdateStatus.nonce status →
     closing_participant ∈ Channel.participants channel →
     outcome non_closing w = Return tt
     ∧ World.db (final non_closing w)
       = Database.upsert_channel
           (updated_by
              (if bool_decide (closing_participant
                               = Channel.participant1 channel)
               then Channel.participant2 channel
               else Channel.participant1 channel)
              nonce)
           (World.db w))
  ∧ (ms_nonce >= OnChainUpdateStatus.nonce status →
     Database.channels (World.db (final monitoring w))
     = Database.channels
         (Database.upsert_channel (updated_by ms_address ms_nonce)
            (World.db w)))
  ∧ (ms_nonce < OnChainUpdateStatus.nonce status →
     outcome monitoring w = Return tt
     ∧ World.context (final monitoring w) = World.context w).
Proof.
  intros Hget Hstatus updated_by non_closing monitoring.
  subst updated_by non_closing monitoring.
  unfold non_closing_balance_proof_updated_event_handler,
    monitor_new_balance_proof_event_handler, schedule_claim_reward.
  assert (Hdrop : nonce <= OnChainUpdateStatus.nonce status →
    (fst (non_closing_balance_proof_updated_event_handler chain
       (ReceiveNonClosingBalanceProofUpdatedEvent tn cid closing_participant
          nonce block_number) w) = Return tt
     ∧ World.context (snd (non_closing_balance_proof_updated_event_handler
         chain (ReceiveNonClosingBalanceProofUpdatedEvent tn cid
                  closing_participant nonce block_number) w))
       = World.context w)).
  { intros Hle. apply Z.leb_le in Hle.
    unfold non_closing_balance_proof_updated_event_handler.
    unfold_monad. rewrite Hget. cbn. rewrite Hstatus, Hle.
    repeat case_bool_decide; cbn; by destruct (World.context w). }
  unfold non_closing_balance_proof_updated_event_handler in Hdrop.
  split; [exact Hdrop|]. split; [|split; [|split]].
  - intros Hchanged.
    destruct (Z_le_gt_dec nonce (OnChainUpdateStatus.nonce status))
      as [Hle|Hgt]; [|exact Hgt].
    destruct (Hdrop Hle) as [_ Hctx]. exfalso. apply Hchanged.
    unfold final, World.db. by rewrite Hctx.
  - intros Hgt Hin.
    assert (Hnle : (nonce <=? OnChainUpdateStatus.nonce status) = false)
      by (apply Z.leb_gt; lia).
    unfold Channel.participants in Hin.
    unfold_monad. rewrite Hget. cbn. rewrite Hstatus, Hnle.
    repeat case_bool_decide; cbn; try done.
    apply elem_of_cons in Hin as [?|Hin]; [done|].
    apply elem_of_cons in Hin as [?|Hin]; [done|].
    by apply elem_of_nil in Hin.
  - intros Hge.
    assert (Hnlt : (ms_nonce <? OnChainUpdateStatus.nonce status) = false)
      by (apply Z.ltb_ge; lia).
    unfold_monad. rewrite Hget. cbn. rewrite Hstatus, Hnlt. cbn.
    case_bool_decide; cbn; [|done].
    destruct (Channel.closing_block channel); cbn; done.
  - intros Hlt. apply Z.ltb_lt in Hlt.
    unfold_monad. rewrite Hget. cbn. rewrite Hstatus, Hlt. cbn.
    by destruct (World.context w).
Qed.

(** C5. A MonitorNewBalanceProof event for a stored channel whose closing
    block is recorded, that passes the nonce check and names the monitoring
    service itself as [ms_address], makes the handler store the update and
    upsert a CLAIM_REWARD action at trigger block
    [closing_block + settle_timeout + 5], for the raiden node address of the
    event. *)
Theorem claim_reward_scheduled
    chain tn cid reward_amount nonce ms_address raiden_node_address
    block_number channel closing_block w :
  Database.get_channel tn cid (World.db w) = Some channel →
  Channel.closing_block channel = Some closing_block →
  (∀ status, Channel.update_status channel = Some status →
             nonce >= OnChainUpdateStatus.nonce status) →
  ms_address
  = MonitoringServiceState.address (Context.ms_state (World.context w)) →
  let run :=
    monitor_new_balance_proof_event_handler chain
      (ReceiveMonitoringNewBalanceProofEvent tn cid reward_amount nonce
         ms_address raiden_node_address block_number) in
  outcome run w = Return tt
  ∧ World.db (final run w)
    = Database.upsert_scheduled_event
        (ScheduledEvent.mk
           (closing_block + Channel.settle_timeout channel + 5)
           (ActionClaimRewardTriggeredEvent
              (Channel.token_network_address channel)
              (Channel.identifier channel) raiden_node_address))
        (Database.upsert_channel
           (Channel.set_update_status
              (Some (OnChainUpdateStatus.mk ms_address nonce)) channel)
           (World.db w)).
Proof.
  intros Hget Hcb Hfresh Hours run. subst run.
  unfold monitor_new_balance_proof_event_handler, schedule_claim_reward.
  unfold_monad. rewrite Hget. cbn.
  destruct (Channel.update_status channel) as [status|] eqn:Hstatus; cbn.
  - specialize (Hfresh status eq_refl).
    assert (Hnlt : (nonce <? OnChainUpdateStatus.nonce status) = false)
      by (apply Z.ltb_ge; lia).
    rewrite Hnlt. cbn. rewrite bool_decide_eq_true_2 by done.
    rewrite Hcb. done.
  - rewrite bool_decide_eq_true_2 by done. rewrite Hcb. done.
Qed.

(** The boolean the CLAIM_REWARD handler computes is its eligibility. *)
Lemma can_claim_gate mr channel our_address :
  bool_decide (Channel.claim_tx_hash channel = None)
  && match Channel.update_status channel with
     | None => false
     | Some update_status =>
         bool_decide
           (OnChainUpdateStatus.update_sender_address update_status
            = our_address)
     end
  && (0 <? MonitorRequest.reward_amount mr) = true
  ↔ claim_gate mr channel our_address.
Proof.
  unfold claim_gate, latest_update_is_ours.
  rewrite !andb_true_iff, bool_decide_eq_true, Z.ltb_lt.
  destruct (Channel.update_status channel) as [status|]; cbn.
  - rewrite bool_decide_eq_true. split.
    + intros [[? ?] ?]. repeat split; [done|by f_equal|lia].
    + intros (? & [= ?] & ?). repeat split; [done|done|lia].
  - split; [intros [[_ [=]] _]|intros (_ & [=] & _)].
Qed.

(** The transactions the CLAIM_REWARD handler hands to the chain. *)
Lemma claim_reward_submitted chain tn cid ncp w :
  World.submitted
    (final (action_claim_reward_triggered_event_handler chain
              (ActionClaimRewardTriggeredEvent tn cid ncp)) w)
  = World.submitted w ++
    match Database.get_monitor_request tn cid ncp (World.db w) with
    | None => []
    | Some mr =>
        match Database.get_channel
                (MonitorRequest.token_network_address mr)
                (MonitorRequest.channel_identifier mr) (World.db w) with
        | None => []
        | Some channel =>
            let our_address :=
              MonitoringServiceState.address
                (Context.ms_state (World.context w)) in
            if bool_decide (claim_gate mr channel our_address) then
              [ClaimRewardTx (MonitorRequest.channel_identifier mr)
                 (MonitorRequest.token_network_address mr)
                 (MonitorRequest.signer mr)
                 (MonitorRequest.non_closing_signer mr) our_address]
            else []
        end
    end.
Proof.
  unfold action_claim_reward_triggered_event_handler.
  unfold_monad. cbn.
  destruct (Database.get_monitor_request tn cid ncp _) as [mr|];
    [|cbn; by rewrite app_nil_r].
  cbn.
  destruct (Database.get_channel _ _ _) as [channel|];
    [|cbn; by rewrite app_nil_r].
  cbn.
  pose proof (can_claim_gate mr channel
    (MonitoringServiceState.address (Context.ms_state (World.context w))))
    as Hg.
  destruct (_ && _ && _) eqn:Eg in Hg; rewrite Eg.
  - rewrite bool_decide_eq_true_2 by (by apply Hg).
    destruct (0 <? MonitorRequest.reward_amount mr);
      by destruct (Chain.claimReward _ _ _ _ _ _).
  - rewrite bool_decide_eq_false_2
      by (intros Hn; apply Hg in Hn; discriminate).
    destruct (0 <? MonitorRequest.reward_amount mr); cbn;
      by rewrite app_nil_r.
Qed.

(** C6, as amended. A CLAIM_REWARD action that fires hands [claimReward] to
    the chain if and only if its monitor request and channel are stored, no
    claim transaction was sent for the channel yet, the latest update of the
    channel was made by the service itself, and the request carries a
    positive reward. It is then that one transaction; and whenever one is
    submitted the latest update was ours. *)
Theorem claim_submitted_iff_gate chain tn cid ncp w :
  let w' := final (action_claim_reward_triggered_event_handler chain
                     (ActionClaimRewardTriggeredEvent tn cid ncp)) w in
  let our_address :=
    MonitoringServiceState.address (Context.ms_state (World.context w)) in
  let eligible mr channel :=
    Database.get_monitor_request tn cid ncp (World.db w) = Some mr
    ∧ Database.get_channel (MonitorRequest.token_network_address mr)
        (MonitorRequest.channel_identifier mr) (World.db w) = Some channel
    ∧ claim_gate mr channel our_address in
  (World.submitted w' ≠ World.submitted w ↔ ∃ mr channel, eligible mr channel)
  ∧ (∀ mr channel,
       eligible mr channel →
       latest_update_is_ours channel our_address
       ∧ World.submitted w'
         = World.submitted w ++
           [ClaimRewardTx (MonitorRequest.channel_identifier mr)
              (MonitorRequest.token_network_address mr)
              (MonitorRequest.signer mr)
              (MonitorRequest.non_closing_signer mr) our_address]).
Proof.
  intros w' our_address eligible. subst w' eligible.
  rewrite claim_reward_submitted. fold our_address.
  split; [split|].
  - intros Hneq.
    destruct (Database.get_monitor_request _ _ _ _) as [mr|] eqn:Emr;
      [|by rewrite app_nil_r in Hneq].
    destruct (Database.get_channel _ _ _) as [channel|] eqn:Ech;
      [|by rewrite app_nil_r in Hneq].
    cbn zeta in Hneq.
    destruct (bool_decide (claim_gate mr channel our_address)) eqn:Eg;
      [|by rewrite app_nil_r in Hneq].
    apply bool_decide_eq_true in Eg. by exists mr, channel.
  - intros (mr & channel & -> & -> & Hg). cbn zeta.
    rewrite bool_decide_eq_true_2 by done.
    intros Heq. apply (f_equal length) in Heq.
    rewrite length_app in Heq. cbn in Heq. lia.
  - intros mr channel (-> & -> & Hg). cbn zeta.
    rewrite bool_decide_eq_true_2 by done.
    split; [apply Hg|done].
Qed.

(** C6, counterexample. In the happy-path scenario with a monitor request
    whose reward is 0, the latest update of the channel is the service's
    own, and yet the CLAIM_REWARD action submits nothing. *)
Lemma claim_not_executed_without_reward :
  ¬ executes_iff_latest_update_is_ours (Scenario.chain 30) "TN" 1 "B"
      (Scenario.world_with Scenario.monitored_channel [Scenario.request 0]).
Proof.
  unfold executes_iff_latest_update_is_ours. intros [_ Hexec].
  apply Hexec; [|by vm_compute].
  exists Scenario.monitored_channel. split; by vm_compute.
Qed.

(** A world is its three components. *)
Lemma world_eta w :
  World.mk (World.context w) (World.log w) (World.submitted w) = w.
Proof. by destruct w. Qed.

Lemma context_eta c :
  Context.mk (Context.ms_state c) (Context.db c) (Context.last_known_block c)
    (Context.min_reward c) = c.
Proof. by destruct c. Qed.

(** The run of the MONITOR handler once the gate is passed: the transaction
    goes out, and what is stored depends on whether the call went through. *)
Lemma monitoring_run_past_gate chain tn cid ncp w mr channel user_deposit :
  Database.get_monitor_request tn cid ncp (World.db w) = Some mr →
  Database.get_channel (MonitorRequest.token_network_address mr)
    (MonitorRequest.channel_identifier mr) (World.db w) = Some channel →
  mr_valid_for_pair mr channel →
  Chain.effectiveBalance chain (MonitorRequest.non_closing_signer mr)
  = Some user_deposit →
  monitor_gate mr channel user_deposit
    (Context.min_reward (World.context w)) →
  let sender :=
    MonitoringServiceState.address (Context.ms_state (World.context w)) in
  ∃ log,
    action_monitoring_triggered_event_handler chain
      (ActionMonitoringTriggeredEvent tn cid ncp) w
    = (Return tt,
       match Chain.monitor chain mr sender with
       | Some tx_hash =>
           World.mk
             (Context.set_db
                (Database.upsert_channel
                   (Channel.set_closing_tx_hash (Some tx_hash) channel)
                   (Database.add_waiting_transaction (encode_hex tx_hash)
                      (World.db w)))
                (World.context w))
             (log ++ [(INFO, "Sent transaction calling `monitor` for channel")])
             (World.submitted w ++ [MonitorTx mr sender])
       | None =>
           World.mk (World.context w)
             (log ++ [(ERROR, "Sending tx failed")])
             (World.submitted w ++ [MonitorTx mr sender])
       end).
Proof.
  intros Hmr Hch Hv Hd Hg sender. subst sender.
  unfold action_monitoring_triggered_event_handler.
  unfold bind at 1. cbn [log_info emit fst snd].
  unfold bind at 1, db_get_monitor_request at 1.
  unfold World.db in *. cbn [World.context]. rewrite Hmr.
  unfold bind at 1, db_get_channel at 1.
  unfold World.db. cbn [World.context]. rewrite Hch.
  unfold bind at 1.
  match goal with |- context [_is_mr_valid mr channel ?w0] =>
    destruct (is_mr_valid_spec mr channel w0) as (w1 & -> & Hc & Hs) end.
  rewrite bool_decide_eq_true_2 by done.
  cbn [negb]. unfold bind at 1, call. rewrite Hd.
  unfold ret at 1. unfold bind at 1, get_context at 1.
  cbn in Hc, Hs. rewrite Hc.
  apply call_monitor_gate in Hg. rewrite Hg.
  unfold_monad.
  destruct (MonitorRequest.reward_amount mr <? _);
    destruct (Chain.monitor chain mr _); cbn; rewrite ?Hc, ?Hs;
    eexists; reflexivity.
Qed.

(** The run of the CLAIM_REWARD handler once it is eligible. *)
Lemma claim_run_past_gate chain tn cid ncp w mr channel :
  Database.get_monitor_request tn cid ncp (World.db w) = Some mr →
  Database.get_channel (MonitorRequest.token_network_address mr)
    (MonitorRequest.channel_identifier mr) (World.db w) = Some channel →
  let sender :=
    MonitoringServiceState.address (Context.ms_state (World.context w)) in
  claim_gate mr channel sender →
  let tx :=
    ClaimRewardTx (MonitorRequest.channel_identifier mr)
      (MonitorRequest.token_network_address mr) (MonitorRequest.signer mr)
      (MonitorRequest.non_closing_signer mr) sender in
  ∃ log,
    action_claim_reward_triggered_event_handler chain
      (ActionClaimRewardTriggeredEvent tn cid ncp) w
    = (Return tt,
       match Chain.claimReward chain (MonitorRequest.channel_identifier mr)
               (MonitorRequest.token_network_address mr)
               (MonitorRequest.signer mr)
               (MonitorRequest.non_closing_signer mr) sender with
       | Some tx_hash =>
           World.mk
             (Context.set_db
                (Database.upsert_channel
                   (Channel.set_claim_tx_hash (Some tx_hash) channel)
                   (Database.add_waiting_transaction (encode_hex tx_hash)
                      (World.db w)))
                (World.context w))
             (log ++ [(INFO, "Sent transaction calling `claimReward` for channel")])
             (World.submitted w ++ [tx])
       | None =>
           World.mk (World.context w)
             (log ++ [(ERROR, "Sending tx failed")])
             (World.submitted w ++ [tx])
       end).
Proof.
  intros Hmr Hch sender Hg tx. subst sender tx.
  unfold action_claim_reward_triggered_event_handler.
  apply can_claim_gate in Hg.
  unfold_monad. cbn. rewrite Hmr. cbn. rewrite Hch. cbn. rewrite Hg.
  destruct (0 <? MonitorRequest.reward_amount mr);
    destruct (Chain.claimReward _ _ _ _ _ _); cbn; eexists; reflexivity.
Qed.

(** C7. When the [monitor] call, or the [claimReward] call, raises, the
    action handler returns normally with the error logged, and the context
    (service state and database) is what it was: no waiting transaction was
    added, and the stored channel keeps its [closing_tx_hash], respectively
    its [claim_tx_hash]. *)
Theorem failed_submission_changes_nothing chain tn cid ncp w mr channel :
  Database.get_monitor_request tn cid ncp (World.db w) = Some mr →
  Database.get_channel (MonitorRequest.token_network_address mr)
    (MonitorRequest.channel_identifier mr) (World.db w) = Some channel →
  let sender :=
    MonitoringServiceState.address (Context.ms_state (World.context w)) in
  let monitoring :=
    action_monitoring_triggered_event_handler chain
      (ActionMonitoringTriggeredEvent tn cid ncp) in
  let claiming :=
    action_claim_reward_triggered_event_handler chain
      (ActionClaimRewardTriggeredEvent tn cid ncp) in
  let unchanged (run : M unit) :=
    outcome run w = Return tt
    ∧ List.last (World.log (final run w)) (INFO, "")
      = (ERROR, "Sending tx failed")
    ∧ World.context (final run w) = World.context w
    ∧ Database.waiting_transactions (World.db (final run w))
      = Database.waiting_transactions (World.db w)
    ∧ Database.get_channel (MonitorRequest.token_network_address mr)
        (MonitorRequest.channel_identifier mr) (World.db (final run w))
      = Some channel in
  (∀ user_deposit,
     mr_valid_for_pair mr channel →
     Chain.effectiveBalance chain (MonitorRequest.non_closing_signer mr)
     = Some user_deposit →
     monitor_gate mr channel user_deposit
       (Context.min_reward (World.context w)) →
     Chain.monitor chain mr sender = None →
     unchanged monitoring)
  ∧ (claim_gate mr channel sender →
     Chain.claimReward chain (MonitorRequest.channel_identifier mr)
       (MonitorRequest.token_network_address mr) (MonitorRequest.signer mr)
       (MonitorRequest.non_closing_signer mr) sender = None →
     unchanged claiming).
Proof.
  intros Hmr Hch sender monitoring claiming unchanged.
  subst monitoring claiming unchanged. split.
  - intros d Hv Hd Hg Hfail.
    destruct (monitoring_run_past_gate chain tn cid ncp w mr channel d
                Hmr Hch Hv Hd Hg) as [log Hrun].
    fold sender in Hrun. rewrite Hfail in Hrun.
    unfold outcome, final, World.db. rewrite Hrun. cbn.
    by rewrite last_last.
  - intros Hg Hfail.
    destruct (claim_run_past_gate chain tn cid ncp w mr channel
                Hmr Hch Hg) as [log Hrun].
    fold sender in Hrun. rewrite Hfail in Hrun.
    unfold outcome, final, World.db. rewrite Hrun. cbn.
    by rewrite last_last.
Qed.

(** ** The footprint of the handlers on the stored channels *)

Lemma get_channel_key d tn cid c :
  db_wf d → Database.get_channel tn cid d = Some c → channel_key c = (tn, cid).
Proof. intros Hwf Hget. by apply Hwf. Qed.

Lemma channels_upsert c d :
  Database.channels (Database.upsert_channel c d)
  = <[channel_key c := c]> (Database.channels d).
Proof. reflexivity. Qed.

Lemma channels_upsert_scheduled_event se d :
  Database.channels (Database.upsert_scheduled_event se d)
  = Database.channels d.
Proof. reflexivity. Qed.

Ltac crunch :=
  unfold_monad; cbn in *;
  repeat (case_match; unfold_monad; cbn in *; simplify_eq; cbn in * ).

(** The channel read under [(tn, cid)] is stored back under the same key. *)
Ltac stored Hwf :=
  right; eexists; split; [|by rewrite ?channels_upsert];
  match goal with
  | H : Database.get_channel _ _ _ = Some ?c |- _ =>
      let K := fresh "K" in
      pose proof (get_channel_key _ _ _ _ Hwf H) as K;
      unfold Database.get_channel in H;
      unfold channel_key in *; cbn; rewrite K, H
  end;
  constructor; try assumption.

(** Every handler leaves the stored channels alone or stores one channel,
    under the identity it was read from. *)
Lemma handler_channels chain event w :
  db_wf (World.db w) →
  let channels := Database.channels (World.db w) in
  let channels' :=
    Database.channels (World.db (final (handle_event chain event) w)) in
  channels' = channels
  ∨ ∃ c', channel_step event (channels !! channel_key c') c'
          ∧ channels' = <[channel_key c' := c']> channels.
Proof.
  intros Hwf channels channels'. subst channels channels'.
  unfold handle_event. destruct event; cbn [HANDLERS].
  - right. eexists. split; [|reflexivity]. constructor.
  - unfold channel_closed_event_handler. crunch; eauto;
      stored Hwf.
  - unfold non_closing_balance_proof_updated_event_handler. crunch; eauto;
      stored Hwf; intros; simplify_eq; lia.
  - unfold channel_settled_event_handler. crunch; eauto;
      stored Hwf.
  - unfold monitor_new_balance_proof_event_handler, schedule_claim_reward.
    crunch; eauto; stored Hwf; intros; simplify_eq; lia.
  - unfold monitor_reward_claim_event_handler. crunch; eauto.
  - unfold updated_head_block_event_handler. crunch; eauto.
  - unfold action_monitoring_triggered_event_handler, _is_mr_valid.
    crunch; eauto; stored Hwf.
  - unfold action_claim_reward_triggered_event_handler.
    crunch; eauto; stored Hwf.
Qed.

Lemma handler_wf chain event w :
  db_wf (World.db w) → db_wf (World.db (final (handle_event chain event) w)).
Proof.
  intros Hwf.
  destruct (handler_channels chain event w Hwf) as [Heq|(c' & _ & Heq)];
    unfold db_wf; rewrite Heq; [done|].
  intros k c. rewrite lookup_insert. case_decide; [|by apply Hwf].
  by intros [= <-].
Qed.

Lemma process_events_app pre post w :
  process_events (pre ++ post) w = process_events post (process_events pre w).
Proof.
  revert w. induction pre as [|[chain event] pre IH]; intros w; [done|].
  cbn. apply IH.
Qed.

Lemma process_events_wf events w :
  db_wf (World.db w) → db_wf (World.db (process_events events w)).
Proof.
  revert w. induction events as [|[chain event] events IH]; intros w Hwf;
    [done|].
  cbn. apply IH. by apply handler_wf.
Qed.

Lemma each_event_app P pre post w :
  each_event P (pre ++ post) w
  ↔ each_event P pre w ∧ each_event P post (process_events pre w).
Proof.
  revert w. induction pre as [|[chain event] pre IH]; intros w; cbn;
    [tauto|].
  rewrite IH. unfold final. tauto.
Qed.

(** A property kept by every guarded step is kept along a guarded
    sequence. *)
Lemma process_events_ind (I : World.t → Prop) (P : Event → World.t → Prop) :
  (∀ chain event w, I w → P event w →
                    I (final (handle_event chain event) w)) →
  ∀ events w, I w → each_event P events w → I (process_events events w).
Proof.
  intros Hstep events.
  induction events as [|[chain event] events IH]; intros w HI HP; [done|].
  cbn in *. destruct HP as [HP Hrest]. apply IH; [|done]. by apply Hstep.
Qed.

Lemma nonce_le_refl o : nonce_le o o.
Proof. destruct o; cbn; [lia|done]. Qed.

Lemma nonce_le_trans a b c : nonce_le a b → nonce_le b c → nonce_le a c.
Proof. destruct a, b, c; cbn; try done; lia. Qed.

(** One step: unless the event re-opens a stored channel, every stored
    nonce stays or grows. *)
Lemma handler_nonce_le chain event w k :
  db_wf (World.db w) →
  opens_new_channel event w →
  nonce_le (stored_nonce k w)
    (stored_nonce k (final (handle_event chain event) w)).
Proof.
  intros Hwf Hnew. unfold stored_nonce.
  destruct (handler_channels chain event w Hwf) as [Heq|(c' & Hstep & Heq)];
    rewrite Heq; [apply nonce_le_refl|].
  rewrite lookup_insert. case_decide as Hk; [subst k|apply nonce_le_refl].
  inversion Hstep as
    [old tn cid p1 p2 st bn
    |c tn cid cp bn Hkey Hold
    |c tn cid cp nonce bn sender Hkey Hlt Hold
    |c tn cid bn Hkey Hold
    |c tn cid reward nonce ms rna bn Hkey Hle Hold
    |c tn cid ncp h Hold
    |c tn cid ncp h Hold]; subst; cbn in *.
  - unfold Database.get_channel in Hnew.
    unfold channel_key. cbn. by rewrite Hnew.
  - apply nonce_le_refl.
  - destruct (Channel.update_status c) as [status|]; cbn; [|done].
    specialize (Hlt status eq_refl). lia.
  - apply nonce_le_refl.
  - destruct (Channel.update_status c) as [status|]; cbn; [|done].
    by apply Hle.
  - apply nonce_le_refl.
  - apply nonce_le_refl.
Qed.

Lemma process_events_nonce_le events w k :
  db_wf (World.db w) →
  each_event opens_new_channel events w →
  nonce_le (stored_nonce k w) (stored_nonce k (process_events events w)).
Proof.
  revert w. induction events as [|[chain event] events IH]; intros w Hwf Hnew.
  - apply nonce_le_refl.
  - cbn in *. destruct Hnew as [Hnew Hrest].
    eapply nonce_le_trans; [by apply handler_nonce_le|].
    apply IH; [by apply handler_wf|done].
Qed.

(** C3, as amended. Whatever the event, as long as it is not a ChannelOpened
    event for a channel already stored, the handler leaves the stored nonce
    of every channel as it is or replaces it by one at least as large; so
    along a sequence of events none of which re-opens a stored channel, the
    stored nonce of a channel never decreases. *)
Theorem nonce_never_decreases_without_reopening :
  (∀ chain event w k,
     db_wf (World.db w) →
     opens_new_channel event w →
     nonce_le (stored_nonce k w)
       (stored_nonce k (final (handle_event chain event) w)))
  ∧ (∀ events w,
       db_wf (World.db w) →
       each_event opens_new_channel events w →
       nonce_never_decreases events w).
Proof.
  split; [intros; by apply handler_nonce_le|].
  intros events w Hwf Hnew pre post k ->.
  apply each_event_app in Hnew as [Hpre Hpost].
  rewrite process_events_app.
  apply process_events_nonce_le; [by apply process_events_wf|done].
Qed.

(** C3, counterexample. A second ChannelOpened event for a stored channel
    stores a fresh channel in its place, without update status; the nonce 5
    stored before it is followed by the nonce 3 of the next update. *)
Lemma nonce_decreases_after_reopening :
  ¬ nonce_never_decreases reopening_events Scenario.initial.
Proof.
  intros Hmono.
  specialize (Hmono (take 2 reopening_events) (drop 2 reopening_events)
                ("TN", 1) eq_refl).
  vm_compute in Hmono. by apply Hmono.
Qed.

Example reopening_nonces :
  stored_nonce ("TN", 1)
    (process_events (take 2 reopening_events) Scenario.initial) = Some 5
  ∧ stored_nonce ("TN", 1)
      (process_events (take 3 reopening_events) Scenario.initial) = None
  ∧ stored_nonce ("TN", 1)
      (process_events reopening_events Scenario.initial) = Some 3.
Proof. by vm_compute. Qed.

(** A stored channel keeps the two implications of I2 that do not depend on
    the order of the events. *)
Lemma step_closing_block_consistent event old c' :
  channel_step event old c' →
  (∀ c, old = Some c → closing_block_consistent c) →
  closing_block_consistent c'.
Proof.
  unfold closing_block_consistent.
  destruct 1; intros Hinv; try specialize (Hinv _ eq_refl); cbn;
    try done; split; eauto; try (intros [? [=]]); try (intros [=]).
Qed.

Lemma handler_closing_block_consistent chain event w :
  db_wf (World.db w) →
  all_channels closing_block_consistent w →
  all_channels closing_block_consistent (final (handle_event chain event) w).
Proof.
  intros Hwf Hinv. unfold all_channels in *.
  destruct (handler_channels chain event w Hwf) as [Heq|(c' & Hstep & Heq)];
    rewrite Heq; [done|].
  intros k c. rewrite lookup_insert. case_decide; [|by apply Hinv].
  intros [= <-]. eapply step_closing_block_consistent; [done|].
  intros c Hold. by eapply Hinv.
Qed.

(** A stored channel keeps I2 itself unless it is settled without its
    closing having been recorded. *)
Lemma step_closing_block_iff event old c' :
  channel_step event old c' →
  (∀ c tn cid bn, event = ReceiveChannelSettledEvent tn cid bn →
                  old = Some c → is_Some (Channel.closing_block c)) →
  (∀ c, old = Some c → closing_block_iff_closed c) →
  closing_block_iff_closed c'.
Proof.
  unfold closing_block_iff_closed.
  destruct 1; intros Hsettle Hinv; try specialize (Hinv _ eq_refl); cbn;
    try done.
  - split; [intros [? [=]]|intros [[=]|[=]]].
  - split; eauto.
  - split; eauto.
Qed.

Lemma handler_closing_block_iff chain event w :
  db_wf (World.db w) →
  settles_closed_channel event w →
  all_channels closing_block_iff_closed w →
  all_channels closing_block_iff_closed (final (handle_event chain event) w).
Proof.
  intros Hwf Hsettle Hinv. unfold all_channels in *.
  destruct (handler_channels chain event w Hwf) as [Heq|(c' & Hstep & Heq)];
    rewrite Heq; [done|].
  intros k c. rewrite lookup_insert. case_decide; [|by apply Hinv].
  intros [= <-]. eapply step_closing_block_iff; [done| |].
  - intros c tn cid bn -> Hold. apply (Hsettle c).
    inversion Hstep as [| | |c0 tn0 cid0 bn0 Hkey| | |]; subst.
    change (channel_key (Channel.set_state SETTLED c0))
      with (channel_key c0) in Hold.
    unfold Database.get_channel. by rewrite <- Hkey.
  - intros c Hold. by eapply Hinv.
Qed.

Lemma empty_db_wf w :
  Database.channels (World.db w) = ∅ → db_wf (World.db w).
Proof. intros Hempty k c. by rewrite Hempty, lookup_empty. Qed.

Lemma empty_all_channels P w :
  Database.channels (World.db w) = ∅ → all_channels P w.
Proof. intros Hempty k c. by rewrite Hempty, lookup_empty. Qed.

(** C8, as amended. In every state reached from an empty database by
    handling any sequence of events, every stored channel with a closing
    block is in state [CLOSED] or [SETTLED], and every stored channel in
    state [CLOSED] has a closing block. The equivalence of I2 holds in all
    those states when no ChannelSettled event is handled for a channel
    whose closing block is not recorded. *)
Theorem closing_block_invariant events w :
  Database.channels (World.db w) = ∅ →
  all_channels closing_block_consistent (process_events events w)
  ∧ (each_event settles_closed_channel events w →
     all_channels closing_block_iff_closed (process_events events w)).
Proof.
  intros Hempty. split.
  - apply (process_events_ind
             (λ w, db_wf (World.db w)
                   ∧ all_channels closing_block_consistent w)
             (λ _ _, True)).
    + intros chain event w0 [Hwf Hinv] _.
      split; [by apply handler_wf|by apply handler_closing_block_consistent].
    + split; [by apply empty_db_wf|by apply empty_all_channels].
    + clear. revert w.
      induction events as [|[chain event] events IH]; intros w; cbn; auto.
  - intros Hsettle.
    apply (process_events_ind
             (λ w, db_wf (World.db w)
                   ∧ all_channels closing_block_iff_closed w)
             settles_closed_channel); [| |done].
    + intros chain event w0 [Hwf Hinv] Hs.
      split; [by apply handler_wf|by apply handler_closing_block_iff].
    + split; [by apply empty_db_wf|by apply empty_all_channels].
Qed.

(** C8, counterexample. A ChannelSettled event for a channel that was
    opened and never closed leaves it in state [SETTLED] without closing
    block. *)
Lemma settled_without_closing_block :
  ¬ all_channels closing_block_iff_closed
      (process_events settling_unclosed_events Scenario.initial).
Proof.
  intros Hinv.
  specialize (Hinv ("TN", 1) (Channel.set_state SETTLED Scenario.channel)).
  assert (Hsome : is_Some (Channel.closing_block
                             (Channel.set_state SETTLED Scenario.channel))).
  { apply Hinv; [by vm_compute|by right]. }
  by destruct Hsome as [? [=]].
Qed.

(** ** The persisted head block *)

(** What a handler does to the persisted [latest_known_block]: the
    UpdatedHeadBlock handler stores the number of its event, the others
    leave it alone. *)
Lemma handler_persisted_block chain event w :
  persisted_latest_known_block (final (handle_event chain event) w)
  = match event with
    | UpdatedHeadBlockEvent head_block_number => head_block_number
    | _ => persisted_latest_known_block w
    end.
Proof.
  unfold handle_event, persisted_latest_known_block.
  destruct event; cbn [HANDLERS].
  - done.
  - unfold channel_closed_event_handler. crunch; eauto.
  - unfold non_closing_balance_proof_updated_event_handler. crunch; eauto.
  - unfold channel_settled_event_handler. crunch; eauto.
  - unfold monitor_new_balance_proof_event_handler, schedule_claim_reward.
    crunch; eauto.
  - done.
  - done.
  - unfold action_monitoring_triggered_event_handler, _is_mr_valid.
    crunch; eauto.
  - unfold action_claim_reward_triggered_event_handler. crunch; eauto.
Qed.

Lemma handler_persisted_block_le chain event w :
  head_not_behind event w →
  persisted_latest_known_block w
  <= persisted_latest_known_block (final (handle_event chain event) w).
Proof.
  intros Hhead. rewrite handler_persisted_block.
  destruct event; cbn in Hhead; lia.
Qed.

Lemma process_events_persisted_block_le events w :
  each_event head_not_behind events w →
  persisted_latest_known_block w
  <= persisted_latest_known_block (process_events events w).
Proof.
  revert w. induction events as [|[chain event] events IH]; intros w Hhead;
    cbn in *; [lia|].
  destruct Hhead as [Hhead Hrest].
  pose proof (handler_persisted_block_le chain event w Hhead).
  specialize (IH _ Hrest). unfold final in *. lia.
Qed.

(** C9, as amended. The UpdatedHeadBlock handler persists the head block
    number of its event, whatever was stored; every other handler leaves the
    persisted [latest_known_block] as it is. So along a sequence of events
    in which every UpdatedHeadBlock event carries a number not below the one
    persisted when it is handled, the persisted [latest_known_block] never
    decreases. *)
Theorem latest_known_block_follows_head_events :
  (∀ chain event w,
     persisted_latest_known_block (final (handle_event chain event) w)
     = match event with
       | UpdatedHeadBlockEvent head_block_number => head_block_number
       | _ => persisted_latest_known_block w
       end)
  ∧ (∀ events w,
       each_event head_not_behind events w →
       latest_known_block_never_regresses events w).
Proof.
  split; [apply handler_persisted_block|].
  intros events w Hhead pre post ->.
  apply each_event_app in Hhead as [_ Hpost].
  rewrite process_events_app.
  by apply process_events_persisted_block_le.
Qed.

(** C9, counterexample. An UpdatedHeadBlock event with a number below the
    persisted one is stored all the same: 150 is followed by 120. *)
Lemma latest_known_block_regresses :
  ¬ latest_known_block_never_regresses regressing_events Scenario.initial.
Proof.
  intros Hmono.
  specialize (Hmono (take 1 regressing_events) (drop 1 regressing_events)
                eq_refl).
  vm_compute in Hmono. by apply Hmono.
Qed.

Example regressing_blocks :
  persisted_latest_known_block
    (process_events (take 1 regressing_events) Scenario.initial) = 150
  ∧ persisted_latest_known_block
      (process_events regressing_events Scenario.initial) = 120.
Proof. by vm_compute. Qed.

(** ** Events that do not fit the stored state *)

Lemma dropped_event_logged chain event w :
  dropped event w →
  outcome (handle_event chain event) w = Return tt
  ∧ World.context (final (handle_event chain event) w) = World.context w
  ∧ World.submitted (final (handle_event chain event) w) = World.submitted w
  ∧ ∃ msg, List.last (World.log (final (handle_event chain event) w))
             (INFO, "") = (ERROR, msg).
Proof.
  unfold handle_event, dropped, Channel.participants.
  destruct event; cbn [HANDLERS]; try done; intros Hdrop.
  - unfold channel_closed_event_handler. unfold_monad. rewrite Hdrop. cbn.
    rewrite last_last. eauto.
  - unfold non_closing_balance_proof_updated_event_handler. unfold_monad.
    destruct (Database.get_channel _ _ _) as [channel|]; cbn;
      [|rewrite last_last; eauto].
    destruct Hdrop as [Hout|(status & Hstatus & Hle)].
    + rewrite !bool_decide_eq_false_2 by set_solver. cbn.
      rewrite last_last. eauto.
    + rewrite Hstatus. apply Z.leb_le in Hle. rewrite Hle.
      repeat case_bool_decide; cbn; rewrite last_last; eauto.
  - unfold channel_settled_event_handler. unfold_monad. rewrite Hdrop. cbn.
    rewrite last_last. eauto.
  - unfold monitor_new_balance_proof_event_handler. unfold_monad.
    destruct (Database.get_channel _ _ _) as [channel|]; cbn;
      [|rewrite last_last; eauto].
    destruct Hdrop as (status & Hstatus & Hlt).
    rewrite Hstatus. apply Z.ltb_lt in Hlt. rewrite Hlt. cbn.
    rewrite last_last. eauto.
Qed.

Lemma action_without_target_returns chain event w :
  action_without_target event w →
  outcome (handle_event chain event) w = Return tt
  ∧ World.context (final (handle_event chain event) w) = World.context w
  ∧ World.submitted (final (handle_event chain event) w) = World.submitted w.
Proof.
  unfold handle_event, action_without_target.
  destruct event; cbn [HANDLERS]; try done; intros Hmiss.
  - unfold action_monitoring_triggered_event_handler. unfold_monad. cbn.
    destruct (Database.get_monitor_request _ _ _ _) as [mr|]; cbn; [|done].
    by rewrite Hmiss.
  - unfold action_claim_reward_triggered_event_handler. unfold_monad. cbn.
    destruct (Database.get_monitor_request _ _ _ _) as [mr|]; cbn; [|done].
    by rewrite Hmiss.
Qed.

(** C10, as amended. A MonitorNewBalanceProof event that names the service
    itself, for a stored channel without closing block, and that passes the
    nonce check, makes the handler store the update and then fail the
    assertion: it raises [AssertionError] and schedules nothing. A chain
    event whose channel is not stored, an update whose closing participant
    is outside the pair, and an update dropped by its nonce check are logged
    as errors and dropped: the handler returns normally and the context is
    unchanged. A scheduled action whose monitor request or channel is not
    stored returns normally as well, changing nothing. *)
Theorem events_not_fitting_the_state chain w :
  (∀ tn cid reward_amount nonce raiden_node_address block_number channel,
     Database.get_channel tn cid (World.db w) = Some channel →
     Channel.closing_block channel = None →
     (∀ status, Channel.update_status channel = Some status →
                nonce >= OnChainUpdateStatus.nonce status) →
     let ms_address :=
       MonitoringServiceState.address (Context.ms_state (World.context w)) in
     let run :=
       monitor_new_balance_proof_event_handler chain
         (ReceiveMonitoringNewBalanceProofEvent tn cid reward_amount nonce
            ms_address raiden_node_address block_number) in
     outcome run w = Raise AssertionError
     ∧ World.db (final run w)
       = Database.upsert_channel
           (Channel.set_update_status
              (Some (OnChainUpdateStatus.mk ms_address nonce)) channel)
           (World.db w))
  ∧ (∀ event,
       dropped event w →
       outcome (handle_event chain event) w = Return tt
       ∧ World.context (final (handle_event chain event) w) = World.context w
       ∧ World.submitted (final (handle_event chain event) w)
         = World.submitted w
       ∧ ∃ msg, List.last (World.log (final (handle_event chain event) w))
                  (INFO, "") = (ERROR, msg))
  ∧ (∀ event,
       action_without_target event w →
       outcome (handle_event chain event) w = Return tt
       ∧ World.context (final (handle_event chain event) w) = World.context w
       ∧ World.submitted (final (handle_event chain event) w)
         = World.submitted w).
Proof.
  split; [|split; intros event; [apply dropped_event_logged
                                |apply action_without_target_returns]].
  intros tn cid reward nonce rna bn channel Hget Hcb Hfresh ms_address run.
  subst run ms_address.
  unfold monitor_new_balance_proof_event_handler, schedule_claim_reward.
  unfold_monad. rewrite Hget. cbn.
  destruct (Channel.update_status channel) as [status|] eqn:Hstatus; cbn.
  - specialize (Hfresh status eq_refl).
    assert (Hnlt : (nonce <? OnChainUpdateStatus.nonce status) = false)
      by (apply Z.ltb_ge; lia).
    rewrite Hnlt. cbn. rewrite bool_decide_eq_true_2 by done.
    by rewrite Hcb.
  - rewrite bool_decide_eq_true_2 by done. by rewrite Hcb.
Qed.

(** C10, counterexample. For a channel that is stored without closing block
    and with an on-chain nonce of 8, the service's own event with nonce 5 is
    dropped by the nonce check: the handler returns before it reaches the
    assertion. *)
Lemma stale_event_returns_before_assertion :
  ¬ asserts_without_closing_block (Scenario.chain 30) "TN" 1 10 5 "B" 152
      (Scenario.world_with updated_open_channel []).
Proof.
  intros Hassert.
  specialize (Hassert updated_open_channel eq_refl eq_refl).
  vm_compute in Hassert. discriminate Hassert.
Qed.

(** ** The scenarios of the specification, run *)

Example happy_path_run :
  let w := process_events Scenario.happy_path
             (Scenario.start [Scenario.request 10]) in
  World.submitted w
  = [MonitorTx (Scenario.request 10) "MS"; ClaimRewardTx 1 "TN" "A" "B" "MS"]
  ∧ Database.scheduled_events (World.db w)
    = [ScheduledEvent.mk 166 (ActionMonitoringTriggeredEvent "TN" 1 "B");
       ScheduledEvent.mk 175 (ActionClaimRewardTriggeredEvent "TN" 1 "B")]
  ∧ Database.waiting_transactions (World.db w) = ["0x6831"; "0x6832"]
  ∧ Database.get_channel "TN" 1 (World.db w)
    = Some (Channel.mk "TN" 1 "A" "B" 20 SETTLED (Some 150) (Some "A")
              (Some "h1") (Some "h2")
              (Some (OnChainUpdateStatus.mk "MS" 5)))
  ∧ persisted_latest_known_block w = 175.
Proof. by vm_compute. Qed.

(** Scenario 2: with a deposit of 15 and a reward of 10 the gate fails. *)
Example insufficient_deposit_run :
  World.submitted
    (final (action_monitoring_triggered_event_handler (Scenario.chain 15)
              (ActionMonitoringTriggeredEvent "TN" 1 "B"))
       (Scenario.world_with Scenario.closed_channel [Scenario.request 10]))
  = [].
Proof. by vm_compute. Qed.

(** Scenario 4: a channel with settle timeout 10 closed at block 50, seen
    when the last known block is 100, is closed without a MONITOR action. *)
Example late_close_run :
  let w := final (channel_closed_event_handler (Scenario.chain 30)
                    (ReceiveChannelClosedEvent "TN" 1 "A" 50))
             (Scenario.world_with (Channel.new "TN" 1 "A" "B" 10) []) in
  Database.scheduled_events (World.db w) = []
  ∧ (Channel.state <$> Database.get_channel "TN" 1 (World.db w))
    = Some CLOSED.
Proof. by vm_compute. Qed.

(** [round(settle_timeout * 0.8)] on a few settle timeouts: ties of the
    binary64 product go to the even neighbour, as in Python. *)
Example client_update_periods :
  List.map
    (λ n, round_int_times_float n RATIO_OF_SETTLE_TIMEOUT_BEFORE_MONITOR)
    [0; 1; 2; 3; 5; 15; 20; 500; 555428]
  = [inr 0; inr 1; inr 2; inr 2; inr 4; inr 12; inr 16; inr 400; inr 444342].
Proof. by vm_compute. Qed.

(** On the settle timeouts below 4096 the binary64 product rounds to the
    nearest integer of the exact product. *)
Example client_update_period_is_nearest :
  rounds_to_nearest 4096 0 = true.
Proof. by vm_compute. Qed.

Example the_ratio_is_the_nearest_double :
  SFdiv prec emax (binary_normalize prec emax 8 0 false)
    (binary_normalize prec emax 10 0 false)
  = RATIO_OF_SETTLE_TIMEOUT_BEFORE_MONITOR.
Proof. by vm_compute. Qed.

(** ** The theorems at work on the scenarios *)

(** C1 on the happy path: the request passes the gate, and the [monitor]
    transaction is the one submitted. *)
Lemma monitor_submitted_in_happy_path :
  World.submitted
    (final (action_monitoring_triggered_event_handler (Scenario.chain 30)
              (ActionMonitoringTriggeredEvent "TN" 1 "B"))
       (Scenario.world_with Scenario.closed_channel [Scenario.request 10]))
  = [MonitorTx (Scenario.request 10) "MS"].
Proof.
  apply (proj1 (proj2 (monitor_submitted_iff_gate (Scenario.chain 30)
                         "TN" 1 "B"
                         (Scenario.world_with Scenario.closed_channel
                            [Scenario.request 10])))
           (Scenario.request 10) Scenario.closed_channel 30).
  split; [reflexivity|]. split; [reflexivity|].
  split; [apply (bool_decide_unpack _); vm_compute; exact I|].
  split; [reflexivity|].
  apply (bool_decide_unpack _); vm_compute; exact I.
Defined.

(** C2 on the happy path: closing at block 150 with settle timeout 20
    schedules the MONITOR action for B at block 166. *)
Lemma monitor_scheduled_in_happy_path :
  World.db
    (final (channel_closed_event_handler (Scenario.chain 30)
              (ReceiveChannelClosedEvent "TN" 1 "A" 150))
       (Scenario.world_with Scenario.channel []))
  = Database.upsert_channel Scenario.closed_channel
      (Database.upsert_scheduled_event
         (ScheduledEvent.mk 166 (ActionMonitoringTriggeredEvent "TN" 1 "B"))
         (World.db (Scenario.world_with Scenario.channel []))).
Proof.
  assert (Hrange : 0 <= Channel.settle_timeout Scenario.channel < 2 ^ 256)
    by (vm_compute; split; [discriminate|reflexivity]).
  assert (Hnot : ¬ 150 + Channel.settle_timeout Scenario.channel
                   < Context.last_known_block
                       (World.context
                          (Scenario.world_with Scenario.channel [])))
    by (vm_compute; discriminate).
  destruct (proj1 (proj2 (proj2 (channel_closed_closes_and_schedules
                                   (Scenario.chain 30) "TN" 1 "A" 150
                                   Scenario.channel
                                   (Scenario.world_with Scenario.channel [])
                                   eq_refl Hrange)))
              Hnot) as (period & Hperiod & Hdb).
  vm_compute in Hperiod. injection Hperiod as <-. exact Hdb.
Defined.

(** C4 on a channel whose stored nonce is 8: the participant's update with
    nonce 8 is dropped, the monitoring service's event with nonce 8 is
    stored. *)
Lemma equal_nonce_dropped_or_stored :
  let w := Scenario.world_with updated_open_channel [] in
  World.context
    (final (non_closing_balance_proof_updated_event_handler
              (Scenario.chain 30)
              (ReceiveNonClosingBalanceProofUpdatedEvent "TN" 1 "A" 8 151))
       w)
  = World.context w
  ∧ Database.channels
      (World.db
         (final (monitor_new_balance_proof_event_handler (Scenario.chain 30)
                   (ReceiveMonitoringNewBalanceProofEvent "TN" 1 10 8 "C" "B"
                      152))
            w))
    = Database.channels
        (Database.upsert_channel
           (Channel.set_update_status
              (Some (OnChainUpdateStatus.mk "C" 8)) updated_open_channel)
           (World.db w)).
Proof.
  intros w.
  pose proof (update_status_nonce_checks (Scenario.chain 30) "TN" 1
                updated_open_channel (OnChainUpdateStatus.mk "B" 8) w
                "A" 8 151 10 8 "C" "B" 152 eq_refl eq_refl)
    as (Hdrop & _ & _ & Hstore & _).
  split.
  - apply Hdrop. vm_compute. discriminate.
  - apply Hstore. vm_compute. discriminate.
Defined.

(** C5 on the happy path: our own update of the channel closed at block 150
    schedules CLAIM_REWARD at block 175. *)
Lemma claim_scheduled_in_happy_path :
  let w := Scenario.world_with Scenario.closed_channel [] in
  World.db
    (final (monitor_new_balance_proof_event_handler (Scenario.chain 30)
              (ReceiveMonitoringNewBalanceProofEvent "TN" 1 10 5 "MS" "B"
                 167))
       w)
  = Database.upsert_scheduled_event
      (ScheduledEvent.mk 175 (ActionClaimRewardTriggeredEvent "TN" 1 "B"))
      (Database.upsert_channel Scenario.monitored_channel (World.db w)).
Proof.
  intros w.
  refine (proj2 (claim_reward_scheduled (Scenario.chain 30) "TN" 1 10 5 "MS"
                   "B" 167 Scenario.closed_channel 150 w eq_refl eq_refl _
                   eq_refl)).
  intros status Hstatus. discriminate Hstatus.
Defined.

(** C6 on the happy path: the eligible claim is submitted. *)
Lemma claim_submitted_in_happy_path :
  World.submitted
    (final (action_claim_reward_triggered_event_handler (Scenario.chain 30)
              (ActionClaimRewardTriggeredEvent "TN" 1 "B"))
       (Scenario.world_with Scenario.monitored_channel
          [Scenario.request 10]))
  = [ClaimRewardTx 1 "TN" "A" "B" "MS"].
Proof.
  refine (proj2 (proj2 (claim_submitted_iff_gate (Scenario.chain 30) "TN" 1
                          "B"
                          (Scenario.world_with Scenario.monitored_channel
                             [Scenario.request 10]))
                   (Scenario.request 10) Scenario.monitored_channel _)).
  split; [reflexivity|]. split; [reflexivity|].
  apply (bool_decide_unpack _); vm_compute; exact I.
Defined.

(** C7 with a chain on which both calls raise. *)
Lemma failed_calls_in_happy_path :
  let w1 := Scenario.world_with Scenario.closed_channel
              [Scenario.request 10] in
  let w2 := Scenario.world_with Scenario.monitored_channel
              [Scenario.request 10] in
  World.context
    (final (action_monitoring_triggered_event_handler Scenario.failing_chain
              (ActionMonitoringTriggeredEvent "TN" 1 "B")) w1)
  = World.context w1
  ∧ World.context
      (final (action_claim_reward_triggered_event_handler
                Scenario.failing_chain
                (ActionClaimRewardTriggeredEvent "TN" 1 "B")) w2)
    = World.context w2.
Proof.
  intros w1 w2. split.
  - refine (proj1 (proj2 (proj2 (proj1
             (failed_submission_changes_nothing Scenario.failing_chain
                "TN" 1 "B" w1 (Scenario.request 10) Scenario.closed_channel
                eq_refl eq_refl)
             30 _ eq_refl _ eq_refl)))).
    + apply (bool_decide_unpack _); vm_compute; exact I.
    + apply (bool_decide_unpack _); vm_compute; exact I.
  - refine (proj1 (proj2 (proj2 (proj2
             (failed_submission_changes_nothing Scenario.failing_chain
                "TN" 1 "B" w2 (Scenario.request 10)
                Scenario.monitored_channel eq_refl eq_refl)
             _ eq_refl)))).
    apply (bool_decide_unpack _); vm_compute; exact I.
Defined.

(** C3 on the happy path, which opens its channel once. *)
Lemma nonce_never_decreases_in_happy_path :
  nonce_never_decreases Scenario.happy_path
    (Scenario.start [Scenario.request 10]).
Proof.
  apply (proj2 nonce_never_decreases_without_reopening).
  - apply empty_db_wf. reflexivity.
  - vm_compute. repeat split.
Defined.

(** C8 on the happy path, which settles its channel after closing it. *)
Lemma closing_block_iff_closed_in_happy_path :
  all_channels closing_block_iff_closed
    (process_events Scenario.happy_path
       (Scenario.start [Scenario.request 10])).
Proof.
  apply (proj2 (closing_block_invariant Scenario.happy_path
                  (Scenario.start [Scenario.request 10]) eq_refl)).
  vm_compute. repeat split. intros c Hc. injection Hc as <-.
  exists 150. reflexivity.
Defined.

(** C9 on the happy path, whose head blocks are 166, 167 and 175. *)
Lemma latest_known_block_never_regresses_in_happy_path :
  latest_known_block_never_regresses Scenario.happy_path
    (Scenario.start [Scenario.request 10]).
Proof.
  apply (proj2 latest_known_block_follows_head_events).
  vm_compute. repeat split; discriminate.
Defined.

(** C10 on a channel that was opened and never closed: our own event fails
    the assertion. *)
Lemma assertion_fails_on_open_channel :
  outcome
    (monitor_new_balance_proof_event_handler (Scenario.chain 30)
       (ReceiveMonitoringNewBalanceProofEvent "TN" 1 10 5 "MS" "B" 152))
    (Scenario.world_with Scenario.channel [])
  = Raise AssertionError.
Proof.
  refine (proj1 (proj1 (events_not_fitting_the_state (Scenario.chain 30)
                          (Scenario.world_with Scenario.channel []))
                   "TN" 1 10 5 "B" 152 Scenario.channel eq_refl eq_refl _)).
  intros status Hstatus. discriminate Hstatus.
Defined.

(** ** What the handlers leave alone *)

(** X1. No handler touches the stored monitor requests, the service's own
    address, [min_reward], [last_known_block], or any field of the
    blockchain state other than [latest_known_block]. *)
Theorem handlers_keep_requests_and_configuration chain event w :
  let c := World.context w in
  let c' := World.context (final (handle_event chain event) w) in
  let b := MonitoringServiceState.blockchain_state (Context.ms_state c) in
  let b' := MonitoringServiceState.blockchain_state (Context.ms_state c') in
  Database.monitor_requests (Context.db c')
  = Database.monitor_requests (Context.db c)
  ∧ MonitoringServiceState.address (Context.ms_state c')
    = MonitoringServiceState.address (Context.ms_state c)
  ∧ Context.min_reward c' = Context.min_reward c
  ∧ Context.last_known_block c' = Context.last_known_block c
  ∧ BlockchainState.chain_id b' = BlockchainState.chain_id b
  ∧ BlockchainState.token_network_registry_address b'
    = BlockchainState.token_network_registry_address b
  ∧ BlockchainState.monitor_contract_address b'
    = BlockchainState.monitor_contract_address b
  ∧ BlockchainState.latest_committed_block b'
    = BlockchainState.latest_committed_block b.
Proof.
  unfold handle_event. destruct event; cbn [HANDLERS].
  - done.
  - unfold channel_closed_event_handler. crunch; eauto 10.
  - unfold non_closing_balance_proof_updated_event_handler.
    crunch; eauto 10.
  - unfold channel_settled_event_handler. crunch; eauto 10.
  - unfold monitor_new_balance_proof_event_handler, schedule_claim_reward.
    crunch; eauto 10.
  - done.
  - done.
  - unfold action_monitoring_triggered_event_handler, _is_mr_valid.
    crunch; eauto 10.
  - unfold action_claim_reward_triggered_event_handler. crunch; eauto 10.
Qed.

Ltac only_appended :=
  unfold Database.upsert_scheduled_event, Database.upsert_channel,
    Database.add_waiting_transaction in *;
  cbn;
  repeat case_bool_decide;
  repeat split;
  try (repeat apply prefix_app_r; reflexivity);
  try (rewrite ?length_app; cbn; lia);
  try (intros Hne; try done; exfalso; apply Hne; reflexivity);
  try (intros _ Heq; apply (f_equal length) in Heq;
       rewrite ?length_app in Heq; cbn in Heq; lia).

(** X2. A handler only ever appends: the scheduled events, the waiting
    transactions, the log and the transactions handed to the chain are kept
    in place and extended, the first two and the last by at most one entry.
    A transaction is handed to the chain only by the two scheduled actions,
    and a waiting transaction is added only when one was. *)
Theorem handlers_only_append chain event w :
  let d := World.db w in
  let w' := final (handle_event chain event) w in
  let d' := World.db w' in
  Database.scheduled_events d `prefix_of` Database.scheduled_events d'
  ∧ (length (Database.scheduled_events d')
     <= length (Database.scheduled_events d) + 1)%nat
  ∧ Database.waiting_transactions d
    `prefix_of` Database.waiting_transactions d'
  ∧ (length (Database.waiting_transactions d')
     <= length (Database.waiting_transactions d) + 1)%nat
  ∧ World.log w `prefix_of` World.log w'
  ∧ World.submitted w `prefix_of` World.submitted w'
  ∧ (length (World.submitted w') <= length (World.submitted w) + 1)%nat
  ∧ (World.submitted w' ≠ World.submitted w → is_action event)
  ∧ (Database.waiting_transactions d' ≠ Database.waiting_transactions d →
     World.submitted w' ≠ World.submitted w).
Proof.
  unfold handle_event. destruct event; cbn [HANDLERS].
  - unfold channel_opened_event_handler. crunch. only_appended.
  - unfold channel_closed_event_handler. crunch; only_appended.
  - unfold non_closing_balance_proof_updated_event_handler.
    crunch; only_appended.
  - unfold channel_settled_event_handler. crunch; only_appended.
  - unfold monitor_new_balance_proof_event_handler, schedule_claim_reward.
    crunch; only_appended.
  - unfold monitor_reward_claim_event_handler. crunch. only_appended.
  - unfold updated_head_block_event_handler. crunch. only_appended.
  - unfold action_monitoring_triggered_event_handler, _is_mr_valid.
    crunch; only_appended.
  - unfold action_claim_reward_triggered_event_handler.
    crunch; only_appended.
Qed.

(** ** When a handler raises *)

Lemma closed_handler_raises chain tn cid cp bn w e :
  outcome (channel_closed_event_handler chain
             (ReceiveChannelClosedEvent tn cid cp bn)) w = Raise e
  ↔ raises chain (ReceiveChannelClosedEvent tn cid cp bn) w e.
Proof.
  unfold raises, channel_closed_event_handler. unfold_monad. cbn.
  destruct (Database.get_channel tn cid _) as [channel|]; cbn.
  - destruct (_ <? _) eqn:Hlate; cbn.
    + split; [done|]. intros (c & [= <-] & Hnot & _).
      apply Z.ltb_lt in Hlate. done.
    + apply Z.ltb_nlt in Hlate.
      destruct (round_int_times_float _ _) as [e'|p] eqn:Hround; cbn.
      * split.
        -- intros [= <-]. by exists channel.
        -- intros (c & [= <-] & _ & Hr). congruence.
      * split; [done|]. intros (c & [= <-] & _ & Hr). congruence.
  - split; [done|]. by intros (c & [=] & _).
Qed.

Ltac raises_leaf channel :=
  cbn;
  try case_bool_decide; cbn;
  try destruct (Channel.closing_block channel) eqn:?; cbn;
  (split;
   [intros Hr;
    first [discriminate Hr
          |injection Hr as <-;
           split; [done|]; split; [done|]; exists channel;
           split; [done|]; split; [done|];
           intros s Hs; simplify_eq; lia]
   |intros (He & Hms' & c & Hget & Hcb' & Hfresh); simplify_eq;
    first [done|congruence
          |match goal with
           | Hs : Channel.update_status _ = Some _ |- _ =>
               specialize (Hfresh _ Hs); lia
           end]]).

Lemma monitoring_update_raises chain tn cid reward nonce ms rna bn w e :
  outcome (monitor_new_balance_proof_event_handler chain
             (ReceiveMonitoringNewBalanceProofEvent tn cid reward nonce ms
                rna bn)) w = Raise e
  ↔ raises chain
      (ReceiveMonitoringNewBalanceProofEvent tn cid reward nonce ms rna bn)
      w e.
Proof.
  unfold raises, monitor_new_balance_proof_event_handler,
    schedule_claim_reward.
  unfold_monad. cbn.
  destruct (Database.get_channel tn cid _) as [channel|]; cbn;
    [|split; [done|by intros (_ & _ & c & [=] & _)]].
  destruct (Channel.update_status channel) as [status|] eqn:Hstatus; cbn.
  - destruct (nonce <? OnChainUpdateStatus.nonce status) eqn:Hlt.
    + apply Z.ltb_lt in Hlt. raises_leaf channel.
    + apply Z.ltb_ge in Hlt. raises_leaf channel.
  - raises_leaf channel.
Qed.

Lemma monitoring_action_raises chain tn cid ncp w e :
  outcome (action_monitoring_triggered_event_handler chain
             (ActionMonitoringTriggeredEvent tn cid ncp)) w = Raise e
  ↔ raises chain (ActionMonitoringTriggeredEvent tn cid ncp) w e.
Proof.
  unfold raises, action_monitoring_triggered_event_handler, outcome.
  unfold bind at 1. cbn [log_info emit fst snd].
  unfold bind at 1, db_get_monitor_request at 1.
  unfold World.db. cbn [World.context].
  destruct (Database.get_monitor_request tn cid ncp _) as [mr|];
    [|cbn; split; [done|by intros (_ & ? & ? & [=] & _)]].
  unfold bind at 1, db_get_channel at 1.
  unfold World.db. cbn [World.context].
  destruct (Database.get_channel _ _ _) as [channel|] eqn:Hch;
    [|cbn; split; [done|intros (_ & ? & ? & [= <-] & ? & _); congruence]].
  unfold bind at 1.
  match goal with |- context [_is_mr_valid mr channel ?w0] =>
    destruct (is_mr_valid_spec mr channel w0) as (w1 & -> & Hc & Hs) end.
  destruct (bool_decide (mr_valid_for_pair mr channel)) eqn:Hv.
  - apply bool_decide_eq_true in Hv. cbn [negb].
    unfold bind at 1, call.
    destruct (Chain.effectiveBalance chain _) as [user_deposit|] eqn:Hd.
    + unfold ret at 1. unfold_monad.
      split.
      * intros Hr. exfalso. revert Hr.
        destruct (MonitorRequest.reward_amount mr <? _); cbn;
          destruct (_ && _ && _ && _); cbn; try done;
          destruct (Chain.monitor chain mr _); cbn; done.
      * intros (_ & mr' & c' & [= <-] & _ & _ & Hnone). congruence.
    + unfold raise. cbn. split.
      * intros [= <-]. split; [done|]. by exists mr, channel.
      * by intros (-> & _).
  - apply bool_decide_eq_false in Hv. cbn [negb]. unfold ret. cbn.
    split; [done|]. intros (_ & mr' & c' & [= <-] & Hc' & Hv' & _).
    rewrite Hch in Hc'. by injection Hc' as <-.
Qed.

(** X3. Handling an event ends in an exception in exactly three situations:
    the ChannelClosed handler when [round(settle_timeout * 0.8)] overflows
    for a stored channel whose settle period is not over; the
    MonitorNewBalanceProof handler, with [AssertionError], when the event
    names the service itself, passes the nonce check and the stored channel
    has no closing block; and the MONITOR action, with the error of the
    chain, when the balance query raises for a valid stored request. A
    failing [transact] never makes a handler raise. *)
Theorem handler_raises_iff chain event w e :
  outcome (handle_event chain event) w = Raise e ↔ raises chain event w e.
Proof.
  unfold handle_event. destruct event; cbn [HANDLERS].
  - done.
  - apply closed_handler_raises.
  - unfold non_closing_balance_proof_updated_event_handler, raises.
    split; [|done]. crunch; done.
  - unfold channel_settled_event_handler, raises.
    split; [|done]. crunch; done.
  - apply monitoring_update_raises.
  - done.
  - done.
  - apply monitoring_action_raises.
  - unfold action_claim_reward_triggered_event_handler, raises.
    split; [|done]. crunch; done.
Qed.

(** ** Transactions that went through *)

(** X4. When a MONITOR action passes the gate and the [monitor] call returns
    a transaction hash, the handler returns normally, the transaction is the
    one handed to the chain, the hex encoding of the hash is appended to the
    waiting transactions, the channel is stored with that hash as
    [closing_tx_hash], and the rest of the context is as it was. *)
Theorem monitor_submission_recorded
    chain tn cid ncp w mr channel user_deposit tx_hash :
  Database.get_monitor_request tn cid ncp (World.db w) = Some mr →
  Database.get_channel (MonitorRequest.token_network_address mr)
    (MonitorRequest.channel_identifier mr) (World.db w) = Some channel →
  mr_valid_for_pair mr channel →
  Chain.effectiveBalance chain (MonitorRequest.non_closing_signer mr)
  = Some user_deposit →
  monitor_gate mr channel user_deposit
    (Context.min_reward (World.context w)) →
  let sender :=
    MonitoringServiceState.address (Context.ms_state (World.context w)) in
  Chain.monitor chain mr sender = Some tx_hash →
  let run := action_monitoring_triggered_event_handler chain
               (ActionMonitoringTriggeredEvent tn cid ncp) in
  let stored := Channel.set_closing_tx_hash (Some tx_hash) channel in
  outcome run w = Return tt
  ∧ World.submitted (final run w) = World.submitted w ++ [MonitorTx mr sender]
  ∧ World.context (final run w)
    = Context.set_db
        (Database.upsert_channel stored
           (Database.add_waiting_transaction (encode_hex tx_hash)
              (World.db w)))
        (World.context w)
  ∧ Database.waiting_transactions (World.db (final run w))
    = Database.waiting_transactions (World.db w) ++ [encode_hex tx_hash]
  ∧ Database.channels (World.db (final run w)) !! channel_key channel
    = Some stored
  ∧ Channel.closing_tx_hash stored = Some tx_hash.
Proof.
  intros Hmr Hch Hv Hd Hg sender Hsent run stored. subst run stored.
  destruct (monitoring_run_past_gate chain tn cid ncp w mr channel
              user_deposit Hmr Hch Hv Hd Hg) as [log Hrun].
  fold sender in Hrun. rewrite Hsent in Hrun.
  unfold outcome, final, World.db. rewrite Hrun. cbn.
  repeat split. apply lookup_insert_eq.
Qed.

(** X5. When a CLAIM_REWARD action is eligible and the [claimReward] call
    returns a transaction hash, the handler returns normally, the
    transaction is the one handed to the chain, the hex encoding of the hash
    is appended to the waiting transactions, the channel is stored with that
    hash as [claim_tx_hash], and the rest of the context is as it was. *)
Theorem claim_submission_recorded chain tn cid ncp w mr channel tx_hash :
  Database.get_monitor_request tn cid ncp (World.db w) = Some mr →
  Database.get_channel (MonitorRequest.token_network_address mr)
    (MonitorRequest.channel_identifier mr) (World.db w) = Some channel →
  let sender :=
    MonitoringServiceState.address (Context.ms_state (World.context w)) in
  claim_gate mr channel sender →
  Chain.claimReward chain (MonitorRequest.channel_identifier mr)
    (MonitorRequest.token_network_address mr) (MonitorRequest.signer mr)
    (MonitorRequest.non_closing_signer mr) sender = Some tx_hash →
  let run := action_claim_reward_triggered_event_handler chain
               (ActionClaimRewardTriggeredEvent tn cid ncp) in
  let stored := Channel.set_claim_tx_hash (Some tx_hash) channel in
  outcome run w = Return tt
  ∧ World.submitted (final run w)
    = World.submitted w ++
      [ClaimRewardTx (MonitorRequest.channel_identifier mr)
         (MonitorRequest.token_network_address mr) (MonitorRequest.signer mr)
         (MonitorRequest.non_closing_signer mr) sender]
  ∧ World.context (final run w)
    = Context.set_db
        (Database.upsert_channel stored
           (Database.add_waiting_transaction (encode_hex tx_hash)
              (World.db w)))
        (World.context w)
  ∧ Database.waiting_transactions (World.db (final run w))
    = Database.waiting_transactions (World.db w) ++ [encode_hex tx_hash]
  ∧ Database.channels (World.db (final run w)) !! channel_key channel
    = Some stored
  ∧ Channel.claim_tx_hash stored = Some tx_hash.
Proof.
  intros Hmr Hch sender Hg Hsent run stored. subst run stored.
  destruct (claim_run_past_gate chain tn cid ncp w mr channel Hmr Hch Hg)
    as [log Hrun].
  fold sender in Hrun. rewrite Hsent in Hrun.
  unfold outcome, final, World.db. rewrite Hrun. cbn.
  repeat split. apply lookup_insert_eq.
Qed.

(** X4 on the happy path: the hash [h1] is recorded. *)
Lemma monitor_submission_recorded_in_happy_path :
  Database.waiting_transactions
    (World.db
       (final (action_monitoring_triggered_event_handler (Scenario.chain 30)
                 (ActionMonitoringTriggeredEvent "TN" 1 "B"))
          (Scenario.world_with Scenario.closed_channel
             [Scenario.request 10])))
  = ["0x6831"].
Proof.
  refine (proj1 (proj2 (proj2 (proj2
            (monitor_submission_recorded (Scenario.chain 30) "TN" 1 "B"
               (Scenario.world_with Scenario.closed_channel
                  [Scenario.request 10])
               (Scenario.request 10) Scenario.closed_channel 30 "h1"
               eq_refl eq_refl _ eq_refl _ eq_refl))))).
  - apply (bool_decide_unpack _); vm_compute; exact I.
  - apply (bool_decide_unpack _); vm_compute; exact I.
Defined.

(** X5 on the happy path: the hash [h2] is recorded. *)
Lemma claim_submission_recorded_in_happy_path :
  Database.waiting_transactions
    (World.db
       (final (action_claim_reward_triggered_event_handler
                 (Scenario.chain 30)
                 (ActionClaimRewardTriggeredEvent "TN" 1 "B"))
          (Scenario.world_with Scenario.monitored_channel
             [Scenario.request 10])))
  = ["0x6832"].
Proof.
  refine (proj1 (proj2 (proj2 (proj2
            (claim_submission_recorded (Scenario.chain 30) "TN" 1 "B"
               (Scenario.world_with Scenario.monitored_channel
                  [Scenario.request 10])
               (Scenario.request 10) Scenario.monitored_channel "h2"
               eq_refl eq_refl _ eq_refl))))).
  apply (bool_decide_unpack _); vm_compute; exact I.
Defined.

(** ** Stored channels stay *)

Lemma monitoring_action_channels chain tn cid ncp w :
  db_wf (World.db w) →
  let channels := Database.channels (World.db w) in
  let channels' :=
    Database.channels
      (World.db (final (action_monitoring_triggered_event_handler chain
                          (ActionMonitoringTriggeredEvent tn cid ncp)) w)) in
  channels' = channels
  ∨ ∃ channel tx_hash,
      channels !! channel_key channel = Some channel
      ∧ Channel.closing_tx_hash channel = None
      ∧ channels'
        = <[channel_key channel :=
              Channel.set_closing_tx_hash (Some tx_hash) channel]> channels.
Proof.
  intros Hwf channels channels'. subst channels channels'.
  unfold action_monitoring_triggered_event_handler, _is_mr_valid.
  crunch; eauto;
    right;
    match goal with
    | H : Database.get_channel _ _ _ = Some ?c,
      G : _ && _ && _ && _ = true |- _ =>
        exists c; eexists;
        pose proof (get_channel_key _ _ _ _ Hwf H) as K;
        unfold Database.get_channel in H;
        rewrite !andb_true_iff, bool_decide_eq_true in G;
        rewrite K; repeat split; [exact H|tauto|];
        rewrite channels_upsert; unfold channel_key in *; cbn;
        by rewrite K
    end.
Qed.

Lemma claim_action_channels chain tn cid ncp w :
  db_wf (World.db w) →
  let channels := Database.channels (World.db w) in
  let channels' :=
    Database.channels
      (World.db (final (action_claim_reward_triggered_event_handler chain
                          (ActionClaimRewardTriggeredEvent tn cid ncp)) w)) in
  channels' = channels
  ∨ ∃ channel tx_hash,
      channels !! channel_key channel = Some channel
      ∧ Channel.claim_tx_hash channel = None
      ∧ channels'
        = <[channel_key channel :=
              Channel.set_claim_tx_hash (Some tx_hash) channel]> channels.
Proof.
  intros Hwf channels channels'. subst channels channels'.
  unfold action_claim_reward_triggered_event_handler.
  crunch; eauto;
    right;
    match goal with
    | H : Database.get_channel _ _ _ = Some ?c,
      G : _ && _ = true |- _ =>
        exists c; eexists;
        pose proof (get_channel_key _ _ _ _ Hwf H) as K;
        unfold Database.get_channel in H;
        rewrite !andb_true_iff, bool_decide_eq_true in G;
        rewrite K; repeat split; [exact H|tauto|];
        rewrite channels_upsert; unfold channel_key in *; cbn;
        by rewrite K
    end.
Qed.

Lemma channel_kept_refl c : channel_kept c c.
Proof. unfold channel_kept. repeat split; auto. Qed.

Lemma step_channel_kept event c c' :
  channel_step event (Some c) c' →
  (∀ tn cid p1 p2 st bn, event ≠ ReceiveChannelOpenedEvent tn cid p1 p2 st bn) →
  (∀ tn cid ncp, event ≠ ActionMonitoringTriggeredEvent tn cid ncp) →
  (∀ tn cid ncp, event ≠ ActionClaimRewardTriggeredEvent tn cid ncp) →
  channel_kept c c'.
Proof.
  intros Hstep Hopen Hmon Hclaim.
  inversion Hstep; subst;
    try (by unfold channel_kept; cbn; repeat split; auto).
  - by destruct (Hopen tn cid p1 p2 settle_timeout block_number).
  - by destruct (Hmon tn cid non_closing_participant).
  - by destruct (Hclaim tn cid non_closing_participant).
Qed.

(** X6. No handler removes a stored channel, and, apart from a ChannelOpened
    event for an identity that is already stored, no handler changes the
    identity, the participants or the settle timeout of a stored channel or
    replaces a [closing_tx_hash] or [claim_tx_hash] once it is recorded. *)
Theorem stored_channel_kept chain event w k c :
  db_wf (World.db w) →
  opens_new_channel event w →
  Database.channels (World.db w) !! k = Some c →
  ∃ c',
    Database.channels (World.db (final (handle_event chain event) w)) !! k
    = Some c'
    ∧ channel_kept c c'.
Proof.
  intros Hwf Hnew Hc.
  destruct event as [tn cid p1 p2 st bn| | | | | | |tn cid ncp|tn cid ncp].
  8:{ unfold handle_event. cbn [HANDLERS].
      destruct (monitoring_action_channels chain tn cid ncp w Hwf)
        as [->|(channel & h & Hold & Hnone & ->)];
        [exists c; split; [done|apply channel_kept_refl]|].
      rewrite lookup_insert. case_decide as Hk;
        [|exists c; split; [done|apply channel_kept_refl]].
      subst k. rewrite Hold in Hc. injection Hc as ->.
      eexists. split; [done|]. unfold channel_kept. cbn.
      repeat split; auto. intros h' Hh'. congruence. }
  8:{ unfold handle_event. cbn [HANDLERS].
      destruct (claim_action_channels chain tn cid ncp w Hwf)
        as [->|(channel & h & Hold & Hnone & ->)];
        [exists c; split; [done|apply channel_kept_refl]|].
      rewrite lookup_insert. case_decide as Hk;
        [|exists c; split; [done|apply channel_kept_refl]].
      subst k. rewrite Hold in Hc. injection Hc as ->.
      eexists. split; [done|]. unfold channel_kept. cbn.
      repeat split; auto. intros h' Hh'. congruence. }
  all: match goal with
       | |- context [handle_event ?ch ?ev] =>
           destruct (handler_channels ch ev _ Hwf)
             as [Heq|(c' & Hstep & Heq)]; cbv zeta in Heq; rewrite Heq;
             [exists c; split; [done|apply channel_kept_refl]|]
       end;
       rewrite lookup_insert; (case_decide as Hk;
         [|exists c; split; [done|apply channel_kept_refl]]);
       subst k; rewrite Hc in Hstep; exists c'; (split; [done|]).
  - inversion Hstep; subst. cbn in Hnew.
    unfold Database.get_channel in Hnew.
    unfold channel_key in Hc. cbn in Hc. congruence.
  - apply (step_channel_kept _ _ _ Hstep); done.
  - apply (step_channel_kept _ _ _ Hstep); done.
  - apply (step_channel_kept _ _ _ Hstep); done.
  - apply (step_channel_kept _ _ _ Hstep); done.
  - inversion Hstep.
  - inversion Hstep.
Qed.

Lemma world_with_wf c requests :
  channel_key c = ("TN", 1) →
  db_wf (World.db (Scenario.world_with c requests)).
Proof.
  intros Hkey k c' Hk.
  change (({[("TN", 1) := c]} : gmap (Address * Z) Channel.t) !! k = Some c')
    in Hk.
  apply lookup_singleton_Some in Hk as [<- <-]. done.
Qed.

(** X6 on a monitored channel: a second MONITOR action keeps the hash. *)
Lemma closing_tx_hash_kept_in_happy_path :
  ∃ c',
    Database.channels
      (World.db
         (final (handle_event (Scenario.chain 30)
                   (ActionMonitoringTriggeredEvent "TN" 1 "B"))
            (Scenario.world_with
               (Channel.set_closing_tx_hash (Some "h1")
                  Scenario.closed_channel)
               [Scenario.request 10])))
    !! ("TN", 1) = Some c'
    ∧ Channel.closing_tx_hash c' = Some "h1".
Proof.
  destruct (stored_channel_kept (Scenario.chain 30)
              (ActionMonitoringTriggeredEvent "TN" 1 "B")
              (Scenario.world_with
                 (Channel.set_closing_tx_hash (Some "h1")
                    Scenario.closed_channel)
                 [Scenario.request 10])
              ("TN", 1)
              (Channel.set_closing_tx_hash (Some "h1")
                 Scenario.closed_channel))
    as (c' & Hc' & Hkept).
  - apply world_with_wf. reflexivity.
  - exact I.
  - reflexivity.
  - exists c'. split; [exact Hc'|].
    apply (proj1 (proj2 (proj2 (proj2 (proj2 Hkept))))). reflexivity.
Defined.

(** ** The validity of a monitor request *)

(** X7. [_is_mr_valid] never raises and changes nothing but the log. It
    answers [True] exactly when the two signers of the request are the two
    participants of the channel, one each, which are then distinct; it logs
    one line exactly when it answers [False]. *)
Theorem is_mr_valid_iff mr channel w :
  let signers_are_participants :=
    (MonitorRequest.signer mr = Channel.participant1 channel
     ∧ MonitorRequest.non_closing_signer mr = Channel.participant2 channel
     ∨ MonitorRequest.signer mr = Channel.participant2 channel
       ∧ MonitorRequest.non_closing_signer mr = Channel.participant1 channel)
    ∧ Channel.participant1 channel ≠ Channel.participant2 channel in
  ∃ valid,
    outcome (_is_mr_valid mr channel) w = Return valid
    ∧ (valid = true ↔ signers_are_participants)
    ∧ World.context (final (_is_mr_valid mr channel) w) = World.context w
    ∧ World.submitted (final (_is_mr_valid mr channel) w) = World.submitted w
    ∧ ∃ line,
        World.log (final (_is_mr_valid mr channel) w)
        = World.log w ++ (if valid then [] else [(INFO, line)]).
Proof.
  intros signers_are_participants. subst signers_are_participants.
  unfold _is_mr_valid, Channel.participants, outcome, final.
  repeat case_bool_decide; cbn;
    eexists; (split; [reflexivity|]);
    (split; [|split; [reflexivity|split; [reflexivity|]]]);
    try (eexists; rewrite ?app_nil_r; reflexivity);
    try (exists EmptyString; rewrite ?app_nil_r; reflexivity);
    (split; [try done|]);
    repeat match goal with
           | H : _ ∈ _ :: _ |- _ => apply elem_of_cons in H as [H|H]
           | H : _ ∈ [] |- _ => by apply elem_of_nil in H
           | H : ¬ _ ∈ _ |- _ => rewrite !elem_of_cons, elem_of_nil in H
           end;
    intros; try split; try congruence; try tauto; auto;
    try (intuition congruence).
Qed.

(** ** Opening a channel and its first update *)

(** X8. The ChannelOpened handler returns normally and stores, under the
    identity of the event, a channel in state [OPENED] with the participants
    and settle timeout of the event and nothing else set, replacing whatever
    was stored under that identity; channels of other identities, the
    scheduled events and the waiting transactions are untouched and nothing
    is handed to the chain. *)
Theorem channel_opened_stores_channel chain tn cid p1 p2 settle_timeout bn w :
  let run := handle_event chain
               (ReceiveChannelOpenedEvent tn cid p1 p2 settle_timeout bn) in
  let d' := World.db (final run w) in
  outcome run w = Return tt
  ∧ Database.get_channel tn cid d'
    = Some (Channel.mk tn cid p1 p2 settle_timeout OPENED None None None None
              None)
  ∧ (∀ tn' cid', (tn', cid') ≠ (tn, cid) →
                 Database.get_channel tn' cid' d'
                 = Database.get_channel tn' cid' (World.db w))
  ∧ Database.scheduled_events d' = Database.scheduled_events (World.db w)
  ∧ Database.waiting_transactions d'
    = Database.waiting_transactions (World.db w)
  ∧ World.submitted (final run w) = World.submitted w.
Proof.
  unfold handle_event, outcome, final. cbn [HANDLERS].
  unfold channel_opened_event_handler. unfold_monad. cbn.
  unfold Database.get_channel, Database.upsert_channel, Channel.new.
  cbn [Database.channels Database.scheduled_events
       Database.waiting_transactions Channel.token_network_address
       Channel.identifier].
  split; [done|]. split; [by rewrite lookup_insert_eq|].
  split; [|done].
  intros tn' cid' Hne. by rewrite lookup_insert_ne.
Qed.

(** X9. When no update status is stored for the channel, each of the two
    update handlers creates it with the nonce of the event, whatever that
    nonce is: the NonClosingBalanceProofUpdated handler with the participant
    other than the closing one as sender (for a closing participant of the
    pair), the MonitorNewBalanceProof handler with the monitoring service
    address of the event. *)
Theorem first_update_creates_status
    chain tn cid channel w
    closing_participant nonce block_number
    reward_amount ms_nonce ms_address raiden_node_address ms_block_number :
  Database.get_channel tn cid (World.db w) = Some channel →
  Channel.update_status channel = None →
  let created sender n :=
    Channel.set_update_status (Some (OnChainUpdateStatus.mk sender n))
      channel in
  let non_closing :=
    non_closing_balance_proof_updated_event_handler chain
      (ReceiveNonClosingBalanceProofUpdatedEvent tn cid closing_participant
         nonce block_number) in
  let monitoring :=
    monitor_new_balance_proof_event_handler chain
      (ReceiveMonitoringNewBalanceProofEvent tn cid reward_amount ms_nonce
         ms_address raiden_node_address ms_block_number) in
  (closing_participant ∈ Channel.participants channel →
   outcome non_closing w = Return tt
   ∧ World.db (final non_closing w)
     = Database.upsert_channel
         (created
            (if bool_decide (closing_participant
                             = Channel.participant1 channel)
             then Channel.participant2 channel
             else Channel.participant1 channel)
            nonce)
         (World.db w))
  ∧ Database.channels (World.db (final monitoring w))
    = Database.channels
        (Database.upsert_channel (created ms_address ms_nonce) (World.db w)).
Proof.
  intros Hget Hstatus created non_closing monitoring.
  subst created non_closing monitoring.
  unfold non_closing_balance_proof_updated_event_handler,
    monitor_new_balance_proof_event_handler, schedule_claim_reward.
  split.
  - intros Hin. unfold Channel.participants in Hin.
    unfold_monad. rewrite Hget. cbn. rewrite Hstatus.
    repeat case_bool_decide; cbn; try done.
    apply elem_of_cons in Hin as [?|Hin]; [done|].
    apply elem_of_cons in Hin as [?|Hin]; [done|].
    by apply elem_of_nil in Hin.
  - unfold_monad. rewrite Hget. cbn. rewrite Hstatus. cbn.
    case_bool_decide; cbn; [|done].
    destruct (Channel.closing_block channel); cbn; done.
Qed.

(** X9 on the channel of the scenarios, closed by A: the first update by B
    with nonce 0 is stored. *)
Lemma first_update_in_scenario :
  let w := Scenario.world_with Scenario.closed_channel [] in
  World.db
    (final (non_closing_balance_proof_updated_event_handler
              (Scenario.chain 30)
              (ReceiveNonClosingBalanceProofUpdatedEvent "TN" 1 "A" 0 151))
       w)
  = Database.upsert_channel
      (Channel.set_update_status (Some (OnChainUpdateStatus.mk "B" 0))
         Scenario.closed_channel)
      (World.db w).
Proof.
  intros w.
  refine (proj2 (proj1 (first_update_creates_status (Scenario.chain 30)
                          "TN" 1 Scenario.closed_channel w "A" 0 151
                          10 5 "MS" "B" 167 eq_refl eq_refl) _)).
  apply (bool_decide_unpack _); vm_compute; exact I.
Defined.

(** ** The persisted and the in-memory blockchain state *)

(** X11. After an UpdatedHeadBlock event the database holds exactly the
    blockchain state the service has in memory, with the head block number
    of the event as [latest_known_block]; every other handler changes
    neither of the two, so once they agree they agree after every event. *)
Theorem blockchain_state_stays_persisted chain event w :
  let w' := final (handle_event chain event) w in
  (∀ head_block_number,
     event = UpdatedHeadBlockEvent head_block_number →
     state_persisted w'
     ∧ BlockchainState.latest_known_block
         (MonitoringServiceState.blockchain_state
            (Context.ms_state (World.context w')))
       = head_block_number)
  ∧ ((∀ head_block_number, event ≠ UpdatedHeadBlockEvent head_block_number) →
     Database.blockchain (World.db w') = Database.blockchain (World.db w)
     ∧ Context.ms_state (World.context w')
       = Context.ms_state (World.context w))
  ∧ (state_persisted w → state_persisted w').
Proof.
  unfold state_persisted, handle_event.
  destruct event; cbn [HANDLERS].
  7:{ split; [|split]; [intros ? [= <-]; by split| |done].
      intros Hne. by destruct (Hne head_block_number). }
  1:{ cbn. repeat split; try done. }
  5:{ cbn. repeat split; try done. }
  - unfold channel_closed_event_handler.
    split; [done|]. crunch; eauto.
  - unfold non_closing_balance_proof_updated_event_handler.
    split; [done|]. crunch; eauto.
  - unfold channel_settled_event_handler.
    split; [done|]. crunch; eauto.
  - unfold monitor_new_balance_proof_event_handler, schedule_claim_reward.
    split; [done|]. crunch; eauto.
  - unfold action_monitoring_triggered_event_handler, _is_mr_valid.
    split; [done|]. crunch; eauto.
  - unfold action_claim_reward_triggered_event_handler.
    split; [done|]. crunch; eauto.
Qed.

(** ** The value of [round(settle_timeout * 0.8)] *)

Lemma iter_pos_steps {A} (f : A → A) (P : Z → A → Prop) :
  (∀ k x, 0 <= k → P k x → P (k + 1) (f x)) →
  ∀ p k x, 0 <= k → P k x → P (k + Zpos p) (SpecFloat.iter_pos f p x).
Proof.
  intros Hstep.
  induction p as [p IH|p IH|]; intros k x Hk HP; cbn [SpecFloat.iter_pos].
  - replace (k + Z.pos p~1) with (k + 1 + Z.pos p + Z.pos p) by lia.
    apply IH; [lia|]. apply IH; [lia|]. by apply Hstep.
  - replace (k + Z.pos p~0) with (k + Z.pos p + Z.pos p) by lia.
    apply IH; [lia|]. by apply IH.
  - by apply Hstep.
Qed.

Lemma shr_1_r mrs : 0 <= shr_m mrs → shr_r (shr_1 mrs) = Z.odd (shr_m mrs).
Proof.
  destruct mrs as [m r s]. cbn [shr_m]. intros Hm.
  destruct m as [|[p|p|]|]; try lia; reflexivity.
Qed.

Lemma shr_1_s mrs : shr_s (shr_1 mrs) = shr_r mrs || shr_s mrs.
Proof. destruct mrs as [[|[p|p|]|[p|p|]] r s]; reflexivity. Qed.

Lemma shifted_start m : 0 <= m → shifted m 0 (shr_record_of_loc m loc_Exact).
Proof.
  intros Hm. unfold shifted. cbn [shr_record_of_loc shr_m shr_r shr_s].
  rewrite Z.pow_0_r, Z.div_1_r, Z.mod_1_r. repeat split; try done; lia.
Qed.

Lemma shifted_step m k mrs :
  0 <= m → 0 <= k → shifted m k mrs → shifted m (k + 1) (shr_1 mrs).
Proof.
  intros Hm Hk (Hq & Hr & Hs).
  assert (Hpow : 0 < 2 ^ k) by (apply Z.pow_pos_nonneg; lia).
  assert (Hnn : 0 <= shr_m mrs) by (rewrite Hq; apply Z.div_pos; lia).
  pose proof (Z.mod_pos_bound m (2 ^ k) Hpow) as Hrho.
  assert (Hsplit : m mod 2 ^ (k + 1)
                   = m mod 2 ^ k + 2 ^ k * ((m / 2 ^ k) mod 2)).
  { rewrite Z.pow_add_r, Z.pow_1_r by lia. apply Z.rem_mul_r; lia. }
  pose proof (Z.mod_pos_bound (m / 2 ^ k) 2 ltac:(lia)) as Hbit.
  unfold shifted. rewrite shr_1_m, shr_1_r, shr_1_s by done.
  rewrite Hsplit, Hq, Z.pow_add_r, Z.pow_1_r by lia.
  split; [by rewrite Z.div_div by lia|].
  pose proof (Z.bit0_mod (m / 2 ^ k)) as Hodd. rewrite Z.bit0_odd in Hodd.
  remember (m / 2 ^ k) as q eqn:Hqdef. remember (2 ^ k) as T eqn:HT.
  remember (m mod T) as rho eqn:Hrhodef.
  rewrite <- Hodd. clear Hodd Hsplit Hbit.
  split.
  - destruct (Z.odd q); cbn [Z.b2z]; split; try done; nia.
  - rewrite orb_true_iff, Hr, Hs.
    destruct (Z.odd q); cbn [Z.b2z]; split; nia.
Qed.

Lemma shifted_iter m p :
  0 <= m →
  shifted m (Zpos p)
    (SpecFloat.iter_pos shr_1 p (shr_record_of_loc m loc_Exact)).
Proof.
  intros Hm.
  apply (iter_pos_steps shr_1 (shifted m)
           (λ k x Hk, shifted_step m k x Hm Hk) p 0); [done|].
  by apply shifted_start.
Qed.

Lemma shr_fexp_shifted m e :
  0 <= m →
  let k := Z.max 0 (fexp prec emax (Zdigits2 m + e) - e) in
  shifted m k (fst (shr_fexp prec emax m e loc_Exact))
  ∧ snd (shr_fexp prec emax m e loc_Exact) = e + k.
Proof.
  intros Hm k. subst k. unfold shr_fexp, shr.
  destruct (fexp prec emax (Zdigits2 m + e) - e) as [|p|p] eqn:Hn;
    cbn [fst snd].
  - split; [by apply shifted_start|lia].
  - rewrite Z.max_r by lia. split; [by apply shifted_iter|done].
  - rewrite Z.max_l by lia. split; [by apply shifted_start|lia].
Qed.

Lemma shifted_round m k mrs :
  0 <= m → 0 <= k → shifted m k mrs →
  let m' := round_nearest_even (shr_m mrs) (loc_of_shr_record mrs) in
  m / 2 ^ k <= m' <= m / 2 ^ k + 1
  ∧ 2 * m - 2 ^ k <= 2 * (m' * 2 ^ k) <= 2 * m + 2 ^ k.
Proof.
  intros Hm Hk (Hq & Hr & Hs) m'. subst m'.
  assert (Hpow : 0 < 2 ^ k) by (apply Z.pow_pos_nonneg; lia).
  pose proof (Z.mod_pos_bound m (2 ^ k) Hpow) as Hrho.
  pose proof (Z.div_mod m (2 ^ k) ltac:(lia)) as Hdm.
  pose proof (round_nearest_even_range (shr_m mrs) (loc_of_shr_record mrs))
    as Hrange.
  rewrite Hq in Hrange |- *. split; [done|]. clear Hrange.
  unfold round_nearest_even.
  remember (m / 2 ^ k) as q eqn:Hqdef. remember (2 ^ k) as T eqn:HT.
  remember (m mod T) as rho eqn:Hrhodef.
  destruct mrs as [m1 [] []]; cbn [loc_of_shr_record shr_r shr_s] in *.
  - assert (T <= 2 * rho) by (by apply Hr). nia.
  - assert (T <= 2 * rho) by (by apply Hr).
    assert (2 * rho = T).
    { destruct (Z.eq_dec (2 * rho) T) as [|Hne]; [done|].
      assert (Hfalse : false = true) by (apply Hs; lia). done. }
    destruct (Z.even q); nia.
  - assert (¬ T <= 2 * rho) by (intros Hle; by apply Hr in Hle). nia.
  - assert (¬ T <= 2 * rho) by (intros Hle; by apply Hr in Hle).
    assert (rho = 0).
    { destruct (Z.eq_dec rho 0) as [|Hne]; [done|].
      assert (Hfalse : false = true) by (apply Hs; lia). done. }
    nia.
Qed.

Lemma Zdigits2_bounds m :
  0 < m → 2 ^ (Zdigits2 m - 1) <= m < 2 ^ Zdigits2 m.
Proof.
  intros Hm. rewrite Zdigits2_log2 by done.
  pose proof (Z.log2_spec m Hm) as Hspec.
  replace (Z.log2 m + 1 - 1) with (Z.log2 m) by lia.
  by rewrite <- Z.add_1_r in Hspec.
Qed.

Lemma Zdigits2_unique m d :
  0 < d → 2 ^ (d - 1) <= m < 2 ^ d → Zdigits2 m = d.
Proof.
  intros Hd Hm.
  assert (0 < 2 ^ (d - 1)) by (apply Z.pow_pos_nonneg; lia).
  rewrite Zdigits2_log2 by lia.
  assert (Hlog : Z.log2 m = d - 1); [|lia].
  apply Z.log2_unique; [lia|]. rewrite <- Z.add_1_r.
  by replace (d - 1 + 1) with d by lia.
Qed.

(** Rounding a positive mantissa to 53 bits, away from overflow and from
    the subnormal numbers: the result is finite, within half a unit in the
    last place of the argument, and the argument itself when that has at
    most 53 bits. *)
Lemma binary_round_aux_value sx m e :
  0 < m → -1021 <= Zdigits2 m + e → Zdigits2 m + e <= 1023 → e <= 971 →
  ∃ m' e',
    binary_round_aux prec emax sx m e loc_Exact = S754_finite sx m' e'
    ∧ e <= e'
    ∧ m * (2 ^ 53 - 1) <= Zpos m' * 2 ^ (e' - e) * 2 ^ 53 <= m * (2 ^ 53 + 1)
    ∧ (Zdigits2 m <= 53 → Zpos m' * 2 ^ (e' - e) = m).
Proof.
  intros Hm Hlow Hhigh He. unfold binary_round_aux.
  assert (Hfexp : ∀ x, fexp prec emax x = Z.max (x - 53) (-1074))
    by (intros x; unfold fexp, emin, prec, emax; lia).
  destruct (shr_fexp_shifted m e ltac:(lia)) as [Hsh He1].
  rewrite Hfexp in Hsh, He1.
  destruct (shr_fexp prec emax m e loc_Exact) as [mrs1 e1].
  cbn [fst snd] in *. cbv beta iota.
  remember (Z.max 0 (Z.max (Zdigits2 m + e - 53) (-1074) - e)) as k eqn:Hk.
  assert (Hkd : k = Z.max 0 (Zdigits2 m - 53)) by lia.
  destruct (shifted_round m k mrs1 ltac:(lia) ltac:(lia) Hsh)
    as [Hrange Hvalue].
  set (m1 := round_nearest_even (shr_m mrs1) (loc_of_shr_record mrs1)) in *.
  clearbody m1.
  pose proof (Zdigits2_bounds m Hm) as Hdig.
  assert (Hpow : 0 < 2 ^ k) by (apply Z.pow_pos_nonneg; lia).
  (* the mantissa after the first rounding has 53 or 54 bits, or is [m] *)
  assert (Hm1 : (k = 0 ∧ m1 = m)
                ∨ (0 < k ∧ 2 ^ 52 <= m1 <= 2 ^ 53 ∧ 2 ^ k * 2 ^ 52 <= m)).
  { destruct (Z.eq_dec k 0) as [Hz|Hnz].
    - left. split; [done|]. rewrite Hz, Z.pow_0_r in Hvalue. lia.
    - right. split; [lia|].
      assert (Hd : Zdigits2 m = k + 53) by lia.
      rewrite Hd in Hdig.
      replace (k + 53 - 1) with (k + 52) in Hdig by lia.
      rewrite !Z.pow_add_r in Hdig by lia.
      assert (Hq : 2 ^ 52 <= m / 2 ^ k < 2 ^ 53).
      { split.
        - apply Z.div_le_lower_bound; lia.
        - apply Z.div_lt_upper_bound; lia. }
      lia. }
  destruct (shr_fexp_spec m1 e1 loc_Exact ltac:(lia)) as [Hm2 He2].
  rewrite Hfexp in Hm2, He2.
  destruct (shr_fexp prec emax m1 e1 loc_Exact) as [mrs2 e2].
  cbn [fst snd] in *. cbv beta iota.
  remember (Z.max 0 (Z.max (Zdigits2 m1 + e1 - 53) (-1074) - e1)) as k2
    eqn:Hk2.
  (* the second shift is by one bit when the rounding carried, by none
     otherwise, and loses nothing *)
  assert (Hsecond : shr_m mrs2 * 2 ^ k2 = m1 ∧ 0 <= k2 <= 1
                    ∧ (k = 0 → k2 = 0)).
  { destruct Hm1 as [[Hz ->]|(Hpos & Hm1 & _)].
    - assert (Hz2 : k2 = 0) by lia. rewrite Hz2 in Hm2 |- *.
      rewrite Z.pow_0_r, Z.div_1_r in Hm2. lia.
    - destruct (Z.eq_dec m1 (2 ^ 53)) as [->|Hne].
      + change (Zdigits2 (2 ^ 53)) with 54 in Hk2.
        assert (Hz2 : k2 = 1) by lia. rewrite Hz2 in Hm2 |- *.
        rewrite Hm2. split; [by vm_compute|lia].
      + rewrite (Zdigits2_unique m1 53) in Hk2 by lia.
        assert (Hz2 : k2 = 0) by lia. rewrite Hz2 in Hm2 |- *.
        rewrite Z.pow_0_r, Z.div_1_r in Hm2. lia. }
  destruct Hsecond as (Hval2 & Hk2r & Hk20).
  assert (Hpow2 : 0 < 2 ^ k2) by (apply Z.pow_pos_nonneg; lia).
  assert (Hm1pos : 0 < m1) by (destruct Hm1 as [[_ ->]|(_ & ? & _)]; lia).
  destruct (shr_m mrs2) as [|m2|m2] eqn:Hm2v; [lia| |lia].
  assert (Hle : (e2 <=? emax - prec) = true)
    by (apply Z.leb_le; unfold emax, prec; lia).
  rewrite Hle. exists m2, e2. split; [done|]. split; [lia|].
  replace (e2 - e) with (k2 + k) by lia.
  rewrite Z.pow_add_r, Z.mul_assoc, Hval2 by lia.
  split.
  - destruct Hm1 as [[Hz ->]|(Hpos & _ & Hbig)].
    + rewrite Hz, Z.pow_0_r. lia.
    + change (2 ^ 53) with (2 * 2 ^ 52). lia.
  - intros Hsmall. assert (k = 0) by lia.
    destruct Hm1 as [[Hz ->]|(Hpos & _)]; [|lia].
    rewrite Hz, Z.pow_0_r. lia.
Qed.

Lemma iter_xO_value m d : Zpos (Pos.iter xO m d) = Zpos m * 2 ^ Zpos d.
Proof.
  induction d as [|d IH] using Pos.peano_ind.
  - cbn. lia.
  - rewrite Pos.iter_succ, Pos2Z.inj_xO, IH, Pos2Z.inj_succ.
    rewrite Z.pow_succ_r by lia. lia.
Qed.

(** [float(n)] for a positive [int]: a finite number within half a unit in
    the last place of [n]. The exponent [e0] is that of [n] aligned to 53
    bits. *)
Lemma float_of_int_value n :
  0 < n < 2 ^ 1000 →
  ∃ m e e0,
    float_of_int n = inr (S754_finite false m e)
    ∧ -52 <= e0 <= 0 ∧ e0 <= e ∧ e <= 948
    ∧ Zdigits2 (Zpos m) + e <= 1001
    ∧ n * 2 ^ (- e0) * (2 ^ 53 - 1) <= Zpos m * 2 ^ (e - e0) * 2 ^ 53
      <= n * 2 ^ (- e0) * (2 ^ 53 + 1).
Proof.
  intros Hn.
  destruct (float_of_int_bounds n) as (f & Hf & Hfin & Hexp & Hdig); [lia|].
  assert (Hvalue : ∃ m e e0,
             binary_normalize prec emax n 0 false = S754_finite false m e
             ∧ -52 <= e0 <= 0 ∧ e0 <= e
             ∧ n * 2 ^ (- e0) * (2 ^ 53 - 1) <= Zpos m * 2 ^ (e - e0) * 2 ^ 53
               <= n * 2 ^ (- e0) * (2 ^ 53 + 1)).
  { destruct n as [|p|p]; try lia. unfold binary_normalize, binary_round.
    assert (Hd : Zdigits2 (Zpos p) <= 1000).
    { rewrite Zdigits2_log2 by lia.
      assert (Z.log2 (Zpos p) < 1000) by (apply Z.log2_lt_pow2; lia). lia. }
    pose proof (Zdigits2_bounds (Zpos p) ltac:(lia)) as Hbounds.
    assert (Hd1 : 1 <= Zdigits2 (Zpos p)) by (cbn; lia).
    unfold shl_align.
    assert (Hfexp : fexp prec emax (Zpos (digits2_pos p) + 0)
                    = Zdigits2 (Zpos p) - 53)
      by (unfold fexp, emin, prec, emax; cbn [Zdigits2] in *; lia).
    rewrite Hfexp.
    destruct (Zdigits2 (Zpos p) - 53 - 0) as [|k|k] eqn:Hk.
    - destruct (binary_round_aux_value false (Zpos p) 0)
        as (m & e & Hr & He & Hv & _); [lia|lia|lia|lia|].
      exists m, e, 0. rewrite Hr. rewrite Z.sub_0_r in Hv |- *.
      change (2 ^ (- 0)) with 1. repeat split; lia.
    - destruct (binary_round_aux_value false (Zpos p) 0)
        as (m & e & Hr & He & Hv & _); [lia|lia|lia|lia|].
      exists m, e, 0. rewrite Hr. rewrite Z.sub_0_r in Hv |- *.
      change (2 ^ (- 0)) with 1. repeat split; lia.
    - assert (Hdk : Zdigits2 (Zpos (Pos.iter xO p k)) = 53).
      { cbn [Zdigits2] in *. rewrite digits2_pos_iter_xO. lia. }
      destruct (binary_round_aux_value false (Zpos (Pos.iter xO p k))
                  (Zdigits2 (Zpos p) - 53))
        as (m & e & Hr & He & Hv & _); [lia|lia|lia|lia|].
      exists m, e, (Zdigits2 (Zpos p) - 53). rewrite Hr.
      rewrite iter_xO_value in Hv.
      replace (- (Zdigits2 (Zpos p) - 53)) with (Zpos k) by lia.
      repeat split; lia. }
  destruct Hvalue as (m & e & e0 & Hr & He0 & He & Hv).
  exists m, e, e0. unfold float_of_int in *. rewrite Hr in *.
  injection Hf as <-. cbn [sf_exp sf_digits_exp] in *.
  repeat split; try done; lia.
Qed.

Lemma round_half_even_value m e :
  0 < m →
  let v := round_half_even m e in
  (0 <= e → v = m * 2 ^ e)
  ∧ (e < 0 →
     2 * m - 2 ^ (- e) <= 2 * (v * 2 ^ (- e)) <= 2 * m + 2 ^ (- e)).
Proof.
  intros Hm v. subst v. unfold round_half_even.
  destruct (0 <=? e) eqn:He.
  - apply Z.leb_le in He. split; [done|lia].
  - apply Z.leb_gt in He. split; [lia|]. intros _.
    assert (Hpow : 0 < 2 ^ (- e)) by (apply Z.pow_pos_nonneg; lia).
    pose proof (Z.mod_pos_bound m (2 ^ (- e)) Hpow) as Hrho.
    pose proof (Z.div_mod m (2 ^ (- e)) ltac:(lia)) as Hdm.
    remember (2 ^ (- e)) as D eqn:HD.
    remember (m / D) as q eqn:Hq. remember (m mod D) as rho eqn:Hrhodef.
    destruct (Z.compare_spec (2 * rho) D); [destruct (Z.even q)|..]; nia.
Qed.

(** [round(n * 0.8)], where 0.8 is the binary64 number
    7205759403792794 / 2^53: the two roundings of the product and the
    rounding to an integer together stay within these bounds. *)
Lemma round_int_times_ratio_value n :
  0 <= n < 2 ^ 1000 →
  ∃ v,
    round_int_times_float n RATIO_OF_SETTLE_TIMEOUT_BEFORE_MONITOR = inr v
    ∧ 2 * 7205759403792794 * (2 ^ 53 - 1) ^ 2 * n - 2 ^ 159 <= v * 2 ^ 160
      <= 2 * 7205759403792794 * (2 ^ 53 + 1) ^ 2 * n + 2 ^ 159.
Proof.
  intros Hn. destruct (Z.eq_dec n 0) as [->|Hnz].
  { exists 0. split; [reflexivity|lia]. }
  destruct (float_of_int_value n ltac:(lia))
    as (m & e & e0 & Hf & He0 & He & Hemax & Hdig & Hx).
  unfold round_int_times_float, RATIO_OF_SETTLE_TIMEOUT_BEFORE_MONITOR.
  rewrite Hf. cbn [SFmul xorb].
  pose proof (Zdigits2_mul (Zpos m) 7205759403792794 ltac:(lia) ltac:(lia))
    as Hmul.
  change (Zdigits2 7205759403792794) with 53 in Hmul.
  pose proof (Zdigits2_bounds (Zpos m * 7205759403792794) ltac:(lia)) as Hpd.
  assert (Hd1 : 1 <= Zdigits2 (Zpos m * 7205759403792794)).
  { destruct (Zpos m * 7205759403792794) eqn:Hprod; cbn; lia. }
  destruct (binary_round_aux_value false (Zpos (m * 7205759403792794))
              (e + -53))
    as (my & ey & Hy & Hey & Hval & _);
    [lia|rewrite Pos2Z.inj_mul; lia|rewrite Pos2Z.inj_mul; lia|lia|].
  rewrite Hy. cbn [py_round]. eexists. split; [reflexivity|].
  rewrite Pos2Z.inj_mul in Hval.
  destruct (round_half_even_value (Zpos my) ey ltac:(lia)) as [Hint Hfrac].
  remember (round_half_even (Zpos my) ey) as v eqn:Hv. clear Hv.
  remember (e - e0) as a eqn:Ha. remember (ey - (e + -53)) as b eqn:Hb.
  assert (HA : 0 < 2 ^ a) by (apply Z.pow_pos_nonneg; lia).
  assert (HB : 0 < 2 ^ b) by (apply Z.pow_pos_nonneg; lia).
  assert (HE0 : 0 < 2 ^ (- e0)) by (apply Z.pow_pos_nonneg; lia).
  (* the product, scaled like [float(n)] *)
  assert (Hprod :
            Zpos m * 2 ^ a * 7205759403792794 * (2 ^ 53 - 1)
            <= Zpos my * 2 ^ b * 2 ^ a * 2 ^ 53
            <= Zpos m * 2 ^ a * 7205759403792794 * (2 ^ 53 + 1)).
  { destruct Hval as [Hlo Hhi].
    apply (Z.mul_le_mono_nonneg_r _ _ (2 ^ a)) in Hlo, Hhi; lia. }
  (* the integer, scaled in the same way *)
  assert (Hround :
            2 * (Zpos my * 2 ^ b * 2 ^ a) - 2 ^ 53 * 2 ^ (- e0)
            <= 2 * (v * 2 ^ (- e0) * 2 ^ 53)
            <= 2 * (Zpos my * 2 ^ b * 2 ^ a) + 2 ^ 53 * 2 ^ (- e0)).
  { destruct (Z_lt_le_dec ey 0) as [Hneg|Hpos].
    - specialize (Hfrac Hneg).
      assert (Hscale : 2 ^ (- ey) * (2 ^ b * 2 ^ a) = 2 ^ 53 * 2 ^ (- e0)).
      { rewrite <- !Z.pow_add_r by lia. f_equal. lia. }
      destruct Hfrac as [Hlo Hhi].
      apply (Z.mul_le_mono_nonneg_r _ _ (2 ^ b * 2 ^ a)) in Hlo, Hhi;
        [|nia|nia].
      nia.
    - specialize (Hint Hpos).
      assert (Hscale : 2 ^ ey * (2 ^ (- e0) * 2 ^ 53) = 2 ^ b * 2 ^ a).
      { rewrite <- !Z.pow_add_r by lia. f_equal. lia. }
      rewrite Hint. nia. }
  clear Hint Hfrac Hval Hy Hf Hmul Hpd Hd1 Hdig.
  remember (2 ^ (- e0)) as E0 eqn:HE0def.
  remember (Zpos m * 2 ^ a) as X eqn:HX.
  remember (Zpos my * 2 ^ b * 2 ^ a) as Y eqn:HY.
  clear HX HY HE0def.
  split; apply (Z.mul_le_mono_pos_r _ _ E0 HE0); lia.
Qed.

(** X12. A ChannelClosed event for a stored channel whose settle period is
    not yet over (the settle timeout being a uint256, as the contract
    reports it) leaves exactly one new or already known scheduled event
    behind: the MONITOR action for this channel and one of its
    participants. Its trigger block is never before the closing block and
    never after the end of the settle period, and at least three quarters
    of the settle timeout (up to rounding) lie between the closing block and
    the trigger block. *)
Theorem monitoring_scheduled_within_settle_period
    chain tn cid closing_participant block_number channel w :
  Database.get_channel tn cid (World.db w) = Some channel →
  0 <= Channel.settle_timeout channel < 2 ^ 256 →
  ¬ block_number + Channel.settle_timeout channel
    < Context.last_known_block (World.context w) →
  let w' :=
    final (channel_closed_event_handler chain
             (ReceiveChannelClosedEvent tn cid closing_participant
                block_number)) w in
  ∃ scheduled target,
    scheduled ∈ Database.scheduled_events (World.db w')
    ∧ (∀ se, se ∈ Database.scheduled_events (World.db w') →
             se ∈ Database.scheduled_events (World.db w) ∨ se = scheduled)
    ∧ ScheduledEvent.event scheduled
      = ActionMonitoringTriggeredEvent
          (Channel.token_network_address channel)
          (Channel.identifier channel) target
    ∧ target ∈ Channel.participants channel
    ∧ block_number <= ScheduledEvent.trigger_block_number scheduled
      <= block_number + Channel.settle_timeout channel
    ∧ 3 * Channel.settle_timeout channel
      <= 4 * (ScheduledEvent.trigger_block_number scheduled - block_number)
         + 2.
Proof.
  intros Hget Hrange Hnot w'. subst w'.
  destruct (round_int_times_ratio_value (Channel.settle_timeout channel))
    as (period & Hperiod & Hlo & Hhi).
  { assert (2 ^ 256 < 2 ^ 1000) by (apply Z.pow_lt_mono_r; lia). lia. }
  apply Z.ltb_nlt in Hnot.
  set (target :=
         if bool_decide (Channel.participant1 channel = closing_participant)
         then Channel.participant2 channel
         else Channel.participant1 channel).
  set (scheduled :=
         ScheduledEvent.mk (block_number + period)
           (ActionMonitoringTriggeredEvent
              (Channel.token_network_address channel)
              (Channel.identifier channel) target)).
  assert (Hevents :
            Database.scheduled_events
              (World.db
                 (final (channel_closed_event_handler chain
                           (ReceiveChannelClosedEvent tn cid
                              closing_participant block_number)) w))
            = Database.scheduled_events
                (Database.upsert_scheduled_event scheduled (World.db w))).
  { unfold channel_closed_event_handler. unfold_monad. rewrite Hget. cbn.
    rewrite Hnot. cbn. by rewrite Hperiod. }
  exists scheduled, target. rewrite Hevents.
  unfold Database.upsert_scheduled_event.
  cbn [Database.scheduled_events ScheduledEvent.event
       ScheduledEvent.trigger_block_number scheduled].
  split; [|split; [|split; [done|split; [|split]]]].
  - case_bool_decide; [done|]. apply elem_of_app. right. by left.
  - intros se. case_bool_decide; [by left|].
    rewrite elem_of_app, list_elem_of_singleton. tauto.
  - subst target. unfold Channel.participants.
    case_bool_decide; rewrite !elem_of_cons; auto.
  - clear - Hrange Hlo Hhi. lia.
  - clear - Hrange Hlo Hhi. lia.
Qed.

(** X12 in the happy path: the channel with a settle timeout of 20 blocks
    closed at block 150 is checked at block 166. *)
Lemma monitoring_scheduled_in_happy_path :
  ∃ scheduled target,
    scheduled
    ∈ Database.scheduled_events
        (World.db
           (final (channel_closed_event_handler (Scenario.chain 30)
                     (ReceiveChannelClosedEvent "TN" 1 "A" 150))
              (Scenario.world_with Scenario.channel [])))
    ∧ ScheduledEvent.event scheduled
      = ActionMonitoringTriggeredEvent "TN" 1 target
    ∧ 150 <= ScheduledEvent.trigger_block_number scheduled <= 170.
Proof.
  assert (Hrange : 0 <= Channel.settle_timeout Scenario.channel < 2 ^ 256)
    by (vm_compute; split; [discriminate|reflexivity]).
  assert (Hnot : ¬ 150 + Channel.settle_timeout Scenario.channel
                   < Context.last_known_block
                       (World.context
                          (Scenario.world_with Scenario.channel [])))
    by (vm_compute; discriminate).
  destruct (monitoring_scheduled_within_settle_period
              (Scenario.chain 30) "TN" 1 "A" 150 Scenario.channel
              (Scenario.world_with Scenario.channel []) eq_refl Hrange Hnot)
    as (scheduled & target & Hin & _ & Hevent & _ & Hwindow & _).
  exists scheduled, target. split; [exact Hin|]. split; [exact Hevent|].
  exact Hwindow.
Defined.

(** X13. For every settle timeout up to 2^48 blocks, the client update
    period [round(settle_timeout * 0.8)], computed in binary64 floating
    point, is exactly the integer nearest to four fifths of the settle
    timeout. *)
Theorem client_update_period_exact settle_timeout :
  0 <= settle_timeout <= 2 ^ 48 →
  round_int_times_float settle_timeout RATIO_OF_SETTLE_TIMEOUT_BEFORE_MONITOR
  = inr (nearest_to_four_fifths settle_timeout).
Proof.
  intros Hrange.
  destruct (round_int_times_ratio_value settle_timeout)
    as (period & -> & Hlo & Hhi).
  { assert (2 ^ 48 < 2 ^ 1000) by (apply Z.pow_lt_mono_r; lia). lia. }
  f_equal. unfold nearest_to_four_fifths.
  assert (Hupper : 5 * period - 4 * settle_timeout < 3) by lia.
  assert (Hlower : -3 < 5 * period - 4 * settle_timeout) by lia.
  clear Hlo Hhi Hrange.
  apply Z.div_unique with (r := 4 * settle_timeout + 2 - 5 * period); lia.
Qed.

(** X13 for a settle timeout of 500 blocks. *)
Lemma client_update_period_of_500_blocks :
  round_int_times_float 500 RATIO_OF_SETTLE_TIMEOUT_BEFORE_MONITOR = inr 400.
Proof.
  apply (client_update_period_exact 500).
  vm_compute. split; discriminate.
Defined.

(** ** The mock node *)

Section mock_node.
Variable is_checksum_address : Address → bool.
Variable is_same_address : Address → Address → Exception.t + bool.

Local Abbreviation get_my_address := (MockRaidenNode.get_my_address is_same_address).
Local Abbreviation get_other_address :=
  (MockRaidenNode.get_other_address is_same_address).
Local Abbreviation settle_channel :=
  (MockRaidenNode.settle_channel is_checksum_address).
Local Abbreviation sync_open_channels :=
  (MockRaidenNode.sync_open_channels is_same_address).
Local Abbreviation open_channels_from :=
  (MockRaidenNode.open_channels_from is_same_address).


(** X15. [get_my_address] and [get_other_address] return or raise together,
    and raise the same exception. When they return, the two results are the
    two arguments, each once, and the first is the one [is_same_address]
    found equal to the node's address. *)
Theorem my_and_other_address_split_the_pair self address1 address2 :
  match get_my_address self address1 address2,
        get_other_address self address1 address2 with
  | inr mine, inr other =>
      ((mine, other) = (address1, address2)
       ∨ (mine, other) = (address2, address1))
      ∧ is_same_address (MockRaidenNode.address self) mine = inr true
  | inl e, inl e' =>
      e = e'
      ∧ (e = Exception.AssertionError
         ∨ is_same_address (MockRaidenNode.address self) address1 = inl e
         ∨ is_same_address (MockRaidenNode.address self) address2 = inl e)
  | _, _ => False
  end.
Proof.
  unfold MockRaidenNode.get_my_address, MockRaidenNode.get_other_address.
  destruct (is_same_address (MockRaidenNode.address self) address1)
    as [e1|[]] eqn:H1; [by auto|by auto|].
  destruct (is_same_address (MockRaidenNode.address self) address2)
    as [e2|[]] eqn:H2; by auto.
Qed.

Lemma py_in_int_among_strs n keys : py_in (Int n) (Str <$> keys) = false.
Proof. induction keys as [|k keys IH]; [done|]. cbn. exact IH. Qed.

Lemma py_in_str_among_ints s ids : py_in (Str s) (Int <$> ids) = false.
Proof. induction ids as [|i ids IH]; [done|]. cbn. exact IH. Qed.

(** X16. [sync_open_channels] never removes a channel: whatever ChannelClosed
    entries the chain reports, its result is the dict built from the
    ChannelOpened entries alone (and it raises when building that dict
    raises). The closed channel identifiers are looked up among the partner
    addresses, where an [int] is never found. *)
Theorem sync_open_channels_ignores_closed_channels self opened closed :
  sync_open_channels self opened closed = open_channels_from self opened ∅.
Proof.
  unfold MockRaidenNode.sync_open_channels.
  destruct (open_channels_from self opened ∅) as [e|open_channels]; [done|].
  f_equal. apply map_filter_id. intros k v _.
  by rewrite py_in_str_among_ints.
Qed.
End mock_node.

(** ** The requirements *)













(** ** The helpers at work *)

Example settle_channel_swaps :
  MockRaidenNode.settle_channel (λ _, true)
    (MockRaidenNode.mk "A" {[ "B" := 7 ]}) "B" [30; 10] [5; 0] ["ra"; "rb"]
  = inr (MockRaidenNode.mkSettle 7 "B" 10 0 "rb" "A" 30 5 "ra" "A").
Proof. reflexivity. Qed.

Example settle_channel_without_tuples :
  MockRaidenNode.settle_channel (λ _, true)
    (MockRaidenNode.mk "A" {[ "B" := 7 ]}) "B" [] [] []
  = inl Exception.AssertionError.
Proof. reflexivity. Qed.

Example sync_open_channels_keeps_closed_channel :
  MockRaidenNode.sync_open_channels
    (λ a b, inr (bool_decide (a = b)))
    (MockRaidenNode.mk "A" ∅)
    [MockRaidenNode.mkOpened "A" "B" 7; MockRaidenNode.mkOpened "C" "D" 8]
    [MockRaidenNode.mkClosed 7]
  = inr {[ "B" := 7 ]}.
Proof. by vm_compute. Qed.

Example read_requirements_of_a_file :
  Setup.read_requirements
    (Some [ "# the services" ++ String "010" "";
            "  web3==4.8.2 " ++ String "010" "";
            String "010" "";
            "-r requirements-dev.txt" ++ String "010" "";
            "git+https://github.com/matrix-org/matrix-python-sdk.git"
            ++ String "010" "" ])%string
  = inr ["web3==4.8.2"; ""; "matrix-client"]%string.
Proof. reflexivity. Qed.

(** ** Stored channels along a run *)

Lemma handler_keeps_stored chain event w k :
  db_wf (World.db w) →
  is_Some (Database.channels (World.db w) !! k) →
  is_Some
    (Database.channels (World.db (final (handle_event chain event) w)) !! k).
Proof.
  intros Hwf Hk.
  destruct (handler_channels chain event w Hwf) as [->|(c' & _ & ->)];
    [done|].
  rewrite lookup_insert_is_Some. destruct (decide (channel_key c' = k)); auto.
Qed.

(** X19. Along every run of events from a database that files each channel
    under its own identity (the empty database, for one), the database
    stays that way: [get_channel] for a token network address and a channel
    identifier only ever returns a channel with that address and that
    identifier. And no run removes a channel: what [get_channel] finds
    before the run it finds after it. *)
Theorem channels_stay_filed_and_stored events w :
  db_wf (World.db w) →
  let w' := process_events events w in
  (∀ tn cid c,
     Database.get_channel tn cid (World.db w') = Some c →
     Channel.token_network_address c = tn ∧ Channel.identifier c = cid)
  ∧ (∀ tn cid,
       is_Some (Database.get_channel tn cid (World.db w)) →
       is_Some (Database.get_channel tn cid (World.db w'))).
Proof.
  intros Hwf w'. subst w'. split.
  - intros tn cid c Hget.
    pose proof (process_events_wf events w Hwf (tn, cid) c Hget) as Hkey.
    unfold channel_key in Hkey. by injection Hkey.
  - intros tn cid. unfold Database.get_channel.
    revert w Hwf.
    induction events as [|[chain event] events IH]; intros w Hwf Hsome;
      [done|].
    cbn [process_events]. apply IH.
    + by apply handler_wf.
    + by apply handler_keeps_stored.
Qed.

(** X19 on the happy path, replayed on a database that holds the channel
    already: the channel is still there at the end. *)
Lemma happy_path_keeps_channel :
  is_Some
    (Database.get_channel "TN" 1
       (World.db
          (process_events Scenario.happy_path
             (Scenario.world_with Scenario.channel [])))).
Proof.
  apply (proj2 (channels_stay_filed_and_stored Scenario.happy_path
                  (Scenario.world_with Scenario.channel [])
                  (world_with_wf Scenario.channel [] eq_refl))).
  by eexists.
Defined.
(** ** Handling an event a second time *)

Lemma get_channel_upsert_eq tn cid c d :
  channel_key c = (tn, cid) →
  Database.get_channel tn cid (Database.upsert_channel c d) = Some c.
Proof.
  intros Hkey. unfold Database.get_channel, Database.upsert_channel.
  cbn [Database.channels]. fold (channel_key c). rewrite Hkey.
  apply lookup_insert_eq.
Qed.

Lemma get_channel_upsert_scheduled_event tn cid se d :
  Database.get_channel tn cid (Database.upsert_scheduled_event se d)
  = Database.get_channel tn cid d.
Proof. reflexivity. Qed.

Lemma upsert_channel_twice c c' d :
  channel_key c = channel_key c' →
  Database.upsert_channel c' (Database.upsert_channel c d)
  = Database.upsert_channel c' d.
Proof.
  intros Hkey. unfold Database.upsert_channel. cbn.
  fold (channel_key c) (channel_key c'). rewrite Hkey.
  by rewrite insert_insert_eq.
Qed.

Lemma upsert_scheduled_event_twice se d :
  Database.upsert_scheduled_event se (Database.upsert_scheduled_event se d)
  = Database.upsert_scheduled_event se d.
Proof.
  unfold Database.upsert_scheduled_event. cbn.
  destruct (bool_decide (se ∈ Database.scheduled_events d)) eqn:Hin.
  - by rewrite Hin.
  - rewrite bool_decide_eq_true_2; [done|].
    apply elem_of_app. right. apply list_elem_of_here.
Qed.

Lemma upsert_scheduled_event_upsert_channel se c d :
  Database.upsert_scheduled_event se (Database.upsert_channel c d)
  = Database.upsert_channel c (Database.upsert_scheduled_event se d).
Proof. reflexivity. Qed.

Lemma closed_handler_twice chain tn cid cp bn w :
  db_wf (World.db w) →
  let run := channel_closed_event_handler chain
               (ReceiveChannelClosedEvent tn cid cp bn) in
  World.context (final run (final run w)) = World.context (final run w).
Proof.
  intros Hwf run. subst run. unfold channel_closed_event_handler, final.
  destruct (Database.get_channel tn cid (World.db w)) as [channel|] eqn:Hget.
  2:{ unfold_monad. cbn. rewrite Hget. cbn. by rewrite Hget. }
  pose proof (get_channel_key _ _ _ _ Hwf Hget) as Hkey.
  unfold World.db in Hget.
  destruct (bn + Channel.settle_timeout channel
            <? Context.last_known_block (World.context w)) eqn:Hlate.
  - unfold_monad. cbn. rewrite Hget. cbn. rewrite Hlate. cbn.
    rewrite get_channel_upsert_eq by done. cbn. rewrite Hlate. cbn.
    by rewrite upsert_channel_twice.
  - destruct (round_int_times_float (Channel.settle_timeout channel)
                RATIO_OF_SETTLE_TIMEOUT_BEFORE_MONITOR) as [e|period]
      eqn:Hround.
    + unfold_monad. cbn. rewrite Hget. cbn. rewrite Hlate. cbn.
      rewrite Hround. cbn. rewrite Hget. cbn. rewrite Hlate. cbn.
      by rewrite Hround.
    + unfold_monad. cbn. rewrite Hget. cbn. rewrite Hlate. cbn.
      rewrite Hround. cbn.
      rewrite get_channel_upsert_eq by done. cbn. rewrite Hlate. cbn.
      rewrite Hround. cbn.
      rewrite upsert_scheduled_event_upsert_channel,
        upsert_scheduled_event_twice.
      by rewrite upsert_channel_twice.
Qed.

Lemma non_closing_update_twice chain tn cid cp nonce bn w :
  db_wf (World.db w) →
  let run := non_closing_balance_proof_updated_event_handler chain
               (ReceiveNonClosingBalanceProofUpdatedEvent tn cid cp nonce
                  bn) in
  World.context (final run (final run w)) = World.context (final run w).
Proof.
  intros Hwf run. subst run.
  unfold non_closing_balance_proof_updated_event_handler, final.
  destruct (Database.get_channel tn cid (World.db w)) as [channel|] eqn:Hget.
  2:{ unfold_monad. cbn. rewrite Hget. cbn. by rewrite Hget. }
  pose proof (get_channel_key _ _ _ _ Hwf Hget) as Hkey.
  unfold World.db in Hget.
  assert (Hle : (nonce <=? nonce) = true) by (apply Z.leb_le; lia).
  destruct (Channel.update_status channel) as [status|] eqn:Hstatus;
    [destruct (nonce <=? OnChainUpdateStatus.nonce status) eqn:Hstale|];
    unfold_monad; cbn; rewrite Hget; cbn; rewrite Hstatus, ?Hstale;
    repeat case_bool_decide; cbn;
    rewrite ?Hget, ?get_channel_upsert_eq by done; cbn;
    rewrite ?Hstatus, ?Hstale, ?Hle; cbn;
    repeat case_bool_decide; cbn; done.
Qed.

Lemma settled_handler_twice chain tn cid bn w :
  db_wf (World.db w) →
  let run := channel_settled_event_handler chain
               (ReceiveChannelSettledEvent tn cid bn) in
  World.context (final run (final run w)) = World.context (final run w).
Proof.
  intros Hwf run. subst run. unfold channel_settled_event_handler, final.
  destruct (Database.get_channel tn cid (World.db w)) as [channel|] eqn:Hget.
  2:{ unfold_monad. cbn. rewrite Hget. cbn. by rewrite Hget. }
  pose proof (get_channel_key _ _ _ _ Hwf Hget) as Hkey.
  unfold World.db in Hget.
  unfold_monad. cbn. rewrite Hget. cbn.
  rewrite get_channel_upsert_eq by done. cbn.
  by rewrite upsert_channel_twice.
Qed.

Lemma monitoring_update_twice chain tn cid reward nonce ms rna bn w :
  db_wf (World.db w) →
  let run := monitor_new_balance_proof_event_handler chain
               (ReceiveMonitoringNewBalanceProofEvent tn cid reward nonce ms
                  rna bn) in
  World.context (final run (final run w)) = World.context (final run w).
Proof.
  intros Hwf run. subst run.
  unfold monitor_new_balance_proof_event_handler, schedule_claim_reward,
    final.
  destruct (Database.get_channel tn cid (World.db w)) as [channel|] eqn:Hget.
  2:{ unfold_monad. cbn. rewrite Hget. cbn. by rewrite Hget. }
  pose proof (get_channel_key _ _ _ _ Hwf Hget) as Hkey.
  unfold World.db in Hget.
  assert (Hlt : (nonce <? nonce) = false) by (apply Z.ltb_ge; lia).
  destruct (Channel.update_status channel) as [status|] eqn:Hstatus;
    [destruct (nonce <? OnChainUpdateStatus.nonce status) eqn:Hstale|];
    unfold_monad; cbn; rewrite Hget; cbn; rewrite Hstatus, ?Hstale; cbn;
    rewrite ?Hget; cbn; rewrite ?Hstatus, ?Hstale; cbn; try done;
    (case_bool_decide; cbn;
     [destruct (Channel.closing_block channel) eqn:Hcb; cbn|]);
    repeat (cbn;
            rewrite ?get_channel_upsert_scheduled_event,
              ?get_channel_upsert_eq by done;
            cbn; rewrite ?Hlt, ?Hcb;
            try case_bool_decide);
    cbn; try done;
    rewrite ?upsert_scheduled_event_upsert_channel,
      ?upsert_scheduled_event_twice, ?upsert_channel_twice by done;
    done.
Qed.

Lemma get_monitor_request_upsert_channel tn cid ncs c d :
  Database.get_monitor_request tn cid ncs (Database.upsert_channel c d)
  = Database.get_monitor_request tn cid ncs d.
Proof. reflexivity. Qed.

Lemma get_monitor_request_add_waiting tn cid ncs h d :
  Database.get_monitor_request tn cid ncs
    (Database.add_waiting_transaction h d)
  = Database.get_monitor_request tn cid ncs d.
Proof. reflexivity. Qed.

Ltac replay :=
  unfold_monad;
  repeat (cbn;
          rewrite ?get_monitor_request_upsert_channel,
            ?get_monitor_request_add_waiting,
            ?get_channel_upsert_eq by done;
          repeat match goal with
                 | H : ?x = _ |- context [?x] => rewrite H
                 end);
  cbn; try done.

Lemma monitoring_action_twice chain tn cid ncp w :
  db_wf (World.db w) →
  let run := action_monitoring_triggered_event_handler chain
               (ActionMonitoringTriggeredEvent tn cid ncp) in
  World.context (final run (final run w)) = World.context (final run w).
Proof.
  intros Hwf run. subst run.
  unfold action_monitoring_triggered_event_handler, _is_mr_valid, final.
  destruct (Database.get_monitor_request tn cid ncp (World.db w))
    as [mr|] eqn:Hmr; unfold World.db in Hmr; [|by replay].
  destruct (Database.get_channel (MonitorRequest.token_network_address mr)
              (MonitorRequest.channel_identifier mr) (World.db w))
    as [channel|] eqn:Hget; [|unfold World.db in Hget; by replay].
  pose proof (get_channel_key _ _ _ _ Hwf Hget) as Hkey.
  unfold World.db in Hget. unfold Channel.participants.
  destruct (bool_decide (MonitorRequest.signer mr
                         ∈ [Channel.participant1 channel;
                            Channel.participant2 channel])) eqn:H1;
    [|by replay].
  destruct (bool_decide (MonitorRequest.non_closing_signer mr
                         ∈ [Channel.participant1 channel;
                            Channel.participant2 channel])) eqn:H2;
    [|by replay].
  destruct (bool_decide (MonitorRequest.signer mr
                         = MonitorRequest.non_closing_signer mr)) eqn:H3;
    [by replay|].
  destruct (Chain.effectiveBalance chain
              (MonitorRequest.non_closing_signer mr))
    as [user_deposit|] eqn:Hd; [|by replay].
  destruct (MonitorRequest.reward_amount mr
            <? Context.min_reward (World.context w)) eqn:Hlow;
  (destruct (bool_decide (Channel.closing_tx_hash channel = None))
     eqn:Hfree; [|by replay]);
  (destruct ((match Channel.update_status channel with
              | Some update_status => OnChainUpdateStatus.nonce update_status
              | None => 0
              end <? MonitorRequest.nonce mr)
             && (MonitorRequest.reward_amount mr
                 * DEFAULT_PAYMENT_RISK_FAKTOR <=? user_deposit)
             && (Context.min_reward (World.context w)
                 <=? MonitorRequest.reward_amount mr)) eqn:Hgate;
   [|replay; rewrite <- !andb_assoc in *; cbn; rewrite ?Hgate; by replay]);
  (destruct (Chain.monitor chain mr
               (MonitoringServiceState.address
                  (Context.ms_state (World.context w))))
     as [tx_hash|] eqn:Hsent);
  replay; rewrite <- ?andb_assoc in *; cbn; rewrite ?Hgate; by replay.
Qed.

Lemma claim_action_twice chain tn cid ncp w :
  db_wf (World.db w) →
  let run := action_claim_reward_triggered_event_handler chain
               (ActionClaimRewardTriggeredEvent tn cid ncp) in
  World.context (final run (final run w)) = World.context (final run w).
Proof.
  intros Hwf run. subst run.
  unfold action_claim_reward_triggered_event_handler, final.
  destruct (Database.get_monitor_request tn cid ncp (World.db w))
    as [mr|] eqn:Hmr; unfold World.db in Hmr; [|by replay].
  destruct (Database.get_channel (MonitorRequest.token_network_address mr)
              (MonitorRequest.channel_identifier mr) (World.db w))
    as [channel|] eqn:Hget; [|unfold World.db in Hget; by replay].
  pose proof (get_channel_key _ _ _ _ Hwf Hget) as Hkey.
  unfold World.db in Hget.
  destruct (0 <? MonitorRequest.reward_amount mr) eqn:Hreward;
    [|by repeat (replay; rewrite ?andb_false_r)].
  destruct (bool_decide (Channel.claim_tx_hash channel = None)) eqn:Hfree;
    [|by replay].
  destruct (Channel.update_status channel) as [status|] eqn:Hstatus;
    [|by replay].
  destruct (bool_decide
              (OnChainUpdateStatus.update_sender_address status
               = MonitoringServiceState.address
                   (Context.ms_state (World.context w)))) eqn:Hours;
    [|by replay].
  destruct (Chain.claimReward chain (MonitorRequest.channel_identifier mr)
              (MonitorRequest.token_network_address mr)
              (MonitorRequest.signer mr)
              (MonitorRequest.non_closing_signer mr)
              (MonitoringServiceState.address
                 (Context.ms_state (World.context w))))
    as [tx_hash|] eqn:Hsent; by replay.
Qed.

(** X10. Handling an event a second time, right after the first and with
    the same answers of the chain, changes nothing: the context (service
    state and database) after the second run is the context after the
    first. This holds for every event class, in a database that files every
    channel under its own identity. *)
Theorem handling_twice_is_handling_once chain event w :
  db_wf (World.db w) →
  World.context
    (final (handle_event chain event) (final (handle_event chain event) w))
  = World.context (final (handle_event chain event) w).
Proof.
  intros Hwf. unfold handle_event. destruct event; cbn [HANDLERS].
  - unfold channel_opened_event_handler, final. unfold_monad. cbn.
    by rewrite upsert_channel_twice.
  - by apply closed_handler_twice.
  - by apply non_closing_update_twice.
  - by apply settled_handler_twice.
  - by apply monitoring_update_twice.
  - done.
  - done.
  - by apply monitoring_action_twice.
  - by apply claim_action_twice.
Qed.

(** X10 on the happy path: the ChannelClosed event replayed. *)
Lemma closed_event_replayed_in_happy_path :
  let run := handle_event (Scenario.chain 30)
               (ReceiveChannelClosedEvent "TN" 1 "A" 150) in
  let w := Scenario.world_with Scenario.channel [] in
  World.context (final run (final run w)) = World.context (final run w).
Proof.
  intros run w.
  apply (handling_twice_is_handling_once (Scenario.chain 30)
           (ReceiveChannelClosedEvent "TN" 1 "A" 150) w).
  apply world_with_wf. reflexivity.
Defined.
